(** * Nexus Cursor plugin: a shallow embedding of its TypeScript sources

    Part I holds the embedding, one module per source file:
    - [JS]          : the fragment of the JavaScript run time the sources rely
                      on (thrown values, [try]/[catch], awaited calls, the
                      [pino] logger);
    - [Tools]       : the data model exported by [src/tools/index.ts] and
                      documented in [src/tools/README.md];
    - [ScanExample] : [examples/security-scan-example.ts], the standalone
                      entry point and its exit codes;
    - [Git]         : [src/git/git-service.ts];
    - [Query]       : [src/handlers/query-handler.ts];
    - [Scanner]     : the functions of [src/tools/security-scanner.ts] that
                      the specification describes (the file itself is not
                      among the sources);
    - [Samples]     : concrete inputs.

    Part II holds the theorems, one module of facts per module of Part I.

    Counts, lengths, line numbers and times are embedded as the integers
    ([Z]) they denote, and the CVSS scores of the scanner as rationals
    ([Q]).  The scores, confidences and relevances of the query handler are
    [Query.Number]s: a finite number (the rational it denotes), [NaN], or an
    infinity. *)

From Stdlib Require Import ZArith QArith Qround Qminmax List String Ascii Bool Lia Lqa.
From Stdlib Require Import Sorting.Sorted.
From Stdlib Require Import Floats.
Import ListNotations.

Local Open Scope string_scope.
Local Open Scope Z_scope.
Local Open Scope list_scope.

(* ================================================================= *)
(** * Part I: the embedding *)
(* ================================================================= *)

(* ----------------------------------------------------------------- *)
(** ** JavaScript run time *)

Module JS.

(** A thrown value: an [Error] object with its message, or any other value
    (the sources test [error instanceof Error]). *)
Inductive Exn : Type :=
| Error (message : string)
| NonError (shown : string).

(** The outcome of evaluating a call (of awaiting a promise): it returns
    (fulfils) or it throws (rejects). *)
Inductive Outcome (A : Type) : Type :=
| Returned (a : A)
| Threw (e : Exn).
Arguments Returned {A} a.
Arguments Threw {A} e.

(** [error instanceof Error ? error.message : 'Unknown error'] *)
Definition messageOf (e : Exn) : string :=
  match e with
  | Error m => m
  | NonError _ => "Unknown error"
  end.

(** [value ?? fallback] and default parameters: a missing value selects the
    fallback. *)
Definition orDefault {A} (o : option A) (d : A) : A :=
  match o with Some a => a | None => d end.

(** Levels of the [pino] logger used by the services. *)
Inductive Level : Type := Ldebug | Linfo | Lwarn | Lerror.

Record LogRecord : Type := mkLog { level : Level; msg : string }.

(** Service code runs against the module's logger and may throw: a
    computation takes the log written so far and gives an outcome together
    with the extended log. *)
Definition M (A : Type) : Type := list LogRecord -> Outcome A * list LogRecord.

Definition ret {A} (a : A) : M A := fun log => (Returned a, log).

Definition throw {A} (e : Exn) : M A := fun log => (Threw e, log).

Definition bind {A B} (m : M A) (k : A -> M B) : M B :=
  fun log =>
    match m log with
    | (Returned a, log') => k a log'
    | (Threw e, log') => (Threw e, log')
    end.

(** [try { body } catch (error) { handler(error) }] *)
Definition try_catch {A} (body : M A) (handler : Exn -> M A) : M A :=
  fun log =>
    match body log with
    | (Returned a, log') => (Returned a, log')
    | (Threw e, log') => handler e log'
    end.

(** [await] of a call into a library, whose promise fulfils or rejects. *)
Definition await {A} (o : Outcome A) : M A := fun log => (o, log).

(** A call of a method that returns or throws. *)
Definition call {A} (o : Outcome A) : M A := fun log => (o, log).

(** [logger.<level>(obj, msg)]: appends a record, never throws. *)
Definition logger (l : Level) (m : string) : M unit :=
  fun log => (Returned tt, log ++ [mkLog l m]).

Definition run {A} (m : M A) : Outcome A * list LogRecord := m [].

Definition result {A} (m : M A) : Outcome A := fst (run m).

(** [m] returns [a] to its caller, whatever was logged before. *)
Definition returns {A} (m : M A) (a : A) : Prop :=
  forall log, exists log', m log = (Returned a, log').

(** [m] never throws to its caller. *)
Definition neverThrows {A} (m : M A) : Prop :=
  forall log, exists a log', m log = (Returned a, log').

End JS.

Declare Scope js_scope.
Delimit Scope js_scope with js.
Notation "x <- m ;; k" := (JS.bind m (fun x => k))
  (at level 61, m at next level, right associativity) : js_scope.
Notation "m ;;; k" := (JS.bind m (fun _ => k))
  (at level 61, right associativity) : js_scope.

(* ----------------------------------------------------------------- *)
(** ** The scanner's data model ([src/tools/index.ts], [src/tools/README.md]) *)

Module Tools.

Inductive Severity : Type := CRITICAL | HIGH | MEDIUM | LOW | UNKNOWN.

Inductive Ecosystem : Type :=
| npm | PyPI | Go | crates_io | Maven | Packagist | RubyGems | NuGet.

Record Dependency : Type := mkDependency {
  name : string;
  version : string;
  ecosystem : Ecosystem;
  filePath : string;
  lineNumber : option Z
}.

Record Vulnerability : Type := mkVulnerability {
  id : string;
  summary : string;
  details : option string;
  severity : Severity;
  cvss : option Q;
  cveIds : list string;
  affectedVersions : list string;
  fixedVersions : list string;
  references : list string;
  publishedAt : option string;
  modifiedAt : option string
}.

Record VulnerabilityReport : Type := mkReport {
  dependency : Dependency;
  vulnerabilities : list Vulnerability
}.

(** [severityCounts : Record<Severity, number>] is a total map over the five
    severities; [timestamp] is a [Date] (milliseconds since the epoch) and
    [scanDuration] a number of milliseconds. *)
Record ScanResult : Type := mkScanResult {
  timestamp : Z;
  projectPath : string;
  totalDependencies : Z;
  vulnerableDependencies : Z;
  totalVulnerabilities : Z;
  severityCounts : Severity -> Z;
  reports : list VulnerabilityReport;
  scanDuration : Z
}.

End Tools.

(* ----------------------------------------------------------------- *)
(** ** [examples/security-scan-example.ts] *)

Module ScanExample.
Import JS Tools.

(** What the script writes with [console.log], [console.warn] and
    [console.error]. *)
Inductive Console : Type :=
| Log (line : string)
| Warn (line : string)
| Err (line : string)
| ErrWith (line : string) (error : Exn).

(** [process.argv[2] || path.resolve(process.cwd(), '..', 'Adverant-Nexus')]:
    a missing or empty argument selects the fallback. *)
Definition projectPathOf (argv2 : option string) (fallback : string) : string :=
  match argv2 with
  | Some p => if (p =? "")%string then fallback else p
  | None => fallback
  end.

(** The branch of [main] that follows a fulfilled [scanner.scan()]: the
    lines written after the report, and the code given to [process.exit]. *)
Definition exitFor (result : ScanResult) : list Console * Z :=
  if 0 <? totalVulnerabilities result then
    if 0 <? severityCounts result CRITICAL then
      ([Err "❌ CRITICAL vulnerabilities found! Please fix immediately."], 2)
    else if 0 <? severityCounts result HIGH then
      ([Warn "⚠️  HIGH severity vulnerabilities found! Please address soon."], 1)
    else
      ([Log "⚠️  Some vulnerabilities found, but none are critical."], 0)
  else
    ([Log "✅ No vulnerabilities found!"], 0).

(** [main]: the console output and the exit code of the process.  [scan] is
    [new SecurityScanner(projectPath).scan()], which fulfils with a result or
    throws, and [formatScanResult] the static formatter of the scanner, a
    function from results to text.  [process.exit] ends the process where it
    is called. *)
Definition main
    (scan : string -> Outcome ScanResult)
    (formatScanResult : ScanResult -> string)
    (argv2 : option string) (fallback : string) : list Console * Z :=
  let projectPath := projectPathOf argv2 fallback in
  let banner :=
    [Log "🔍 Starting Security Scan...";
     Log ("📁 Project: " ++ projectPath)%string;
     Log ""] in
  match scan projectPath with
  | Returned result =>
      let '(lines, code) := exitFor result in
      (banner ++ Log (formatScanResult result) :: lines, code)
  | Threw error =>
      (banner ++ [ErrWith "❌ Security scan failed:" error], 1)
  end.

Definition exitCode
    (scan : string -> Outcome ScanResult)
    (formatScanResult : ScanResult -> string)
    (argv2 : option string) (fallback : string) : Z :=
  snd (main scan formatScanResult argv2 fallback).

End ScanExample.

(* ----------------------------------------------------------------- *)
(** ** [src/git/git-service.ts] *)

Module Git.
Import JS.
Local Open Scope js_scope.

(** One entry of simple-git's [LogResult] ([DefaultLogFields]). *)
Record LogEntry : Type := mkLogEntry {
  hash : string;
  date : string;
  message : string;
  author_name : string;
  author_email : string
}.

Record LogResult : Type := mkLogResult { all : list LogEntry }.

(** The options object given to [git.log]. *)
Record LogOptions : Type := mkLogOptions {
  file : option string;
  from : option string;
  to : option string;
  maxCount : option Z
}.

Record RemoteRefs : Type := mkRefs { fetch : string; push : string }.

Record Remote : Type := mkRemote { name : string; refs : RemoteRefs }.

(** The [SimpleGit] handle held by the service: each call is a promise that
    fulfils with git's answer or rejects. *)
Module SimpleGit.
Record t : Type := make {
  log : LogOptions -> Outcome LogResult;
  diff : list string -> Outcome string;
  status : Outcome unit;
  getRemotes : bool -> Outcome (list Remote);
  raw : list string -> Outcome string
}.
End SimpleGit.

(** [new Date(entry.date)] *)
Inductive Date : Type := DateOf (text : string).

Module CommitInfo.
Record t : Type := make {
  hash : string;
  author : string;
  email : string;
  date : Date;
  message : string;
  files : list string
}.
End CommitInfo.

(** [String.prototype.split] on a one-character separator. *)
Fixpoint split (sep : ascii) (s : string) : list string :=
  match s with
  | EmptyString => [EmptyString]
  | String c rest =>
      if Ascii.eqb c sep then EmptyString :: split sep rest
      else
        match split sep rest with
        | [] => [String c EmptyString]
        | piece :: pieces => String c piece :: pieces
        end
  end.

(** [Boolean] on a string: the empty string is falsy. *)
Definition nonEmpty (s : string) : bool := negb (s =? "")%string.

Definition newline : ascii := "010"%char.

(** The object literal the accessors build from a log entry. *)
Definition toCommitInfo (changed : list string) (entry : LogEntry) : CommitInfo.t :=
  {| CommitInfo.hash := hash entry;
     CommitInfo.author := author_name entry;
     CommitInfo.email := author_email entry;
     CommitInfo.date := DateOf (date entry);
     CommitInfo.message := message entry;
     CommitInfo.files := changed |}.

(** [{ file: filePath, maxCount: limit }] with [limit = 10] by default. *)
Definition fileHistoryOptions (filePath : string) (limit : option Z) : LogOptions :=
  {| file := Some filePath; from := None; to := None;
     maxCount := Some (orDefault limit 10) |}.

(** [{ from: hash, to: hash, maxCount: 1 }] *)
Definition commitOptions (h : string) : LogOptions :=
  {| file := None; from := Some h; to := Some h; maxCount := Some 1 |}.

(** [{ maxCount: limit }] with [limit = 50] by default. *)
Definition recentOptions (limit : option Z) : LogOptions :=
  {| file := None; from := None; to := None;
     maxCount := Some (orDefault limit 50) |}.

(** [[`${hash}^`, hash, '--name-only']] *)
Definition commitDiffArgs (h : string) : list string :=
  [(h ++ "^")%string; h; "--name-only"].

(** [[commit1, commit2, '--', filePath]] with [commit2 = 'HEAD'] by default. *)
Definition fileDiffArgs (filePath commit1 : string) (commit2 : option string)
  : list string :=
  [commit1; orDefault commit2 "HEAD"; "--"; filePath].

(** [getFileHistory(filePath, limit = 10)] *)
Definition getFileHistory (git : SimpleGit.t) (filePath : string) (limit : option Z)
  : M (list CommitInfo.t) :=
  try_catch
    (history <- await (SimpleGit.log git (fileHistoryOptions filePath limit)) ;;
     ret (map (toCommitInfo []) (all history)))
    (fun error =>
       logger Lerror "Failed to get file history" ;;;
       ret []).

(** [getCommitDetails(hash)] *)
Definition getCommitDetails (git : SimpleGit.t) (h : string) : M (option CommitInfo.t) :=
  try_catch
    (history <- await (SimpleGit.log git (commitOptions h)) ;;
     match all history with
     | [] => ret None
     | entry :: _ =>
         names <- await (SimpleGit.diff git (commitDiffArgs h)) ;;
         let changed := filter nonEmpty (split newline names) in
         ret (Some (toCommitInfo changed entry))
     end)
    (fun error =>
       logger Lerror "Failed to get commit details" ;;;
       ret None).

(** [getRecentCommits(limit = 50)] *)
Definition getRecentCommits (git : SimpleGit.t) (limit : option Z) : M (list CommitInfo.t) :=
  try_catch
    (history <- await (SimpleGit.log git (recentOptions limit)) ;;
     ret (map (toCommitInfo []) (all history)))
    (fun error =>
       logger Lerror "Failed to get recent commits" ;;;
       ret []).

(** [getFileDiff(filePath, commit1, commit2 = 'HEAD')] *)
Definition getFileDiff (git : SimpleGit.t) (filePath commit1 : string)
    (commit2 : option string) : M string :=
  try_catch
    (await (SimpleGit.diff git (fileDiffArgs filePath commit1 commit2)))
    (fun error =>
       logger Lerror "Failed to get file diff" ;;;
       ret "").

(** [isGitRepository()] *)
Definition isGitRepository (git : SimpleGit.t) : M bool :=
  try_catch
    (await (SimpleGit.status git) ;;; ret true)
    (fun _ => ret false).

(** [getRemoteUrl()]: [origin?.refs.fetch || null]. *)
Definition getRemoteUrl (git : SimpleGit.t) : M (option string) :=
  try_catch
    (remotes <- await (SimpleGit.getRemotes git true) ;;
     match find (fun r => (name r =? "origin")%string) remotes with
     | Some origin =>
         ret (if nonEmpty (fetch (refs origin)) then Some (fetch (refs origin)) else None)
     | None => ret None
     end)
    (fun _ => ret None).

(** [raw(args)] *)
Definition raw (git : SimpleGit.t) (args : list string) : M string :=
  try_catch
    (await (SimpleGit.raw git args))
    (fun error =>
       logger Lerror "Failed to execute raw git command" ;;;
       ret "").

End Git.

(* ----------------------------------------------------------------- *)
(** ** [src/handlers/query-handler.ts] *)

Module Query.
Import JS.
Local Open Scope js_scope.

(** *** Numbers *)

(** A JavaScript number: a finite number, taken as the rational it denotes,
    [NaN], or an infinity.  The two zeros are one. *)
Inductive Number : Type :=
| Num (q : Q)
| NaN
| Infinity
| NegInfinity.

(** [Number.isFinite(x)] *)
Definition isFinite (x : Number) : bool :=
  match x with
  | Num _ => true
  | _ => false
  end.

(** [x <= y]: false as soon as one side is [NaN]. *)
Definition atMost (x y : Number) : Prop :=
  match x, y with
  | NaN, _ | _, NaN => False
  | Num a, Num b => (a <= b)%Q
  | NegInfinity, _ | _, Infinity => True
  | _, _ => False
  end.

(** [Math.max(x, y)] and [Math.min(x, y)]: [NaN] as soon as one argument
    is. *)
Definition Math_max (x y : Number) : Number :=
  match x, y with
  | NaN, _ | _, NaN => NaN
  | Num a, Num b => Num (Qmax a b)
  | Infinity, _ | _, Infinity => Infinity
  | NegInfinity, other | other, NegInfinity => other
  end.

Definition Math_min (x y : Number) : Number :=
  match x, y with
  | NaN, _ | _, NaN => NaN
  | Num a, Num b => Num (Qmin a b)
  | NegInfinity, _ | _, NegInfinity => NegInfinity
  | Infinity, other | other, Infinity => other
  end.

(** [x - y].  The difference of two finite numbers is left unrounded: the
    handler only gives it to [sort], which reads its sign, and the binary64
    difference of two finite numbers has the sign of their difference. *)
Definition minus (x y : Number) : Number :=
  match x, y with
  | NaN, _ | _, NaN => NaN
  | Num a, Num b => Num (a - b)
  | Infinity, Infinity | NegInfinity, NegInfinity => NaN
  | Infinity, _ | _, NegInfinity => Infinity
  | NegInfinity, _ | _, Infinity => NegInfinity
  end.

(** The sign of a number that is not [NaN]. *)
Definition signOf (x : Number) : comparison :=
  match x with
  | Num q => (q ?= 0)%Q
  | Infinity => Gt
  | NegInfinity => Lt
  | NaN => Eq
  end.

(** Values found in a metadata object ([Record<string, unknown>]). *)
#[warnings="-register-all"]
Inductive JSValue : Type :=
| VUndefined
| VNull
| VBool (b : bool)
| VNumber (n : Number)
| VString (s : string)
| VArray (items : list JSValue)
| VObject (fields : list (string * JSValue)).

Definition Metadata : Type := list (string * JSValue).

(** [metadata[field]] *)
Fixpoint get (field : string) (metadata : Metadata) : JSValue :=
  match metadata with
  | [] => VUndefined
  | (k, v) :: rest => if (k =? field)%string then v else get field rest
  end.

(** Truthiness, as tested by [if (value)] and [||]. *)
Definition truthy (v : JSValue) : bool :=
  match v with
  | VUndefined | VNull => false
  | VBool b => b
  | VNumber (Num q) => negb (Qeq_bool q 0)
  | VNumber NaN => false
  | VNumber _ => true
  | VString s => negb (s =? "")%string
  | VArray _ | VObject _ => true
  end.

(** The parts of the platform the handler calls and that are taken as given:
    [Math.exp], the rounding of arithmetic ([binary64 q] is the binary64
    number nearest to the rational [q], ties to even, and an infinity beyond
    the range: what a decimal literal denotes and what a product returns),
    [parseInt(_, 10)] ([None] for [NaN]), [String.prototype.toLowerCase],
    [String.prototype.trim], and the match of the code-block pattern (its
    first group). *)
Record Platform : Type := mkPlatform {
  Math_exp : Q -> Q;
  binary64 : Q -> Number;
  parseInt10 : string -> option Z;
  toLowerCase : string -> string;
  trim : string -> string;
  matchCodeBlock : string -> option string
}.

Module SearchResult.
Record t : Type := make {
  id : string;
  content : string;
  score : Number;
  metadata : option Metadata
}.
End SearchResult.

(** What [GraphRAGClient.retrieve] fulfils with. *)
Module RetrievalResult.
Record t : Type := make {
  content : string;
  sources : option (list SearchResult.t)
}.
End RetrievalResult.

(** The options object given to [GraphRAGClient.search]. *)
Module SearchOptions.
Record t : Type := make {
  limit : Z;
  domain : string
}.
End SearchOptions.

Module GraphRAGClient.
Record t : Type := make {
  retrieve : string -> string -> Outcome RetrievalResult.t;
  search : string -> SearchOptions.t -> Outcome (list SearchResult.t)
}.
End GraphRAGClient.

Record QueryOptions : Type := mkOptions {
  limit : option Z;
  language : option string;
  fileType : option string;
  directory : option string;
  includeSnippets : option bool
}.

(** [QueryResultItem.metadata]; [language] and [type] are unchecked casts of
    the metadata's values. *)
Module ItemMetadata.
Record t : Type := make {
  language : JSValue;
  type : JSValue;
  symbols : list string;
  tags : list string
}.
End ItemMetadata.

Record QueryResultItem : Type := mkItem {
  id : string;
  filePath : string;
  lineNumber : option Number;
  endLine : option Number;
  code : option string;
  context : string;
  confidence : Number;
  relevance : Number;
  metadata : ItemMetadata.t
}.

Module QueryResponse.
Record t : Type := make {
  query : string;
  summary : string;
  results : list QueryResultItem;
  totalResults : Z;
  maxConfidence : Number;
  executionTime : Z
}.
End QueryResponse.

Module SemanticSearchResult.
Record t : Type := make {
  term : string;
  results : list QueryResultItem;
  totalResults : Z
}.
End SemanticSearchResult.

(** *** Strings *)

(** A non-empty option string, as tested by [if (options.language)]. *)
Definition given (o : option string) : option string :=
  match o with
  | Some s => if (s =? "")%string then None else Some s
  | None => None
  end.

Definition startsWith (s pre : string) : bool := String.prefix pre s.

Definition endsWith (s suf : string) : bool :=
  let n := String.length s in
  let m := String.length suf in
  (m <=? n)%nat && (substring (n - m) m s =? suf)%string.

Fixpoint includes (s needle : string) : bool :=
  String.prefix needle s
  || match s with
     | EmptyString => false
     | String _ rest => includes rest needle
     end.

(** [s.lastIndexOf(c)], [None] for [-1]. *)
Fixpoint lastIndexOf (c : ascii) (s : string) : option nat :=
  match s with
  | EmptyString => None
  | String a rest =>
      match lastIndexOf c rest with
      | Some i => Some (S i)
      | None => if Ascii.eqb a c then Some O else None
      end
  end.

(** [s.replace(/^\/|\/$/g, '')]: one leading and one trailing slash go. *)
Definition stripSlashes (s : string) : string :=
  let s1 := match s with
            | String "/"%char rest => rest
            | _ => s
            end in
  if endsWith s1 "/" then substring 0 (String.length s1 - 1) s1 else s1.

(** *** Private helpers of [QueryHandler] *)

Definition buildEnhancedQuery (question : string) (options : QueryOptions) : string :=
  let parts :=
    [question]
    ++ match given (language options) with
       | Some l => [("Focus on " ++ l ++ " code.")%string]
       | None => []
       end
    ++ match given (fileType options) with
       | Some t => [("Only include " ++ t ++ " files.")%string]
       | None => []
       end
    ++ match given (directory options) with
       | Some d => [("Search within the " ++ d ++ " directory.")%string]
       | None => []
       end in
  String.concat " " parts.

(** The first field of [fields] that holds a non-empty string. *)
Fixpoint firstString (fields : list string) (metadata : Metadata) : option string :=
  match fields with
  | [] => None
  | field :: rest =>
      match get field metadata with
      | VString value =>
          if (0 <? String.length value)%nat then Some value
          else firstString rest metadata
      | _ => firstString rest metadata
      end
  end.

Definition pathFields : list string :=
  ["filePath"; "file_path"; "path"; "file"; "source"].

Definition extractFilePath (metadata : Metadata) : option string :=
  match firstString pathFields metadata with
  | Some value => Some value
  | None =>
      match get "source" metadata with
      | VObject nested => firstString pathFields nested
      | _ => None
      end
  end.

(** The first field of [fields] that holds a number, or a string that
    [parseInt] reads as one. *)
Fixpoint firstNumber (P : Platform) (fields : list string) (metadata : Metadata)
  : option Number :=
  match fields with
  | [] => None
  | field :: rest =>
      match get field metadata with
      | VNumber value => Some value
      | VString value =>
          match parseInt10 P value with
          | Some parsed => Some (Num (inject_Z parsed))
          | None => firstNumber P rest metadata
          end
      | _ => firstNumber P rest metadata
      end
  end.

Definition extractLineNumber (P : Platform) (metadata : Metadata) : option Number :=
  firstNumber P ["lineNumber"; "line_number"; "startLine"; "start_line"; "line"] metadata.

Definition extractEndLine (P : Platform) (metadata : Metadata) : option Number :=
  firstNumber P ["endLine"; "end_line"; "lineEnd"] metadata.

Definition strings (items : list JSValue) : list string :=
  flat_map (fun v => match v with VString s => [s] | _ => [] end) items.

Fixpoint extractSymbolsFrom (fields : list string) (metadata : Metadata) : list string :=
  match fields with
  | [] => []
  | field :: rest =>
      match get field metadata with
      | VArray value => strings value
      | VString value => [value]
      | _ => extractSymbolsFrom rest metadata
      end
  end.

Definition extractSymbols (metadata : Metadata) : list string :=
  extractSymbolsFrom ["symbols"; "symbol"; "names"; "identifiers"] metadata.

Fixpoint extractTagsFrom (fields : list string) (metadata : Metadata) : list string :=
  match fields with
  | [] => []
  | field :: rest =>
      match get field metadata with
      | VArray value => strings value
      | _ => extractTagsFrom rest metadata
      end
  end.

Definition extractTags (metadata : Metadata) : list string :=
  extractTagsFrom ["tags"; "labels"; "categories"] metadata.

Definition extractCodeSnippet (P : Platform) (content : string) : string :=
  match matchCodeBlock P content with
  | Some group => trim P group
  | None => trim P content
  end.

Definition getFileExtension (P : Platform) (filePath : string) : string :=
  match lastIndexOf "."%char filePath with
  | None => ""
  | Some lastDot =>
      if (lastDot =? String.length filePath - 1)%nat then ""
      else toLowerCase P (substring (S lastDot) (String.length filePath - S lastDot) filePath)
  end.

(** [Math.round]: the nearest integer, halves upwards. *)
Definition Math_round (x : Q) : Z := Qfloor (x + (1 # 2)).

(** [Math.max(0, Math.min(1, x))] *)
Definition clamp01 (x : Number) : Number := Math_max (Num 0) (Math_min (Num 1) x).

(** [calculateConfidence(score)].  [normalizedScore] is a number from 0 to
    1, or [NaN] for the score [NaN], and arithmetic on [NaN] gives [NaN].
    On a number the arithmetic is that of the rationals; the result is
    rounded to two decimals at the end. *)
Definition calculateConfidence (P : Platform) (score : Number) : Number :=
  let normalizedScore := clamp01 score in
  match normalizedScore with
  | Num n =>
      let confidence := (1 / (1 + Math_exp P (- (10) * (n - (1 # 2)))))%Q in
      Num (inject_Z (Math_round (confidence * 10000)) / 100)
  | _ => NaN
  end.

(** The number a decimal literal denotes. *)
Definition literal (P : Platform) (decimal : Q) : Number := binary64 P decimal.

(** [x * y], rounded to binary64. *)
Definition times (P : Platform) (x y : Number) : Number :=
  match x, y with
  | NaN, _ | _, NaN => NaN
  | Num a, Num b => binary64 P (a * b)
  | _, _ =>
      match signOf x, signOf y with
      | Eq, _ | _, Eq => NaN
      | Lt, Lt | Gt, Gt => Infinity
      | _, _ => NegInfinity
      end
  end.

(** [calculateRelevance(score, metadata)] *)
Definition calculateRelevance (P : Platform) (score : Number) (metadata : Metadata)
  : Number :=
  let r0 := score in
  let r1 := if truthy (get "language" metadata)
            then times P r0 (literal P (11 # 10)) else r0 in
  let r2 := match get "type" metadata with
            | VString t =>
                if ((t =? "function") || (t =? "class"))%string
                then times P r1 (literal P (115 # 100)) else r1
            | _ => r1
            end in
  let r3 := match get "tags" metadata with
            | VArray (_ :: _) => times P r2 (literal P (105 # 100))
            | _ => r2
            end in
  clamp01 r3.

(** *** Arrays *)

(** [Array.prototype.filter] with a callback that may throw: the first
    element whose test throws ends the call. *)
Fixpoint filterThrowing {A} (test : A -> Outcome bool) (l : list A) : Outcome (list A) :=
  match l with
  | [] => Returned []
  | x :: rest =>
      match test x with
      | Threw e => Threw e
      | Returned keep =>
          match filterThrowing test rest with
          | Threw e => Threw e
          | Returned kept => Returned (if keep then x :: kept else kept)
          end
      end
  end.

(** What [sort] reads off an answer of its comparator: [x] stays before [y]
    unless the answer is positive, and [NaN] is read as [+0]. *)
Definition notPositive (answer : Number) : bool :=
  match answer with
  | Num q => Qle_bool q 0
  | NaN | NegInfinity => true
  | Infinity => false
  end.

(** [Array.prototype.sort(compare)].  The sort is stable, and for a
    comparator that orders the elements consistently its result is the one
    stable ordering; stable insertion computes it.  [x] goes before [y] when
    [compare(x, y) <= 0].  For a comparator that does not order the elements
    consistently, as one that answers [NaN] for some of them, the language
    leaves the order to the implementation: [sort] then gives one of the
    possible orders, and what is proved of the order of its result assumes
    that no key is [NaN]. *)
Fixpoint insertSorted {A} (compare : A -> A -> Number) (x : A) (sorted : list A)
  : list A :=
  match sorted with
  | [] => [x]
  | y :: rest =>
      if notPositive (compare x y) then x :: sorted
      else y :: insertSorted compare x rest
  end.

Fixpoint sort {A} (compare : A -> A -> Number) (l : list A) : list A :=
  match l with
  | [] => []
  | x :: rest => insertSorted compare x (sort compare rest)
  end.

(** [l.slice(0, end)]: a negative [end] counts from the end of the array. *)
Definition slice0 {A} (l : list A) (end_ : Z) : list A :=
  let len := Z.of_nat (List.length l) in
  let final := if end_ <? 0 then Z.max (len + end_) 0 else Z.min end_ len in
  firstn (Z.to_nat final) l.

(** [Math.max(...values)] of a non-empty array; the handler gives 0 for the
    empty one. *)
Definition maxOf (values : list Number) : Number :=
  match values with
  | [] => Num 0
  | v :: rest => fold_left Math_max rest v
  end.

(** *** [formatResults] *)

(** The body of the loop: [None] when the source is skipped for want of a
    file path.  On values of the declared types nothing in it throws, so the
    loop's own [catch] is never entered. *)
Definition formatSource (P : Platform) (source : SearchResult.t) (snippets : bool)
  : option QueryResultItem :=
  let metadata := orDefault (SearchResult.metadata source) [] in
  match extractFilePath metadata with
  | None => None
  | Some path =>
      Some {| id := SearchResult.id source;
              filePath := path;
              lineNumber := extractLineNumber P metadata;
              endLine := extractEndLine P metadata;
              code := if snippets
                      then Some (extractCodeSnippet P (SearchResult.content source))
                      else None;
              context := SearchResult.content source;
              confidence := calculateConfidence P (SearchResult.score source);
              relevance := calculateRelevance P (SearchResult.score source) metadata;
              metadata := {| ItemMetadata.language := get "language" metadata;
                             ItemMetadata.type := get "type" metadata;
                             ItemMetadata.symbols := extractSymbols metadata;
                             ItemMetadata.tags := extractTags metadata |} |}
  end.

Fixpoint formatResults (P : Platform) (sources : list SearchResult.t)
    (options : QueryOptions) (snippets : bool) : M (list QueryResultItem) :=
  match sources with
  | [] => ret []
  | source :: rest =>
      match formatSource P source snippets with
      | None =>
          logger Ldebug "Skipping source with no file path" ;;;
          formatResults P rest options snippets
      | Some item =>
          items <- formatResults P rest options snippets ;;
          ret (item :: items)
      end
  end.

(** *** [applyFilters] *)

(** [r.metadata.language?.toLowerCase() === targetLang]: the call is skipped
    on [undefined] and [null], and throws a [TypeError] on a value that is
    not a string. *)
Definition languageIs (P : Platform) (targetLang : string) (v : JSValue) : Outcome bool :=
  match v with
  | VUndefined | VNull => Returned false
  | VString s => Returned (toLowerCase P s =? targetLang)%string
  | _ => Threw (Error "r.metadata.language?.toLowerCase is not a function")
  end.

Definition matchesLanguage (P : Platform) (targetLang : string) (r : QueryResultItem)
  : Outcome bool :=
  match languageIs P targetLang (ItemMetadata.language (metadata r)) with
  | Threw e => Threw e
  | Returned true => Returned true
  | Returned false =>
      Returned (endsWith (filePath r) ("." ++ targetLang)%string
                || (getFileExtension P (filePath r) =? targetLang)%string)
  end.

Definition applyFilters (P : Platform) (results : list QueryResultItem)
    (options : QueryOptions) : Outcome (list QueryResultItem) :=
  let byLanguage :=
    match given (language options) with
    | Some l => filterThrowing (matchesLanguage P (toLowerCase P l)) results
    | None => Returned results
    end in
  match byLanguage with
  | Threw e => Threw e
  | Returned filtered =>
      let byType :=
        match given (fileType options) with
        | Some t =>
            let targetExt := if startsWith t "." then t else ("." ++ t)%string in
            filter (fun r => endsWith (filePath r) targetExt) filtered
        | None => filtered
        end in
      let byDirectory :=
        match given (directory options) with
        | Some d =>
            let targetDir := stripSlashes d in
            filter (fun r => includes (filePath r) targetDir) byType
        | None => byType
        end in
      Returned byDirectory
  end.

(** *** The public operations *)

(** [(a, b) => b.confidence - a.confidence] *)
Definition byConfidence (a b : QueryResultItem) : Number :=
  minus (confidence b) (confidence a).

(** [(a, b) => b.relevance - a.relevance] *)
Definition byRelevance (a b : QueryResultItem) : Number :=
  minus (relevance b) (relevance a).

(** [a] may stand before [b] in an array ordered by [key], largest first. *)
Definition notBelow {A} (key : A -> Number) (a b : A) : Prop := atMost (key b) (key a).

(** No source of the list has the score [NaN]. *)
Definition scored (sources : list SearchResult.t) : Prop :=
  Forall (fun source => SearchResult.score source <> NaN) sources.

(** The order [query] leaves its results in: no entry is followed by one of
    greater confidence. *)
Definition ranked : QueryResultItem -> QueryResultItem -> Prop := notBelow confidence.

(** [query(question, options = {})]; [startTime] and [finishTime] are the
    two readings of [Date.now()]. *)
Definition query (client : GraphRAGClient.t) (P : Platform)
    (question : string) (options : QueryOptions) (startTime finishTime : Z)
  : M QueryResponse.t :=
  try_catch
    (logger Linfo "Processing natural language query" ;;;
     let limit := orDefault (limit options) 20 in
     let includeSnippets := orDefault (includeSnippets options) true in
     let enhancedQuery := buildEnhancedQuery question options in
     retrievalResult <- await (GraphRAGClient.retrieve client enhancedQuery "hybrid") ;;
     logger Ldebug "Retrieved results from GraphRAG" ;;;
     results <- formatResults P (orDefault (RetrievalResult.sources retrievalResult) [])
                  options includeSnippets ;;
     filteredResults <- call (applyFilters P results options) ;;
     let rankedResults := slice0 (sort byConfidence filteredResults) limit in
     let maxConfidence := maxOf (map confidence rankedResults) in
     let executionTime := finishTime - startTime in
     logger Linfo "Query completed successfully" ;;;
     ret {| QueryResponse.query := question;
            QueryResponse.summary :=
              if (RetrievalResult.content retrievalResult =? "")%string
              then "No summary available"
              else RetrievalResult.content retrievalResult;
            QueryResponse.results := rankedResults;
            QueryResponse.totalResults := Z.of_nat (List.length filteredResults);
            QueryResponse.maxConfidence := maxConfidence;
            QueryResponse.executionTime := executionTime |})
    (fun error =>
       logger Lerror "Query failed" ;;;
       throw (Error ("Query failed: " ++ messageOf error)%string)).

(** [semanticSearch(term, options = {})] *)
Definition semanticSearch (client : GraphRAGClient.t) (P : Platform)
    (term : string) (options : QueryOptions) : M SemanticSearchResult.t :=
  try_catch
    (logger Linfo "Performing semantic search" ;;;
     let limit := orDefault (limit options) 15 in
     let semanticQuery :=
       ("Find code that is semantically similar to or implements: " ++ term)%string in
     searchResults <- await (GraphRAGClient.search client semanticQuery
                               {| SearchOptions.limit := limit * 2;
                                  SearchOptions.domain := "code" |}) ;;
     logger Ldebug "Retrieved semantic search results" ;;;
     formattedResults <- formatResults P searchResults options true ;;
     filtered <- call (applyFilters P formattedResults options) ;;
     let filteredResults := slice0 (sort byRelevance filtered) limit in
     logger Linfo "Semantic search completed" ;;;
     ret {| SemanticSearchResult.term := term;
            SemanticSearchResult.results := filteredResults;
            SemanticSearchResult.totalResults := Z.of_nat (List.length filteredResults) |})
    (fun error =>
       logger Lerror "Semantic search failed" ;;;
       throw (Error ("Semantic search failed: " ++ messageOf error)%string)).

End Query.

(* ----------------------------------------------------------------- *)
(** ** [src/tools/security-scanner.ts], as the specification describes it

    The scanner's implementation is not among the sources; only its exported
    types, its documentation and its caller are.  The definitions of this
    module are written from the specification. *)

Module Scanner.
Import JS Tools.

(** *** Version Normalizer (specification, section 4.3) *)

Definition isDigit (c : ascii) : bool :=
  let n := nat_of_ascii c in ((48 <=? n) && (n <=? 57))%nat.

(** Modelled from the spec: the range operators the normalizer of
    [security-scanner.ts] strips, the two-character ones first so that [~>]
    is not read as [~]. *)
Definition rangeOperators : list string := ["~>"; ">="; "<="; "^"; "~"].

(** Modelled from the spec: [s] without its prefix [pre], when it has that
    prefix (the stripping step of the normalizer of [security-scanner.ts]). *)
Fixpoint dropPrefix (pre s : string) : option string :=
  match pre, s with
  | EmptyString, _ => Some s
  | String a pre', String b s' => if Ascii.eqb a b then dropPrefix pre' s' else None
  | String _ _, EmptyString => None
  end.

(** Modelled from the spec: the first operator of [operators] that starts
    [s] is taken off (the normalizer of [security-scanner.ts]). *)
Fixpoint stripOperator (operators : list string) (s : string) : string :=
  match operators with
  | [] => s
  | op :: rest =>
      match dropPrefix op s with
      | Some bound => bound
      | None => stripOperator rest s
      end
  end.

(** Modelled from the spec: a leading [v] is taken off (the normalizer of
    [security-scanner.ts]; the tag prefix of Go versions). *)
Definition stripLeadingV (s : string) : string :=
  match s with
  | String c rest => if Ascii.eqb c "v" then rest else s
  | EmptyString => s
  end.

(** Modelled from the spec: the version normalizer of [security-scanner.ts]
    ("strips ecosystem-specific range operators ([^], [~], [>=], [<=], [~>],
    leading [v]) to yield a best-effort exact version string"). *)
Definition normalizeVersion (declared : string) : string :=
  stripLeadingV (stripOperator rangeOperators declared).

(** A numeral: one or more decimal digits. *)
Fixpoint allDigits (s : string) : bool :=
  match s with
  | EmptyString => true
  | String c rest => isDigit c && allDigits rest
  end.

Definition isNumeral (s : string) : bool :=
  match s with
  | EmptyString => false
  | String _ _ => allDigits s
  end.

(** The text [X.Y.Z]. *)
Definition dotted (X Y Z : string) : string := (X ++ "." ++ Y ++ "." ++ Z)%string.

(** *** Report Correlator (specification, section 4.5) *)

(** Modelled from the spec: an advisory record of the upstream database as
    section 6 lists its fields; [cvssV3] is the CVSS v3 base score when the
    record carries one. *)
Module Advisory.
Record Event : Type := mkEvent { introduced : option string; fixed : option string }.
Record Affected : Type := mkAffected { versions : list string; events : list Event }.
Record t : Type := make {
  id : string;
  summary : string;
  details : option string;
  cvssV3 : option Q;
  aliases : list string;
  affected : list Affected;
  references : list string;
  published : option string;
  modified : option string
}.
End Advisory.

(** Modelled from the spec: the severity derivation of [security-scanner.ts]
    ("bucket as CRITICAL (>=9.0), HIGH (>=7.0), MEDIUM (>=4.0), LOW (>0), else
    UNKNOWN when no CVSS score is available"). *)
Definition severityOf (cvss : option Q) : Severity :=
  match cvss with
  | None => UNKNOWN
  | Some score =>
      if Qle_bool 9 score then CRITICAL
      else if Qle_bool 7 score then HIGH
      else if Qle_bool 4 score then MEDIUM
      else if negb (Qle_bool score 0) then LOW
      else UNKNOWN
  end.

(** Modelled from the spec: the severity the correlator of
    [security-scanner.ts] gives a raw record, read off its CVSS v3 score. *)
Definition deriveSeverity (raw : Advisory.t) : Severity :=
  severityOf (Advisory.cvssV3 raw).

(** Modelled from the spec: the CVE identifier pattern [CVE-YYYY-NNNN...] of
    [security-scanner.ts]: a four-digit year and four or more digits. *)
Definition isCveId (s : string) : bool :=
  match dropPrefix "CVE-" s with
  | None => false
  | Some rest =>
      let year := substring 0 4 rest in
      let tail := substring 5 (String.length rest - 5) rest in
      (String.length year =? 4)%nat && allDigits year
      && (substring 4 1 rest =? "-")%string
      && (4 <=? String.length tail)%nat && allDigits tail
  end.

(** Modelled from the spec: the versions marked as fix points in the events
    of an affected range (the correlator of [security-scanner.ts]). *)
Definition fixedOf (a : Advisory.Affected) : list string :=
  flat_map (fun e => match Advisory.fixed e with Some v => [v] | None => [] end)
           (Advisory.events a).

(** Modelled from the spec: the mapping of a raw record of the upstream
    database to the normalized [Vulnerability] in [security-scanner.ts]. *)
Definition toVulnerability (raw : Advisory.t) : Vulnerability :=
  {| id := Advisory.id raw;
     summary := Advisory.summary raw;
     details := Advisory.details raw;
     severity := deriveSeverity raw;
     cvss := Advisory.cvssV3 raw;
     cveIds := filter isCveId (Advisory.aliases raw);
     affectedVersions := flat_map Advisory.versions (Advisory.affected raw);
     fixedVersions := flat_map fixedOf (Advisory.affected raw);
     references := Advisory.references raw;
     publishedAt := Advisory.published raw;
     modifiedAt := Advisory.modified raw |}.

(** *** Aggregation into the [ScanResult] (specification, sections 3 and 4.5) *)

Definition ecosystem_eqb (a b : Ecosystem) : bool :=
  match a, b with
  | npm, npm | PyPI, PyPI | Go, Go | crates_io, crates_io
  | Maven, Maven | Packagist, Packagist | RubyGems, RubyGems | NuGet, NuGet => true
  | _, _ => false
  end.

Definition severity_eqb (a b : Severity) : bool :=
  match a, b with
  | CRITICAL, CRITICAL | HIGH, HIGH | MEDIUM, MEDIUM | LOW, LOW | UNKNOWN, UNKNOWN => true
  | _, _ => false
  end.

(** Modelled from the spec: the identity of a dependency in
    [security-scanner.ts], (name, version, ecosystem, filePath). *)
Definition sameDependency (a b : Dependency) : bool :=
  (name a =? name b)%string && (version a =? version b)%string
  && ecosystem_eqb (ecosystem a) (ecosystem b)
  && (filePath a =? filePath b)%string.

(** Modelled from the spec: the deduplication of the parsed dependencies
    before they are queried; the first occurrence is kept. *)
Fixpoint dedupe (seen found : list Dependency) : list Dependency :=
  match found with
  | [] => []
  | d :: rest =>
      if existsb (sameDependency d) seen then dedupe seen rest
      else d :: dedupe (d :: seen) rest
  end.

(** Modelled from the spec: the running totals of the scan loop of
    [security-scanner.ts]. *)
Record Tally : Type := mkTally {
  vulnerable : Z;
  found : Z;
  counts : Severity -> Z;
  collected : list VulnerabilityReport
}.

Definition emptyTally : Tally :=
  {| vulnerable := 0; found := 0; counts := fun _ => 0; collected := [] |}.

(** Modelled from the spec: one more vulnerability of its severity in the
    per-severity counts of [security-scanner.ts]. *)
Definition count (tallied : Severity -> Z) (v : Vulnerability) : Severity -> Z :=
  fun s => if severity_eqb s (severity v) then tallied s + 1 else tallied s.

(** Modelled from the spec: the accumulation step of the scan loop in
    [security-scanner.ts]: a dependency with matches adds one report and
    raises the counters; one without is left out. *)
Definition tally (matches : Dependency -> list Vulnerability)
    (t : Tally) (d : Dependency) : Tally :=
  match matches d with
  | [] => t
  | _ :: _ =>
      {| vulnerable := vulnerable t + 1;
         found := found t + Z.of_nat (List.length (matches d));
         counts := fold_left count (matches d) (counts t);
         collected := collected t ++ [mkReport d (matches d)] |}
  end.

(** A dependency has matches. *)
Definition matched (matches : Dependency -> list Vulnerability) (d : Dependency) : bool :=
  match matches d with
  | [] => false
  | _ :: _ => true
  end.

(** Modelled from the spec: [SecurityScanner.scan()] of
    [security-scanner.ts].  [discovered] is the outcome of the manifest
    locator and the parsers (a fatal error, or the parsed dependencies),
    [matches] what the query client and the correlator give for a dependency
    (nothing when the upstream gave no data), and [startedAt], [finishedAt]
    the two readings of the clock. *)
Definition scan (project : string) (discovered : Outcome (list Dependency))
    (matches : Dependency -> list Vulnerability) (startedAt finishedAt : Z)
  : Outcome ScanResult :=
  match discovered with
  | Threw fatal => Threw fatal
  | Returned parsed =>
      let dependencies := dedupe [] parsed in
      let t := fold_left (tally matches) dependencies emptyTally in
      Returned {| timestamp := startedAt;
                  projectPath := project;
                  totalDependencies := Z.of_nat (List.length dependencies);
                  vulnerableDependencies := vulnerable t;
                  totalVulnerabilities := found t;
                  severityCounts := counts t;
                  reports := collected t;
                  scanDuration := finishedAt - startedAt |}
  end.

End Scanner.

(* ----------------------------------------------------------------- *)
(** ** Sample data, used to instantiate the theorems *)

Module Samples.
Import JS Tools.

Definition lodash : Dependency :=
  {| name := "lodash"; version := "4.17.0"; ecosystem := npm;
     filePath := "package.json"; lineNumber := None |}.

(** One advisory against [lodash] of the given severity and score. *)
Definition advisory (s : Severity) (score : Q) : Vulnerability :=
  {| id := "GHSA-jf85-cpcp-j695";
     summary := "Prototype Pollution in lodash";
     details := None;
     severity := s;
     cvss := Some score;
     cveIds := ["CVE-2019-10744"];
     affectedVersions := ["4.17.0"];
     fixedVersions := ["4.17.12"];
     references := ["https://github.com/advisories/GHSA-jf85-cpcp-j695"];
     publishedAt := None;
     modifiedAt := None |}.

(** The result of a scan that found exactly one vulnerability, of severity
    [s]: every counter agrees with the single report. *)
Definition oneFinding (s : Severity) (score : Q) : ScanResult :=
  {| timestamp := 1764702000000;
     projectPath := "/path/to/project";
     totalDependencies := 42;
     vulnerableDependencies := 1;
     totalVulnerabilities := 1;
     severityCounts := fun s' => if Scanner.severity_eqb s' s then 1 else 0;
     reports := [mkReport lodash [advisory s score]];
     scanDuration := 12450 |}.

Definition mediumOnly : ScanResult := oneFinding MEDIUM (53 # 10).

Definition highOnly : ScanResult := oneFinding HIGH (75 # 10).

(** A scanner whose scan fulfils with [r], and one whose scan rejects. *)
Definition scanGiving (r : ScanResult) : string -> Outcome ScanResult :=
  fun _ => Returned r.

Definition scanFailing : string -> Outcome ScanResult :=
  fun path => Threw (Error ("Project path does not exist: " ++ path)%string).

Definition plainReport : ScanResult -> string :=
  fun r => ("Project: " ++ projectPath r)%string.

(** *** Scanner inputs *)

Definition express : Dependency :=
  {| name := "express"; version := "^4.18.2"; ecosystem := npm;
     filePath := "package.json"; lineNumber := None |}.

(** An upstream that knows one advisory against [lodash] and nothing else. *)
Definition lodashOnly (d : Dependency) : list Vulnerability :=
  if (name d =? "lodash")%string then [advisory CRITICAL (98 # 10)] else [].

(** *** Git handles *)

(** A handle on a directory that is no repository: every call rejects. *)
Definition notARepository : Git.SimpleGit.t :=
  let fatal := Error "fatal: not a git repository" in
  {| Git.SimpleGit.log := fun _ => Threw fatal;
     Git.SimpleGit.diff := fun _ => Threw fatal;
     Git.SimpleGit.status := Threw fatal;
     Git.SimpleGit.getRemotes := fun _ => Threw fatal;
     Git.SimpleGit.raw := fun _ => Threw fatal |}.

Definition rootCommit : Git.LogEntry :=
  {| Git.hash := "52b3336";
     Git.date := "2025-12-02T19:00:00.000Z";
     Git.message := "Root commit";
     Git.author_name := "Test User";
     Git.author_email := "test@example.com" |}.

(** A repository whose log holds [entries], and in which [diff] rejects (as
    it does for [hash^] of a root commit). *)
Definition repository (entries : list Git.LogEntry) : Git.SimpleGit.t :=
  {| Git.SimpleGit.log := fun _ => Returned {| Git.all := entries |};
     Git.SimpleGit.diff := fun _ => Threw (Error "fatal: bad revision");
     Git.SimpleGit.status := Returned tt;
     Git.SimpleGit.getRemotes := fun _ => Returned [];
     Git.SimpleGit.raw := fun _ => Returned "" |}.

(** *** Knowledge-graph client *)

Definition source (id path : string) (score : Q) : Query.SearchResult.t :=
  {| Query.SearchResult.id := id;
     Query.SearchResult.content := "export const a = 1;";
     Query.SearchResult.score := Query.Num score;
     Query.SearchResult.metadata := Some [("filePath", Query.VString path)] |}.

Definition threeSources : list Query.SearchResult.t :=
  [source "s1" "src/file0.ts" (5 # 10);
   source "s2" "src/file1.ts" (9 # 10);
   source "s3" "src/file2.ts" (7 # 10)].

Definition client : Query.GraphRAGClient.t :=
  {| Query.GraphRAGClient.retrieve := fun _ _ =>
       Returned {| Query.RetrievalResult.content := "Retrieved context";
                   Query.RetrievalResult.sources := Some threeSources |};
     Query.GraphRAGClient.search := fun _ _ => Returned threeSources |}.

Definition limitedTo (n : Z) : Query.QueryOptions :=
  {| Query.limit := Some n; Query.language := None; Query.fileType := None;
     Query.directory := None; Query.includeSnippets := None |}.

(** The first terms of the exponential series, mirrored for negative
    arguments so that the value is positive and grows with [x]. *)
Definition series (x : Q) : Q :=
  if Qle_bool 0 x then (1 + x + x * x / 2)%Q
  else (1 / (1 - x + x * x / 2))%Q.

(** Rational stand-ins for the platform's functions, for evaluating the
    handler on the sample data: no rational is rounded, and strings are left
    as they are. *)
Definition platform : Query.Platform :=
  {| Query.Math_exp := series;
     Query.binary64 := Query.Num;
     Query.parseInt10 := fun _ => None;
     Query.toLowerCase := fun s => s;
     Query.trim := fun s => s;
     Query.matchCodeBlock := fun _ => None |}.

End Samples.

(* ----------------------------------------------------------------- *)
(** ** What the example script writes *)

Module Output.
Import ScanExample.

(** The line was written with [console.warn] or [console.error]. *)
Definition isComplaint (written : Console) : bool :=
  match written with
  | Log _ => false
  | Warn _ | Err _ | ErrWith _ _ => true
  end.

(** The three lines [main] writes before it scans. *)
Definition banner (projectPath : string) : list Console :=
  [Log "🔍 Starting Security Scan...";
   Log ("📁 Project: " ++ projectPath)%string;
   Log ""].

End Output.

(* ----------------------------------------------------------------- *)
(** ** Texts and their lines *)

Module Text.

(** The character [c] occurs in [s]. *)
Fixpoint occurs (c : ascii) (s : string) : Prop :=
  match s with
  | EmptyString => False
  | String a rest => a = c \/ occurs c rest
  end.

(** [pieces.join('\n')] *)
Definition joinLines (pieces : list string) : string :=
  String.concat (String Git.newline EmptyString) pieces.

(** [s.split('\n')] *)
Definition lines (s : string) : list string := Git.split Git.newline s.

End Text.

(* ----------------------------------------------------------------- *)
(** ** What a service call leaves in the log *)

Module Effects.
Import JS.

(** The awaited call rejected. *)
Definition rejected {A} (o : Outcome A) : Prop := exists e, o = Threw e.

(** [m] returns, and the log after it is the log before it followed by one
    record at level [error] with [text] when [failed], and by nothing
    otherwise. *)
Definition logsOnFailure {A} (m : M A) (failed : Prop) (text : string) : Prop :=
  forall log, exists a log',
    m log = (Returned a, log')
    /\ ((~ failed /\ log' = log)
        \/ (failed /\ log' = log ++ [mkLog Lerror text])).

End Effects.

(* ----------------------------------------------------------------- *)
(** ** Conditions on the inputs of the query handler *)

Module Criteria.
Import JS Query.

(** [Math.exp] is positive. *)
Definition positiveExp (P : Platform) : Prop :=
  forall x, (0 < Math_exp P x)%Q.

(** [Math.exp] grows with its argument. *)
Definition growingExp (P : Platform) : Prop :=
  forall x y, (x <= y)%Q -> (Math_exp P x <= Math_exp P y)%Q.

(** The rational [q] is a binary64 number: rounding leaves it as it is. *)
Definition exact (P : Platform) (q : Q) : Prop :=
  atMost (binary64 P q) (Num q) /\ atMost (Num q) (binary64 P q).

(** Rounding to binary64 keeps the order of the rationals, leaves 0, 1 and
    2 as they are, and leaves every finite number it gives as it is. *)
Definition rounds (P : Platform) : Prop :=
  (forall x y, (x <= y)%Q -> atMost (binary64 P x) (binary64 P y))
  /\ exact P 0 /\ exact P 1 /\ exact P 2
  /\ (forall x y, binary64 P x = Num y -> exact P y).

(** What a score may be for the boosts of [calculateRelevance] to be
    followed: a binary64 number that is not negative, or [Infinity]. *)
Definition boostable (P : Platform) (r : Number) : Prop :=
  match r with
  | Num q => (0 <= q)%Q /\ exact P q
  | Infinity => True
  | _ => False
  end.

(** The language recorded in an item's metadata is a string, or missing. *)
Definition languageTyped (r : QueryResultItem) : Prop :=
  match ItemMetadata.language (metadata r) with
  | VUndefined | VNull | VString _ => True
  | _ => False
  end.

(** What the language filter decides for an item whose test returns. *)
Definition languageOk (P : Platform) (targetLang : string) (r : QueryResultItem) : bool :=
  match matchesLanguage P targetLang r with
  | Returned keep => keep
  | Threw _ => false
  end.

(** The three filters of [applyFilters] as one test: each filter that the
    options ask for must keep the item. *)
Definition passes (P : Platform) (options : QueryOptions) (r : QueryResultItem) : bool :=
  match given (language options) with
  | Some l => languageOk P (toLowerCase P l) r
  | None => true
  end
  && match given (fileType options) with
     | Some t => endsWith (filePath r) (if startsWith t "." then t else ("." ++ t)%string)
     | None => true
     end
  && match given (directory options) with
     | Some d => includes (filePath r) (stripSlashes d)
     | None => true
     end.

(** The items [formatResults] builds from [sources], one for each source
    that has a file path, in order. *)
Definition formatted (P : Platform) (sources : list SearchResult.t) (snippets : bool)
  : list QueryResultItem :=
  flat_map (fun source => match formatSource P source snippets with
                          | Some item => [item]
                          | None => []
                          end) sources.

(** The sources [formatResults] skips. *)
Definition skipped (sources : list SearchResult.t) : list SearchResult.t :=
  filter (fun source =>
            match extractFilePath (orDefault (SearchResult.metadata source) []) with
            | Some _ => false
            | None => true
            end) sources.

End Criteria.

(* ----------------------------------------------------------------- *)
(** ** [src/handlers/episodic-memory.ts]: the handlers over git's history *)

Module Episodic.
Import JS Text.
Local Open Scope js_scope.

(** The parts of the platform the handler calls and that are taken as
    given: the successive matches of the hunk pattern
    [/@@ -\d+(?:,\d+)? \+(\d+)(?:,(\d+))? @@/g] in a diff, each as the number
    of its first group and, when the second group is there, the number of
    that one; [parseInt] ([None] for [NaN]); and the decimal text of a
    number in a template. *)
Record Platform : Type := mkPlatform {
  hunks : string -> list (Z * option Z);
  parseInt : string -> option Z;
  show : Z -> string
}.

(** [l.slice(start, end)]: negative indices count from the end. *)
Definition slice {A} (l : list A) (start end_ : Z) : list A :=
  let len := Z.of_nat (List.length l) in
  let from := if start <? 0 then Z.max (len + start) 0 else Z.min start len in
  let final := if end_ <? 0 then Z.max (len + end_) 0 else Z.min end_ len in
  firstn (Z.to_nat (final - from)) (skipn (Z.to_nat from) l).

(** [lines.slice(startLine - 1, endLine).join('\n')], the snippet both
    handlers cut out of a file. *)
Definition snippet (fileContent : string) (startLine endLine : Z) : string :=
  joinLines (slice (lines fileContent) (startLine - 1) endLine).




(** The loop of [extractRelevantDiff]: the lines it keeps, given whether it
    is inside a relevant section. *)
Fixpoint relevantLines (symbol : string) (inRelevantSection : bool)
    (diffLines : list string) : list string :=
  match diffLines with
  | [] => []
  | line :: rest =>
      if Query.startsWith line "@@" then
        line :: relevantLines symbol false rest
      else if Query.includes line symbol then
        line :: relevantLines symbol true rest
      else if inRelevantSection
              && (Query.startsWith line "+" || Query.startsWith line "-") then
        line :: relevantLines symbol inRelevantSection rest
      else if Query.startsWith line "diff --git" then
        relevantLines symbol false rest
      else
        relevantLines symbol inRelevantSection rest
  end.

(** [extractRelevantDiff(diff, symbol)] *)
Definition extractRelevantDiff (diff symbol : string) : string :=
  joinLines (slice (relevantLines symbol false (lines diff)) 0 50).

(** What [getFileDiff] hands to the loop for a commit: git's diff against
    the commit's parent, or the empty text when that call rejects. *)
Definition diffOf (git : Git.SimpleGit.t) (filePath : string) (commit : Git.CommitInfo.t)
  : string :=
  match Git.SimpleGit.diff git
          (Git.fileDiffArgs filePath (Git.CommitInfo.hash commit ++ "^")%string
             (Some (Git.CommitInfo.hash commit))) with
  | Returned text => text
  | Threw _ => ""
  end.

(** The records the loop leaves in the log: one for each commit whose diff
    could not be had. *)
Definition diffFailures (git : Git.SimpleGit.t) (filePath : string)
    (commits : list Git.CommitInfo.t) : list LogRecord :=
  flat_map (fun commit =>
              match Git.SimpleGit.diff git
                      (Git.fileDiffArgs filePath
                         (Git.CommitInfo.hash commit ++ "^")%string
                         (Some (Git.CommitInfo.hash commit))) with
              | Returned _ => []
              | Threw _ => [mkLog Lerror "Failed to get file diff"]
              end) commits.

(** A line [extractRelevantDiff] may keep. *)
Definition relevantLine (symbol line : string) : Prop :=
  Query.startsWith line "@@" = true
  \/ Query.includes line symbol = true
  \/ Query.startsWith line "+" = true
  \/ Query.startsWith line "-" = true.


(** *** Blame *)

(** A [Date] built from a number: the milliseconds since the epoch, or an
    invalid date when the number is [NaN] or out of the range of dates. *)
Inductive Instant : Type := At (ms : Z) | InvalidDate.

(** [new Date(timestamp * 1000)] for the result of [parseInt]. *)
Definition dateOfSeconds (timestamp : option Z) : Instant :=
  match timestamp with
  | Some seconds =>
      if Z.abs (seconds * 1000) <=? 8640000000000000 then At (seconds * 1000)
      else InvalidDate
  | None => InvalidDate
  end.

Module BlameInfo.
Record t : Type := make {
  line : Z;
  commit : string;
  author : string;
  authorEmail : string;
  date : Instant;
  message : string
}.
End BlameInfo.

(** [Partial<BlameInfo>], the header fields read so far. *)
Module PartialBlame.
Record t : Type := make {
  commit : option string;
  author : option string;
  authorEmail : option string;
  date : option Instant;
  message : option string
}.
Definition empty : t := make None None None None None.
End PartialBlame.

(** [/[0-9a-f]/] *)
Definition isHexDigit (c : ascii) : bool :=
  let n := nat_of_ascii c in
  ((48 <=? n)%nat && (n <=? 57)%nat) || ((97 <=? n)%nat && (n <=? 102)%nat).

(** [/^[0-9a-f]{n}/] *)
Fixpoint hexPrefix (n : nat) (s : string) : bool :=
  match n with
  | O => true
  | S n' =>
      match s with
      | EmptyString => false
      | String c rest => isHexDigit c && hexPrefix n' rest
      end
  end.

(** [line.match(/^[0-9a-f]{40}/)] *)
Definition isCommitLine (line : string) : bool := hexPrefix 40 line.

(** [const [hash] = line.split(' ')] *)
Definition firstWord (line : string) : string :=
  hd EmptyString (Git.split " "%char line).

(** [s.substring(n)] *)
Definition from (n : nat) (s : string) : string :=
  substring n (String.length s - n) s.

(** [s.replace(/[<>]/g, '')] *)
Fixpoint stripAngles (s : string) : string :=
  match s with
  | EmptyString => EmptyString
  | String c rest =>
      if (Ascii.eqb c "<" || Ascii.eqb c ">")%bool then stripAngles rest
      else String c (stripAngles rest)
  end.

(** [text || fallback] on a field that may be missing. *)
Definition orText (text : option string) (fallback : string) : string :=
  match text with
  | Some s => if Git.nonEmpty s then s else fallback
  | None => fallback
  end.

Definition tab : string := String "009"%char EmptyString.

(** The variables of the loop of [parseBlameOutput]. *)
Record BlameState : Type := mkBlameState {
  blameInfo : list BlameInfo.t;
  currentBlame : PartialBlame.t;
  lineNumber : Z
}.

(** One turn of the loop of [parseBlameOutput].  [clock n] is what
    [new Date()] reads when the entry of line [n] is pushed. *)
Definition blameStep (E : Platform) (clock : Z -> Instant)
    (state : BlameState) (line : string) : BlameState :=
  let current := currentBlame state in
  let keep (current' : PartialBlame.t) :=
    mkBlameState (blameInfo state) current' (lineNumber state) in
  if isCommitLine line then
    keep (PartialBlame.make (Some (firstWord line))
            (PartialBlame.author current) (PartialBlame.authorEmail current)
            (PartialBlame.date current) (PartialBlame.message current))
  else if Query.startsWith line "author " then
    keep (PartialBlame.make (PartialBlame.commit current)
            (Some (from 7 line)) (PartialBlame.authorEmail current)
            (PartialBlame.date current) (PartialBlame.message current))
  else if Query.startsWith line "author-mail " then
    keep (PartialBlame.make (PartialBlame.commit current)
            (PartialBlame.author current) (Some (stripAngles (from 12 line)))
            (PartialBlame.date current) (PartialBlame.message current))
  else if Query.startsWith line "author-time " then
    keep (PartialBlame.make (PartialBlame.commit current)
            (PartialBlame.author current) (PartialBlame.authorEmail current)
            (Some (dateOfSeconds (parseInt E (from 12 line))))
            (PartialBlame.message current))
  else if Query.startsWith line "summary " then
    keep (PartialBlame.make (PartialBlame.commit current)
            (PartialBlame.author current) (PartialBlame.authorEmail current)
            (PartialBlame.date current) (Some (from 8 line)))
  else if Query.startsWith line tab then
    let number := lineNumber state + 1 in
    match PartialBlame.commit current with
    | Some hash =>
        if Git.nonEmpty hash then
          mkBlameState
            (blameInfo state
             ++ [BlameInfo.make number hash
                   (orText (PartialBlame.author current) "Unknown")
                   (orText (PartialBlame.authorEmail current) "")
                   (orDefault (PartialBlame.date current) (clock number))
                   (orText (PartialBlame.message current) "")])
            PartialBlame.empty number
        else mkBlameState (blameInfo state) current number
    | None => mkBlameState (blameInfo state) current number
    end
  else state.

(** [parseBlameOutput(output)] *)
Definition parseBlameOutput (E : Platform) (clock : Z -> Instant) (output : string)
  : list BlameInfo.t :=
  blameInfo
    (fold_left (blameStep E clock) (lines output)
       (mkBlameState [] PartialBlame.empty 0)).

(** [['blame', '-L', `${startLine},${endLine}`, '--line-porcelain', filePath]] *)
Definition blameArgs (E : Platform) (filePath : string) (startLine endLine : Z)
  : list string :=
  ["blame"; "-L"; (show E startLine ++ "," ++ show E endLine)%string;
   "--line-porcelain"; filePath].

(** [getBlameInfo(filePath, startLine, endLine)]: the handler calls the
    [raw] of the simple-git handle itself, not the one of the service. *)
Definition getBlameInfo (E : Platform) (clock : Z -> Instant) (git : Git.SimpleGit.t)
    (filePath : string) (startLine endLine : Z) : M (list BlameInfo.t) :=
  try_catch
    (blameOutput <- await (Git.SimpleGit.raw git (blameArgs E filePath startLine endLine)) ;;
     ret (parseBlameOutput E clock blameOutput))
    (fun error =>
       logger Lwarn "Failed to get blame info, returning empty" ;;;
       ret []).

(** A commit word: what the loop stores for a line that opens with 40
    hexadecimal digits. *)
Definition commitWord (output word : string) : Prop :=
  exists line,
    In line (lines output) /\ isCommitLine line = true /\ word = firstWord line.

(** The lines of the output that carry code: they open with a tab. *)
Definition codeLines (output : string) : Z :=
  Z.of_nat (List.length (filter (fun line => Query.startsWith line tab) (lines output))).

(** What holds of an entry of the blame of [output] once [upTo] code lines
    were read. *)
Definition blameEntry (output : string) (upTo : Z) (entry : BlameInfo.t) : Prop :=
  1 <= BlameInfo.line entry <= upTo
  /\ commitWord output (BlameInfo.commit entry)
  /\ BlameInfo.author entry <> EmptyString.

(** What the loop of [parseBlameOutput] keeps true of its variables. *)
Definition blameInvariant (output : string) (state : BlameState) : Prop :=
  0 <= lineNumber state
  /\ StronglySorted Z.lt (map BlameInfo.line (blameInfo state))
  /\ Forall (blameEntry output (lineNumber state)) (blameInfo state)
  /\ (forall hash, PartialBlame.commit (currentBlame state) = Some hash ->
                   commitWord output hash).

(** One block of the output of [git blame --line-porcelain], as the parser
    reads it: the commit line, which opens with the hash; the header lines
    ([author], [author-mail], [author-time], [author-tz], the [committer]
    lines, [summary], [previous], [boundary], [filename]), in any order and
    number; and the code line behind its tab. *)
Module Block.
Record t : Type := make {
  hash : string;
  position : string;
  headers : list string;
  code : string
}.
End Block.

Definition blockLines (block : Block.t) : list string :=
  (Block.hash block ++ " " ++ Block.position block)%string
  :: Block.headers block
  ++ [(tab ++ Block.code block)%string].

(** A line no branch of the loop of [parseBlameOutput] reacts to. *)
Definition ignoredLine (line : string) : bool :=
  negb (isCommitLine line
        || Query.startsWith line "author "
        || Query.startsWith line "author-mail "
        || Query.startsWith line "author-time "
        || Query.startsWith line "summary "
        || Query.startsWith line tab).

(** A header line opens neither with 40 hexadecimal digits nor with a tab. *)
Definition headerLine (line : string) : Prop :=
  isCommitLine line = false /\ Query.startsWith line tab = false.

(** The block opens with a hash of 40 hexadecimal digits or more, and its
    lines are header lines that hold no line break. *)
Definition wellFormedBlock (block : Block.t) : Prop :=
  hexPrefix 40 (Block.hash block) = true
  /\ ~ occurs " "%char (Block.hash block)
  /\ Forall (fun line => ~ occurs Git.newline line) (blockLines block)
  /\ Forall headerLine (Block.headers block).

(** What follows [prefix] in the last of the [headers] that opens with it. *)
Fixpoint headerField (prefix : string) (headers : list string) : option string :=
  match headers with
  | [] => None
  | header :: rest =>
      match headerField prefix rest with
      | Some text => Some text
      | None =>
          if Query.startsWith header prefix
          then Some (from (String.length prefix) header)
          else None
      end
  end.

(** The first of two values that is there. *)
Definition orElse {A} (first second : option A) : option A :=
  match first with
  | Some value => Some value
  | None => second
  end.

(** The entry that stands for a block read as code line [number]. *)
Definition blameOf (E : Platform) (clock : Z -> Instant) (number : Z) (block : Block.t)
  : BlameInfo.t :=
  let headers := Block.headers block in
  BlameInfo.make number (Block.hash block)
    (orText (headerField "author " headers) "Unknown")
    (orText (option_map stripAngles (headerField "author-mail " headers)) "")
    (orDefault (option_map (fun text => dateOfSeconds (parseInt E text))
                           (headerField "author-time " headers))
               (clock number))
    (orText (headerField "summary " headers) "").

Fixpoint blamesFrom (E : Platform) (clock : Z -> Instant) (number : Z)
    (blocks : list Block.t) : list BlameInfo.t :=
  match blocks with
  | [] => []
  | block :: rest =>
      blameOf E clock number block :: blamesFrom E clock (number + 1) rest
  end.

(** *** The time line of a symbol *)

(** An entry of [CodeEvolution['history']]. *)
Module EvolutionStep.
Record t : Type := make {
  commit : string;
  author : string;
  date : Git.Date;
  message : string;
  diff : string
}.
End EvolutionStep.

(** The entry [getCodeEvolution] pushes for a commit and its diff. *)
Definition evolutionStep (symbol : string) (commit : Git.CommitInfo.t) (diff : string)
  : EvolutionStep.t :=
  EvolutionStep.make (Git.CommitInfo.hash commit) (Git.CommitInfo.author commit)
    (Git.CommitInfo.date commit) (Git.CommitInfo.message commit)
    (extractRelevantDiff diff symbol).

(** The loop of [getCodeEvolution] that builds the time line from the
    history of the file. *)
Fixpoint timeline (git : Git.SimpleGit.t) (fileHistory : list Git.CommitInfo.t)
    (filePath symbol : string) : M (list EvolutionStep.t) :=
  match fileHistory with
  | [] => ret []
  | commit :: rest =>
      diff <- Git.getFileDiff git filePath
                (Git.CommitInfo.hash commit ++ "^")%string
                (Some (Git.CommitInfo.hash commit)) ;;
      evolution <- timeline git rest filePath symbol ;;
      ret (if Query.includes diff symbol
           then evolutionStep symbol commit diff :: evolution else evolution)
  end.

(** *** The explanation *)

(** The fields of an [ASTNode] that the handler reads. *)
Module ASTNode.
Record t : Type := make {
  type : string;
  name : string;
  startLine : Z;
  endLine : Z
}.
End ASTNode.

Definition NL : string := String Git.newline EmptyString.

Definition fence : string := "```".

(** The template of [queryGraphRAGForExplanation]. *)
Definition explanationQuery (filePath code historicalContext : string) : string :=
  (NL ++ "Explain the following code from " ++ filePath
      ++ " in the context of its development history:" ++ NL
   ++ NL
   ++ fence ++ NL
   ++ code ++ NL
   ++ fence ++ NL
   ++ NL
   ++ "Historical Context:" ++ NL
   ++ historicalContext ++ NL
   ++ NL
   ++ "Please provide:" ++ NL
   ++ "1. What this code does (technical explanation)" ++ NL
   ++ "2. Why it was written this way (based on commit history)" ++ NL
   ++ "3. How it has evolved over time" ++ NL
   ++ "4. Any relevant architectural decisions or patterns" ++ NL)%string.

(** [generateFallbackExplanation(code, historicalContext, nodes)] *)
Definition generateFallbackExplanation (E : Platform) (code historicalContext : string)
    (nodes : list ASTNode.t) : string :=
  joinLines
    (["## Code Explanation"; ""; "### Structure"]
     ++ (match nodes with
         | [] => ["No structured elements detected."]
         | _ :: _ =>
             ("This code contains " ++ show E (Z.of_nat (List.length nodes))
                ++ " main element(s):")%string
             :: map (fun node =>
                       ("- **" ++ ASTNode.type node ++ "**: `" ++ ASTNode.name node
                          ++ "`")%string) nodes
         end)
     ++ [""; "### Historical Context"; historicalContext;
         ""; "### Code Snippet"; fence; code; fence]).

(** [queryGraphRAGForExplanation(filePath, code, historicalContext, nodes)] *)
Definition queryGraphRAGForExplanation (E : Platform) (client : Query.GraphRAGClient.t)
    (filePath code historicalContext : string) (nodes : list ASTNode.t) : M string :=
  try_catch
    (let query := explanationQuery filePath code historicalContext in
     result <- await (Query.GraphRAGClient.retrieve client query "hybrid") ;;
     ret (if Git.nonEmpty (Query.RetrievalResult.content result)
          then Query.RetrievalResult.content result
          else "Unable to generate explanation from GraphRAG."))
    (fun error =>
       logger Lwarn "GraphRAG query failed, using fallback explanation" ;;;
       ret (generateFallbackExplanation E code historicalContext nodes)).

End Episodic.

(* ----------------------------------------------------------------- *)
(** ** More sample data *)

Module Samples2.
Import JS.

(** A knowledge-graph service that cannot be reached. *)
Definition unreachable : Query.GraphRAGClient.t :=
  {| Query.GraphRAGClient.retrieve := fun _ _ => Threw (Error "connect ECONNREFUSED");
     Query.GraphRAGClient.search := fun _ _ => Threw (Error "connect ECONNREFUSED") |}.

(** *** Binary64 *)

(** [a / b] rounded to the nearest integer, ties to even, for positive [a]
    and [b]. *)
Definition roundHalfEven (a b : Z) : Z :=
  let q := a / b in
  let r := a mod b in
  match 2 * r ?= b with
  | Lt => q
  | Gt => q + 1
  | Eq => if Z.even q then q else q + 1
  end.

(** [a / (d * 2 ^ e)], rounded. *)
Definition scaled (a d e : Z) : Z :=
  if 0 <=? e then roundHalfEven a (d * 2 ^ e) else roundHalfEven (a * 2 ^ (- e)) d.

(** The binary64 number nearest to a rational, ties to even: a mantissa of
    53 bits over an exponent of -1074 at least, and an infinity beyond the
    largest number. *)
Definition nearest (q : Q) : Query.Number :=
  let n := Qnum q in
  let d := Z.pos (Qden q) in
  if n =? 0 then Query.Num 0
  else
    let a := Z.abs n in
    let e0 := Z.log2 a - Z.log2 d - 52 in
    let e1 := if scaled a d e0 <? 2 ^ 52 then e0 - 1 else e0 in
    let e := Z.max e1 (-1074) in
    let m := scaled a d e in
    if (0 <=? e) && ((2 ^ 53 - 1) * 2 ^ 971 <? m * 2 ^ e)
    then (if n <? 0 then Query.NegInfinity else Query.Infinity)
    else
      let magnitude :=
        if 0 <=? e then inject_Z (m * 2 ^ e) else (m # Z.to_pos (2 ^ (- e)))%Q in
      Query.Num (if n <? 0 then (- magnitude)%Q else magnitude).

(** The number a kernel float denotes. *)
Definition ofFloat (f : PrimFloat.float) : Query.Number :=
  match FloatOps.Prim2SF f with
  | SpecFloat.S754_zero _ => Query.Num 0
  | SpecFloat.S754_infinity negative =>
      if negative then Query.NegInfinity else Query.Infinity
  | SpecFloat.S754_nan => Query.NaN
  | SpecFloat.S754_finite negative m e =>
      let magnitude :=
        if 0 <=? e then inject_Z (Z.pos m * 2 ^ e)
        else (Z.pos m # Z.to_pos (2 ^ (- e)))%Q in
      Query.Num (if negative then (- magnitude)%Q else magnitude)
  end.

(** Two numbers are the same number. *)
Definition sameNumber (x y : Query.Number) : bool :=
  match x, y with
  | Query.Num a, Query.Num b => Qeq_bool a b
  | Query.Infinity, Query.Infinity | Query.NegInfinity, Query.NegInfinity => true
  | _, _ => false
  end.

(** The platform of the samples, with the rounding of binary64. *)
Definition ieee : Query.Platform :=
  {| Query.Math_exp := Samples.series;
     Query.binary64 := nearest;
     Query.parseInt10 := fun _ => None;
     Query.toLowerCase := fun s => s;
     Query.trim := fun s => s;
     Query.matchCodeBlock := fun _ => None |}.

(** A function scored 0.4 and a plain source scored 0.46: the boost for
    functions brings the first to 0.45999999999999996, just below the
    second. *)
Definition closeSources : list Query.SearchResult.t :=
  [ {| Query.SearchResult.id := "s1";
       Query.SearchResult.content := "function a() {}";
       Query.SearchResult.score := nearest (4 # 10);
       Query.SearchResult.metadata :=
         Some [("filePath", Query.VString "src/a.ts");
               ("type", Query.VString "function")] |};
    {| Query.SearchResult.id := "s2";
       Query.SearchResult.content := "const b = 1;";
       Query.SearchResult.score := nearest (46 # 100);
       Query.SearchResult.metadata := Some [("filePath", Query.VString "src/b.ts")] |} ].

(** Three sources, the second without a usable score. *)
Definition unscoredSources : list Query.SearchResult.t :=
  [ Samples.source "s1" "src/file0.ts" (5 # 10);
    {| Query.SearchResult.id := "s2";
       Query.SearchResult.content := "export const a = 1;";
       Query.SearchResult.score := Query.NaN;
       Query.SearchResult.metadata := Some [("filePath", Query.VString "src/file1.ts")] |};
    Samples.source "s3" "src/file2.ts" (9 # 10) ].

Definition answering (sources : list Query.SearchResult.t) : Query.GraphRAGClient.t :=
  {| Query.GraphRAGClient.retrieve := fun _ _ =>
       Returned {| Query.RetrievalResult.content := "Retrieved context";
                   Query.RetrievalResult.sources := Some sources |};
     Query.GraphRAGClient.search := fun _ _ => Returned sources |}.

(** A stand-in for [parseInt]: the number written by the leading decimal
    digits of a text, [NaN] when it opens with none. *)
Fixpoint leadingDigits (read : option Z) (text : string) : option Z :=
  match text with
  | EmptyString => read
  | String c rest =>
      let n := Z.of_nat (nat_of_ascii c) in
      if (48 <=? n) && (n <=? 57)
      then leadingDigits (Some (10 * orDefault read 0 + (n - 48))) rest
      else read
  end.

(** A stand-in for the decimal text of a number from 0 to 9; other numbers
    are not needed by the samples. *)
Definition digit (n : Z) : string :=
  String (ascii_of_nat (48 + Z.to_nat (n mod 10))) EmptyString.

(** A platform for texts without hunk headers. *)
Definition runtime : Episodic.Platform :=
  {| Episodic.hunks := fun _ => [];
     Episodic.parseInt := leadingDigits None;
     Episodic.show := digit |}.

Definition epoch : Z -> Episodic.Instant := fun _ => Episodic.At 0.

(** Two blocks of a line-porcelain blame, as git prints them; the output
    ends with a line break, so its last line is the empty one. *)
Definition firstBlock : Episodic.Block.t :=
  {| Episodic.Block.hash := "781d71c0ffee00000000000000000000000000aa";
     Episodic.Block.position := "12 12 2";
     Episodic.Block.headers :=
       ["author Ada";
        "author-mail <ada@example.org>";
        "author-time 1700000000";
        "author-tz +0000";
        "committer Grace";
        "committer-mail <grace@example.org>";
        "committer-time 1700000500";
        "committer-tz +0000";
        "summary Add the scanner";
        "filename src/tools/index.ts"];
     Episodic.Block.code := "export * from './security-scanner.js';" |}.

Definition secondBlock : Episodic.Block.t :=
  {| Episodic.Block.hash := "0123456789abcdef0123456789abcdef01234567";
     Episodic.Block.position := "13 13";
     Episodic.Block.headers :=
       ["author Grace";
        "author-mail <grace@example.org>";
        "author-time 1700000500";
        "author-tz +0000";
        "committer Grace";
        "committer-mail <grace@example.org>";
        "committer-time 1700000500";
        "committer-tz +0000";
        "summary Export the types";
        "previous 781d71c0ffee00000000000000000000000000aa src/tools/index.ts";
        "filename src/tools/index.ts"];
     Episodic.Block.code := "export type { ScanResult };" |}.

Definition finalLineBreak : list string := [""].

End Samples2.

(* ================================================================= *)
(** * Part II: the theorems *)
(* ================================================================= *)

(* ----------------------------------------------------------------- *)
(** ** The exit codes of the standalone scan *)

Module ScanExampleFacts.
Import JS Tools ScanExample.

Lemma exitCode_returned scan fmt argv fallback r :
  scan (projectPathOf argv fallback) = Returned r ->
  exitCode scan fmt argv fallback = snd (exitFor r).
Proof.
  intros Hscan. unfold exitCode, main. rewrite Hscan.
  destruct (exitFor r) as [lines code]. reflexivity.
Qed.

Lemma exitCode_threw scan fmt argv fallback e :
  scan (projectPathOf argv fallback) = Threw e ->
  exitCode scan fmt argv fallback = 1.
Proof.
  intros Hscan. unfold exitCode, main. now rewrite Hscan.
Qed.

(** The exit code chosen for a result, by cases on its counters. *)
Lemma exitFor_cases r :
  (0 < totalVulnerabilities r /\ 0 < severityCounts r CRITICAL /\ snd (exitFor r) = 2)
  \/ (0 < totalVulnerabilities r /\ severityCounts r CRITICAL <= 0
      /\ 0 < severityCounts r HIGH /\ snd (exitFor r) = 1)
  \/ (0 < totalVulnerabilities r /\ severityCounts r CRITICAL <= 0
      /\ severityCounts r HIGH <= 0 /\ snd (exitFor r) = 0)
  \/ (totalVulnerabilities r <= 0 /\ snd (exitFor r) = 0).
Proof.
  unfold exitFor.
  destruct (Z.ltb_spec 0 (totalVulnerabilities r)) as [Ht | Ht];
    [ | right; right; right; split; [lia | reflexivity] ].
  destruct (Z.ltb_spec 0 (severityCounts r CRITICAL)) as [Hc | Hc];
    [ left; repeat split; assumption | ].
  destruct (Z.ltb_spec 0 (severityCounts r HIGH)) as [Hh | Hh].
  - right; left. repeat split; assumption.
  - right; right; left. repeat split; assumption.
Qed.

(** C1, as the code has it.  After a scan that fulfils with [r], the process
    exits with 2 exactly when [r] counts a vulnerability and a CRITICAL one,
    with 1 exactly when it counts a vulnerability, no CRITICAL one and a HIGH
    one, and with 0 in every other case: when nothing was found, and also
    when only MEDIUM, LOW or UNKNOWN vulnerabilities were.  So a scan that
    found nothing exits with 0, but exit code 0 does not say that nothing was
    found. *)
Theorem exit_code_by_severity scan fmt argv fallback r :
  scan (projectPathOf argv fallback) = Returned r ->
  let code := exitCode scan fmt argv fallback in
  (code = 2 <-> 0 < totalVulnerabilities r /\ 0 < severityCounts r CRITICAL)
  /\ (code = 1 <-> 0 < totalVulnerabilities r /\ severityCounts r CRITICAL <= 0
                   /\ 0 < severityCounts r HIGH)
  /\ (code = 0 <-> totalVulnerabilities r <= 0
                   \/ (severityCounts r CRITICAL <= 0 /\ severityCounts r HIGH <= 0))
  /\ (totalVulnerabilities r = 0 -> code = 0).
Proof.
  intros Hscan code. subst code.
  rewrite (exitCode_returned _ _ _ _ _ Hscan).
  destruct (exitFor_cases r) as [H | [H | [H | H]]];
    decompose [and] H; clear H;
    match goal with E : snd (exitFor r) = _ |- _ => rewrite E end;
    repeat split; intros; try lia.
Qed.

(** The exit codes at a scan that found one HIGH vulnerability. *)
Lemma exit_code_by_severity_witness :
  let code := exitCode (Samples.scanGiving Samples.highOnly) Samples.plainReport
                       (Some "/path/to/project") "" in
  (code = 2 <-> 0 < totalVulnerabilities Samples.highOnly
                /\ 0 < severityCounts Samples.highOnly CRITICAL)
  /\ (code = 1 <-> 0 < totalVulnerabilities Samples.highOnly
                   /\ severityCounts Samples.highOnly CRITICAL <= 0
                   /\ 0 < severityCounts Samples.highOnly HIGH)
  /\ (code = 0 <-> totalVulnerabilities Samples.highOnly <= 0
                   \/ (severityCounts Samples.highOnly CRITICAL <= 0
                       /\ severityCounts Samples.highOnly HIGH <= 0))
  /\ (totalVulnerabilities Samples.highOnly = 0 -> code = 0).
Proof.
  apply (exit_code_by_severity (Samples.scanGiving Samples.highOnly)
           Samples.plainReport (Some "/path/to/project") "" Samples.highOnly).
  reflexivity.
Defined.

(** C1, as the specification words it, fails: a scan that found one MEDIUM
    vulnerability exits with 0, so exit code 0 does not hold exactly when no
    vulnerability was found. *)
Lemma exit_zero_with_medium_vulnerability :
  let code := exitCode (Samples.scanGiving Samples.mediumOnly) Samples.plainReport
                       (Some "/path/to/project") "" in
  code = 0
  /\ totalVulnerabilities Samples.mediumOnly = 1
  /\ severityCounts Samples.mediumOnly MEDIUM = 1
  /\ ~ (code = 0 <-> totalVulnerabilities Samples.mediumOnly = 0).
Proof.
  cbv zeta. repeat split; try reflexivity.
  intros [H _]. specialize (H eq_refl). discriminate H.
Qed.

(** C8.  A scan that throws makes the process exit with 1, and so does a
    scan that fulfils with a result counting only HIGH vulnerabilities: from
    exit code 1 alone the two cannot be told apart. *)
Theorem failed_scan_exits_like_high_severity scan fmt argv fallback e :
  scan (projectPathOf argv fallback) = Threw e ->
  exitCode scan fmt argv fallback = 1
  /\ exists r,
       0 < totalVulnerabilities r
       /\ severityCounts r CRITICAL = 0
       /\ 0 < severityCounts r HIGH
       /\ exitCode (Samples.scanGiving r) fmt argv fallback
          = exitCode scan fmt argv fallback.
Proof.
  intros Hscan. rewrite (exitCode_threw _ _ _ _ _ Hscan).
  split; [reflexivity | ].
  exists Samples.highOnly. repeat split.
Qed.

(** A scan of a missing project directory, next to a HIGH-only result. *)
Lemma failed_scan_exits_like_high_severity_witness :
  exitCode Samples.scanFailing Samples.plainReport None "/missing" = 1
  /\ exists r,
       0 < totalVulnerabilities r
       /\ severityCounts r CRITICAL = 0
       /\ 0 < severityCounts r HIGH
       /\ exitCode (Samples.scanGiving r) Samples.plainReport None "/missing"
          = exitCode Samples.scanFailing Samples.plainReport None "/missing".
Proof.
  apply (failed_scan_exits_like_high_severity Samples.scanFailing Samples.plainReport
           None "/missing"
           (Error "Project path does not exist: /missing")).
  reflexivity.
Defined.

End ScanExampleFacts.

(* ----------------------------------------------------------------- *)
(** ** The git service swallows git's errors *)

Module GitFacts.
Import JS Git.
Local Open Scope js_scope.

(** A [catch] block that returns makes the whole statement return. *)
Lemma try_catch_never_throws {A} (body : M A) (handler : Exn -> M A) :
  (forall e, neverThrows (handler e)) -> neverThrows (try_catch body handler).
Proof.
  intros Hhandler log. unfold try_catch.
  destruct (body log) as [[a | e] log'].
  - now exists a, log'.
  - apply Hhandler.
Qed.

Lemma log_then_return_never_throws {A} (l : Level) (text : string) (a : A) :
  neverThrows (logger l text ;;; ret a).
Proof.
  intros log. now exists a, (log ++ [mkLog l text]).
Qed.

(** When the awaited call rejects, the handler's value is what comes back. *)
Lemma try_catch_await_threw {A B} (call : Outcome A) (k : A -> M B)
    (l : Level) (text : string) (fallback : B) (e : Exn) :
  call = Threw e ->
  returns (try_catch (x <- await call ;; k x)
                     (fun _ => logger l text ;;; ret fallback))
          fallback.
Proof.
  intros Hcall log. unfold try_catch, bind, await. rewrite Hcall. cbn.
  now exists (log ++ [mkLog l text]).
Qed.

Lemma try_catch_call_threw {A} (call : Outcome A)
    (l : Level) (text : string) (fallback : A) (e : Exn) :
  call = Threw e ->
  returns (try_catch (await call) (fun _ => logger l text ;;; ret fallback)) fallback.
Proof.
  intros Hcall log. unfold try_catch, await. rewrite Hcall. cbn.
  now exists (log ++ [mkLog l text]).
Qed.

Lemma getFileHistory_never_throws git filePath limit :
  neverThrows (getFileHistory git filePath limit).
Proof.
  apply try_catch_never_throws. intros e. apply log_then_return_never_throws.
Qed.

Lemma getRecentCommits_never_throws git limit :
  neverThrows (getRecentCommits git limit).
Proof.
  apply try_catch_never_throws. intros e. apply log_then_return_never_throws.
Qed.

Lemma getFileDiff_never_throws git filePath commit1 commit2 :
  neverThrows (getFileDiff git filePath commit1 commit2).
Proof.
  apply try_catch_never_throws. intros e. apply log_then_return_never_throws.
Qed.

Lemma raw_never_throws git args : neverThrows (raw git args).
Proof.
  apply try_catch_never_throws. intros e. apply log_then_return_never_throws.
Qed.

Lemma getCommitDetails_never_throws git h : neverThrows (getCommitDetails git h).
Proof.
  apply try_catch_never_throws. intros e. apply log_then_return_never_throws.
Qed.

(** The three ways [getCommitDetails] comes to [null]. *)
Lemma getCommitDetails_null git h :
  (forall e, SimpleGit.log git (commitOptions h) = Threw e ->
             returns (getCommitDetails git h) None)
  /\ (forall history,
        SimpleGit.log git (commitOptions h) = Returned history ->
        all history = [] ->
        returns (getCommitDetails git h) None)
  /\ (forall history e,
        SimpleGit.log git (commitOptions h) = Returned history ->
        SimpleGit.diff git (commitDiffArgs h) = Threw e ->
        returns (getCommitDetails git h) None).
Proof.
  repeat split.
  - intros e Hlog. unfold getCommitDetails.
    now apply try_catch_await_threw with (e := e).
  - intros history Hlog Hall log.
    unfold getCommitDetails, try_catch, bind, await. rewrite Hlog, Hall. cbn.
    now exists log.
  - intros history e Hlog Hdiff log.
    unfold getCommitDetails, try_catch, bind, await. rewrite Hlog.
    destruct (all history) as [ | entry rest]; cbn.
    + now exists log.
    + rewrite Hdiff. cbn. now exists (log ++ [mkLog Lerror "Failed to get commit details"]).
Qed.

(** C9.  No read accessor of the git service throws to its caller, and each
    answers a failing git call with its neutral value: [getFileHistory] and
    [getRecentCommits] with the empty list, [getFileDiff] and [raw] with the
    empty string, and [getCommitDetails] with [null], which it also returns
    when the log holds no such commit. *)
Theorem git_accessors_swallow_errors (git : SimpleGit.t) :
  (forall filePath limit,
      neverThrows (getFileHistory git filePath limit)
      /\ forall e, SimpleGit.log git (fileHistoryOptions filePath limit) = Threw e ->
                   returns (getFileHistory git filePath limit) [])
  /\ (forall limit,
        neverThrows (getRecentCommits git limit)
        /\ forall e, SimpleGit.log git (recentOptions limit) = Threw e ->
                     returns (getRecentCommits git limit) [])
  /\ (forall filePath commit1 commit2,
        neverThrows (getFileDiff git filePath commit1 commit2)
        /\ forall e, SimpleGit.diff git (fileDiffArgs filePath commit1 commit2) = Threw e ->
                     returns (getFileDiff git filePath commit1 commit2) "")
  /\ (forall args,
        neverThrows (raw git args)
        /\ forall e, SimpleGit.raw git args = Threw e -> returns (raw git args) "")
  /\ (forall h,
        neverThrows (getCommitDetails git h)
        /\ (forall e, SimpleGit.log git (commitOptions h) = Threw e ->
                      returns (getCommitDetails git h) None)
        /\ (forall history,
              SimpleGit.log git (commitOptions h) = Returned history ->
              all history = [] ->
              returns (getCommitDetails git h) None)
        /\ (forall history e,
              SimpleGit.log git (commitOptions h) = Returned history ->
              SimpleGit.diff git (commitDiffArgs h) = Threw e ->
              returns (getCommitDetails git h) None)).
Proof.
  split; [ | split; [ | split; [ | split ] ] ].
  - intros filePath limit. split; [apply getFileHistory_never_throws | ].
    intros e Hlog. unfold getFileHistory. now apply try_catch_await_threw with (e := e).
  - intros limit. split; [apply getRecentCommits_never_throws | ].
    intros e Hlog. unfold getRecentCommits. now apply try_catch_await_threw with (e := e).
  - intros filePath commit1 commit2. split; [apply getFileDiff_never_throws | ].
    intros e Hdiff. unfold getFileDiff. now apply try_catch_call_threw with (e := e).
  - intros args. split; [apply raw_never_throws | ].
    intros e Hraw. unfold raw. now apply try_catch_call_threw with (e := e).
  - intros h. split; [apply getCommitDetails_never_throws | apply getCommitDetails_null].
Qed.

(** The accessors on a handle whose every call rejects, on an empty log, and
    on a root commit (whose [diff] against [hash^] rejects). *)
Lemma git_accessors_swallow_errors_witness :
  returns (getFileHistory Samples.notARepository "file1.ts" None) []
  /\ returns (getRecentCommits Samples.notARepository (Some 5)) []
  /\ returns (getFileDiff Samples.notARepository "file1.ts" "52b3336" None) ""
  /\ returns (raw Samples.notARepository ["status"]) ""
  /\ returns (getCommitDetails Samples.notARepository "52b3336") None
  /\ returns (getCommitDetails (Samples.repository []) "0000000") None
  /\ returns (getCommitDetails (Samples.repository [Samples.rootCommit]) "52b3336") None.
Proof.
  pose proof (git_accessors_swallow_errors Samples.notARepository)
    as [Hhistory [Hrecent [Hdiff [Hraw Hdetails]]]].
  pose proof (git_accessors_swallow_errors (Samples.repository []))
    as [_ [_ [_ [_ Hempty]]]].
  pose proof (git_accessors_swallow_errors (Samples.repository [Samples.rootCommit]))
    as [_ [_ [_ [_ Hroot]]]].
  repeat split.
  - exact (proj2 (Hhistory "file1.ts" None) _ eq_refl).
  - exact (proj2 (Hrecent (Some 5)) _ eq_refl).
  - exact (proj2 (Hdiff "file1.ts" "52b3336" None) _ eq_refl).
  - exact (proj2 (Hraw ["status"]) _ eq_refl).
  - exact (proj1 (proj2 (Hdetails "52b3336")) _ eq_refl).
  - exact (proj1 (proj2 (proj2 (Hempty "0000000"))) _ eq_refl eq_refl).
  - exact (proj2 (proj2 (proj2 (Hroot "52b3336"))) _ _ eq_refl eq_refl).
Defined.

(** The accessors evaluated on the sample handles. *)
Example getFileHistory_not_a_repository :
  run (getFileHistory Samples.notARepository "file1.ts" None)
  = (Returned [], [mkLog Lerror "Failed to get file history"]).
Proof. reflexivity. Qed.

Example getCommitDetails_root_commit :
  run (getCommitDetails (Samples.repository [Samples.rootCommit]) "52b3336")
  = (Returned None, [mkLog Lerror "Failed to get commit details"]).
Proof. reflexivity. Qed.

Example getRecentCommits_one_commit :
  result (getRecentCommits (Samples.repository [Samples.rootCommit]) None)
  = Returned [toCommitInfo [] Samples.rootCommit].
Proof. reflexivity. Qed.

End GitFacts.

(* ----------------------------------------------------------------- *)
(** ** The ranking and the limit of [query] *)
Module QueryFacts.
Import JS Query.
Local Open Scope js_scope.

(** *** Numbers *)

Lemma isFinite_Num x : isFinite x = true -> exists q, x = Num q.
Proof. destruct x; try discriminate. intros _. now eexists. Qed.

Lemma atMost_trans x y z : atMost x y -> atMost y z -> atMost x z.
Proof.
  destruct x, y, z; cbn; try tauto. intros Hxy Hyz. lra.
Qed.

(** *** Sorting by a key, largest first *)

Section Descending.
Variable A : Type.
Variable key : A -> Number.
Variable compare : A -> A -> Number.
Hypothesis compare_key : forall a b, compare a b = minus (key b) (key a).

Lemma compare_le_iff a b :
  isFinite (key a) = true -> isFinite (key b) = true ->
  notPositive (compare a b) = true <-> notBelow key a b.
Proof.
  intros Ha Hb. unfold notBelow. rewrite compare_key.
  destruct (isFinite_Num _ Ha) as [qa ->], (isFinite_Num _ Hb) as [qb ->]. cbn.
  rewrite Qle_bool_iff. split; intros H; lra.
Qed.

Lemma insertSorted_Forall (P : A -> Prop) x l :
  P x -> Forall P l -> Forall P (insertSorted compare x l).
Proof.
  intros Hx Hl. induction Hl as [ | y rest Hy Hrest IH]; cbn.
  - now constructor.
  - destruct (notPositive (compare x y)); repeat constructor; assumption.
Qed.

Lemma sort_Forall (P : A -> Prop) l : Forall P l -> Forall P (sort compare l).
Proof.
  induction 1 as [ | x rest Hx Hrest IH]; cbn; [constructor | ].
  now apply insertSorted_Forall.
Qed.

Lemma insertSorted_sorted x l :
  isFinite (key x) = true ->
  Forall (fun y => isFinite (key y) = true) l ->
  StronglySorted (notBelow key) l ->
  StronglySorted (notBelow key) (insertSorted compare x l).
Proof.
  intros Hx Hfinite Hl. induction Hl as [ | y rest Hrest IH Hy]; cbn.
  - repeat constructor.
  - inversion Hfinite as [ | ? ? Hfy Hfrest]; subst.
    destruct (notPositive (compare x y)) eqn:Hcmp.
    + apply compare_le_iff in Hcmp; [ | assumption | assumption].
      constructor; [now constructor | ].
      constructor; [exact Hcmp | ].
      eapply Forall_impl; [ | exact Hy].
      intros z Hz. unfold notBelow in *. eapply atMost_trans; eassumption.
    + constructor; [now apply IH | ].
      apply insertSorted_Forall; [ | exact Hy].
      unfold notBelow.
      destruct (isFinite_Num _ Hx) as [qx Ex], (isFinite_Num _ Hfy) as [qy Ey].
      rewrite compare_key, Ex, Ey in Hcmp. rewrite Ex, Ey. cbn in *.
      destruct (Qlt_le_dec qy qx) as [Hlt | Hle]; [ | exact Hle].
      assert (Hdiff : Qle_bool (qy - qx) 0 = true) by (apply Qle_bool_iff; lra).
      congruence.
Qed.

(** A sort by [key], largest first, leaves no element before a larger one,
    when every key is a finite number. *)
Lemma sort_sorted l :
  Forall (fun y => isFinite (key y) = true) l ->
  StronglySorted (notBelow key) (sort compare l).
Proof.
  induction 1 as [ | x rest Hx Hrest IH]; cbn.
  - constructor.
  - apply insertSorted_sorted; [exact Hx | now apply sort_Forall | exact IH].
Qed.

End Descending.

(** *** Arrays *)

Lemma insertSorted_length {A} (compare : A -> A -> Number) x l :
  List.length (insertSorted compare x l) = S (List.length l).
Proof.
  induction l as [ | y rest IH]; cbn; [reflexivity | ].
  destruct (notPositive (compare x y)); cbn; [reflexivity | now rewrite IH].
Qed.

Lemma sort_length {A} (compare : A -> A -> Number) l :
  List.length (sort compare l) = List.length l.
Proof.
  induction l as [ | x rest IH]; cbn; [reflexivity | ].
  now rewrite insertSorted_length, IH.
Qed.

(** The length of [l.slice(0, end)], by the sign of [end]. *)
Lemma slice0_length {A} (l : list A) (end_ : Z) :
  Z.of_nat (List.length (slice0 l end_)) =
  if end_ <? 0 then Z.max (Z.of_nat (List.length l) + end_) 0
  else Z.min end_ (Z.of_nat (List.length l)).
Proof.
  unfold slice0. rewrite length_firstn.
  destruct (Z.ltb_spec end_ 0); lia.
Qed.

Lemma slice0_length_le {A} (l : list A) (end_ : Z) :
  Z.of_nat (List.length (slice0 l end_)) <= Z.of_nat (List.length l).
Proof.
  rewrite slice0_length. destruct (Z.ltb_spec end_ 0); lia.
Qed.

Lemma slice0_length_limit {A} (l : list A) (end_ : Z) :
  0 <= end_ -> Z.of_nat (List.length (slice0 l end_)) <= end_.
Proof.
  intros Hend. rewrite slice0_length. destruct (Z.ltb_spec end_ 0); lia.
Qed.

Lemma firstn_Forall {A} (P : A -> Prop) n l :
  Forall P l -> Forall P (firstn n l).
Proof.
  intros Hl. revert n. induction Hl as [ | x rest Hx Hrest IH]; intros [ | n]; cbn;
    constructor; auto.
Qed.

Lemma firstn_sorted {A} (R : A -> A -> Prop) n l :
  StronglySorted R l -> StronglySorted R (firstn n l).
Proof.
  intros Hl. revert n. induction Hl as [ | x rest Hrest IH Hx]; intros [ | n]; cbn;
    try constructor.
  - apply IH.
  - now apply firstn_Forall.
Qed.

(** *** What the items are built from *)

(** The confidence of a score that is not [NaN] is a finite number. *)
Lemma calculateConfidence_finite P score :
  score <> NaN -> isFinite (calculateConfidence P score) = true.
Proof.
  intros Hscore. unfold calculateConfidence, clamp01.
  destruct score; cbn; try reflexivity. contradiction.
Qed.

(** What holds of every item built from one of the sources holds of the
    items [formatResults] returns. *)
Lemma formatResults_Forall (holds : QueryResultItem -> Prop) P sources options snippets :
  (forall source item,
      In source sources -> formatSource P source snippets = Some item -> holds item) ->
  forall log items log',
    formatResults P sources options snippets log = (Returned items, log') ->
    Forall holds items.
Proof.
  induction sources as [ | source rest IH]; intros Hall log items log'; cbn.
  - unfold ret. intros [= <- _]. constructor.
  - destruct (formatSource P source snippets) as [item | ] eqn:Hitem.
    + unfold bind, ret.
      destruct (formatResults P rest options snippets log) as [[items' | e] log1] eqn:Hrest;
        [ | discriminate].
      intros [= <- _]. constructor.
      * apply (Hall source item); [now left | exact Hitem].
      * eapply IH; [ | exact Hrest]. intros s i Hs. apply Hall. now right.
    + unfold bind, logger. apply IH. intros s i Hs. apply Hall. now right.
Qed.

Lemma filterThrowing_Forall {A} (holds : A -> Prop) (test : A -> Outcome bool) l kept :
  filterThrowing test l = Returned kept -> Forall holds l -> Forall holds kept.
Proof.
  revert kept. induction l as [ | x rest IH]; intros kept; cbn.
  - intros [= <-] _. constructor.
  - destruct (test x) as [keep | e]; [ | discriminate].
    destruct (filterThrowing test rest) as [kept' | e]; [ | discriminate].
    intros [= <-] Hall. inversion Hall as [ | ? ? Hx Hrest]; subst.
    destruct keep; [constructor; [exact Hx | ] | ]; now apply IH.
Qed.

Lemma filter_Forall {A} (holds : A -> Prop) (test : A -> bool) l :
  Forall holds l -> Forall holds (filter test l).
Proof.
  induction 1 as [ | x rest Hx Hrest IH]; cbn; [constructor | ].
  destruct (test x); [now constructor | exact IH].
Qed.

(** [applyFilters] only removes items. *)
Lemma applyFilters_Forall (holds : QueryResultItem -> Prop) P results options kept :
  applyFilters P results options = Returned kept ->
  Forall holds results -> Forall holds kept.
Proof.
  unfold applyFilters. intros Hkept Hall.
  assert (Hfirst : forall filtered,
             match given (language options) with
             | Some l => filterThrowing (matchesLanguage P (toLowerCase P l)) results
             | None => Returned results
             end = Returned filtered -> Forall holds filtered).
  { intros filtered. destruct (given (language options)).
    - intros H. now apply (filterThrowing_Forall holds _ _ _ H).
    - now intros [= <-]. }
  destruct (match given (language options) with
            | Some l => _
            | None => _
            end) as [filtered | e]; [ | discriminate].
  specialize (Hfirst filtered eq_refl). injection Hkept as <-.
  destruct (given (fileType options)), (given (directory options));
    repeat apply filter_Forall; exact Hfirst.
Qed.

(** *** [query] *)

(** What a fulfilled [query] returned: the filtered results, sorted and cut;
    each of them was built from one of the retrieved sources. *)
Lemma query_returned client P question options startTime finishTime log resp log' :
  query client P question options startTime finishTime log = (Returned resp, log') ->
  exists retrieval filteredResults,
    GraphRAGClient.retrieve client (buildEnhancedQuery question options) "hybrid"
    = Returned retrieval
    /\ QueryResponse.results resp
       = slice0 (sort byConfidence filteredResults) (orDefault (limit options) 20)
    /\ QueryResponse.totalResults resp = Z.of_nat (List.length filteredResults)
    /\ Forall (fun item =>
                 exists source,
                   In source (orDefault (RetrievalResult.sources retrieval) [])
                   /\ confidence item = calculateConfidence P (SearchResult.score source))
              filteredResults.
Proof.
  unfold query, try_catch, bind, await, call, logger, ret, throw.
  destruct (GraphRAGClient.retrieve client _ _) as [retrieval | e]; [ | discriminate].
  destruct (formatResults P _ options _ _) as [[formatted | e] log1] eqn:Hformat;
    [ | discriminate].
  destruct (applyFilters P formatted options) as [filtered | e] eqn:Hfilter;
    [ | discriminate].
  intros Hret. injection Hret as Hresp _. subst resp. cbn.
  exists retrieval, filtered. repeat split.
  apply (applyFilters_Forall _ _ _ _ _ Hfilter).
  eapply formatResults_Forall; [ | exact Hformat].
  intros source item Hin Hitem. exists source. split; [exact Hin | ].
  unfold formatSource in Hitem. destruct (extractFilePath _); [ | discriminate].
  now injection Hitem as <-.
Qed.

(** C10, as the code has it.  A fulfilled [query] reports a [totalResults]
    no smaller than the number of its results, and that number is at most
    the limit (20 when none is given) whenever the limit is not negative.
    When no retrieved source has the score [NaN], the results are sorted by
    confidence, largest first; a score that is [NaN] gives the confidence
    [NaN], on which the comparator of the sort answers [NaN], and the order
    of the results is then no longer one by confidence. *)
Theorem query_results_ranked_and_limited
    client P question options startTime finishTime log resp log' :
  query client P question options startTime finishTime log = (Returned resp, log') ->
  (0 <= orDefault (limit options) 20 ->
   Z.of_nat (List.length (QueryResponse.results resp)) <= orDefault (limit options) 20)
  /\ ((forall retrieval,
         GraphRAGClient.retrieve client (buildEnhancedQuery question options) "hybrid"
         = Returned retrieval ->
         scored (orDefault (RetrievalResult.sources retrieval) [])) ->
      StronglySorted ranked (QueryResponse.results resp))
  /\ Z.of_nat (List.length (QueryResponse.results resp))
     <= QueryResponse.totalResults resp.
Proof.
  intros Hquery.
  destruct (query_returned _ _ _ _ _ _ _ _ _ Hquery)
    as (retrieval & filtered & Hretrieve & Hresults & Htotal & Hbuilt).
  rewrite Hresults, Htotal. repeat split.
  - apply slice0_length_limit.
  - intros Hscored. specialize (Hscored retrieval Hretrieve).
    unfold slice0. apply firstn_sorted.
    apply (sort_sorted QueryResultItem confidence byConfidence); [reflexivity | ].
    eapply Forall_impl; [ | exact Hbuilt].
    intros item (source & Hin & ->). apply calculateConfidence_finite.
    unfold scored in Hscored. rewrite Forall_forall in Hscored. now apply Hscored.
  - etransitivity; [apply slice0_length_le | ].
    rewrite sort_length. lia.
Qed.

(** The scores of the three sample sources are numbers. *)
Lemma threeSources_scored : scored Samples.threeSources.
Proof. repeat constructor; discriminate. Qed.

(** [query] on the three sample sources with a limit of two. *)
Lemma query_results_ranked_and_limited_witness :
  exists resp log',
    query Samples.client Samples.platform "where is a defined"
          (Samples.limitedTo 2) 1000 1012 [] = (Returned resp, log')
    /\ (0 <= 2 -> Z.of_nat (List.length (QueryResponse.results resp)) <= 2)
    /\ StronglySorted ranked (QueryResponse.results resp)
    /\ Z.of_nat (List.length (QueryResponse.results resp))
       <= QueryResponse.totalResults resp.
Proof.
  eexists. eexists. split.
  - vm_compute. reflexivity.
  - destruct (query_results_ranked_and_limited Samples.client Samples.platform
                "where is a defined" (Samples.limitedTo 2) 1000 1012 [] _ _ eq_refl)
      as (Hlimit & Hsorted & Htotal).
    split; [exact Hlimit | ]. split; [ | exact Htotal].
    apply Hsorted. intros retrieval [= <-]. exact threeSources_scored.
Defined.

(** C10, as the claim words it, fails for a negative limit: [slice(0, -1)]
    drops the last entry only, so on three sources [query] with [limit: -1]
    returns two results, more than the limit, whatever the platform
    computes. *)
Lemma query_exceeds_negative_limit :
  exists client options,
    limit options = Some (-1)
    /\ forall P question startTime finishTime,
         exists resp,
           result (query client P question options startTime finishTime) = Returned resp
           /\ Z.of_nat (List.length (QueryResponse.results resp)) = 2
           /\ ~ (Z.of_nat (List.length (QueryResponse.results resp))
                 <= orDefault (limit options) 20).
Proof.
  exists Samples.client, (Samples.limitedTo (-1)). split; [reflexivity | ].
  intros P question startTime finishTime.
  eexists. split.
  - unfold result, run, query, try_catch, bind, await, call, logger, ret.
    cbn -[slice0 sort maxOf]. reflexivity.
  - cbn [QueryResponse.results]. rewrite slice0_length, sort_length. cbn. lia.
Qed.

(** The sample query, evaluated. *)
Example query_two_of_three :
  match result (query Samples.client Samples.platform "where is a defined"
                      (Samples.limitedTo 2) 1000 1012) with
  | Returned resp =>
      map id (QueryResponse.results resp) = ["s2"; "s3"]
      /\ map confidence (QueryResponse.results resp)
         = [Num (9286 # 100); Num (8333 # 100)]
      /\ QueryResponse.totalResults resp = 3
      /\ QueryResponse.maxConfidence resp = Num (9286 # 100)
      /\ QueryResponse.executionTime resp = 12
  | Threw _ => False
  end.
Proof. vm_compute. repeat split. Qed.

End QueryFacts.

(* ----------------------------------------------------------------- *)
(** ** The scanner, as specified *)

Module ScannerFacts.
Import JS Tools Scanner.

(** *** Version normalization *)

(** A digit is none of the characters of the range operators, nor [v]. *)
Lemma digit_differs (other c : ascii) :
  isDigit c = true -> isDigit other = false -> Ascii.eqb other c = false.
Proof.
  intros Hc Hother. destruct (Ascii.eqb_spec other c) as [Heq | Hne]; [ | reflexivity].
  subst. congruence.
Qed.

(** Decides the comparisons of characters met while an operator is matched
    against a text whose first character [c] is a digit. *)
Ltac compare_characters c Hc Hv :=
  cbn -[Ascii.eqb];
  repeat (match goal with
          | |- context [Ascii.eqb ?a c] => rewrite (digit_differs a c Hc) by reflexivity
          | |- context [Ascii.eqb c ?b] => rewrite Hv
          | |- context [Ascii.eqb ?a ?b] =>
              let v := eval vm_compute in (Ascii.eqb a b) in
              change (Ascii.eqb a b) with v
          end; cbn -[Ascii.eqb]).

Lemma normalizeVersion_bare c rest :
  isDigit c = true -> normalizeVersion (String c rest) = String c rest.
Proof.
  intros Hc.
  assert (Hv : Ascii.eqb c "v" = false)
    by (rewrite Ascii.eqb_sym; now apply digit_differs).
  unfold normalizeVersion, rangeOperators, stripLeadingV.
  compare_characters c Hc Hv; reflexivity.
Qed.

(** An operator put before a version that starts with a digit is taken off
    again, and so is a leading [v]. *)
Lemma normalizeVersion_prefixed c rest :
  isDigit c = true ->
  let bound := String c rest in
  normalizeVersion ("^" ++ bound) = bound
  /\ normalizeVersion ("~" ++ bound) = bound
  /\ normalizeVersion (">=" ++ bound) = bound
  /\ normalizeVersion ("<=" ++ bound) = bound
  /\ normalizeVersion ("~>" ++ bound) = bound
  /\ normalizeVersion ("v" ++ bound) = bound.
Proof.
  intros Hc bound. subst bound.
  assert (Hv : Ascii.eqb c "v" = false)
    by (rewrite Ascii.eqb_sym; now apply digit_differs).
  unfold normalizeVersion, rangeOperators, stripLeadingV.
  repeat split; compare_characters c Hc Hv; reflexivity.
Qed.

Lemma dotted_starts_with_digit X Y Z :
  isNumeral X = true ->
  exists c rest, isDigit c = true /\ dotted X Y Z = String c rest.
Proof.
  destruct X as [ | c X']; cbn; [discriminate | ].
  intros H. apply andb_true_iff in H as [Hc _].
  now exists c, (X' ++ "." ++ Y ++ "." ++ Z)%string.
Qed.

(** C6.  For numerals X, Y and Z, the normalizer returns [X.Y.Z] for each of
    [^X.Y.Z], [~X.Y.Z], [>=X.Y.Z] and [vX.Y.Z], and also for [<=X.Y.Z],
    [~>X.Y.Z] and for [X.Y.Z] itself. *)
Theorem normalizeVersion_strips_range_operators X Y Z :
  isNumeral X = true -> isNumeral Y = true -> isNumeral Z = true ->
  normalizeVersion ("^" ++ dotted X Y Z) = dotted X Y Z
  /\ normalizeVersion ("~" ++ dotted X Y Z) = dotted X Y Z
  /\ normalizeVersion (">=" ++ dotted X Y Z) = dotted X Y Z
  /\ normalizeVersion ("v" ++ dotted X Y Z) = dotted X Y Z
  /\ normalizeVersion ("<=" ++ dotted X Y Z) = dotted X Y Z
  /\ normalizeVersion ("~>" ++ dotted X Y Z) = dotted X Y Z
  /\ normalizeVersion (dotted X Y Z) = dotted X Y Z.
Proof.
  intros HX _ _.
  destruct (dotted_starts_with_digit X Y Z HX) as [c [rest [Hc Heq]]].
  rewrite Heq.
  destruct (normalizeVersion_prefixed c rest Hc) as [H1 [H2 [H3 [H4 [H5 H6]]]]].
  repeat split; try assumption.
  now apply normalizeVersion_bare.
Qed.

(** The versions of the specification's examples. *)
Lemma normalizeVersion_strips_range_operators_witness :
  normalizeVersion "^1.2.3" = "1.2.3"
  /\ normalizeVersion "~1.2.3" = "1.2.3"
  /\ normalizeVersion ">=1.2.3" = "1.2.3"
  /\ normalizeVersion "v1.2.3" = "1.2.3"
  /\ normalizeVersion "<=1.2.3" = "1.2.3"
  /\ normalizeVersion "~>1.2.3" = "1.2.3"
  /\ normalizeVersion "1.2.3" = "1.2.3".
Proof.
  apply (normalizeVersion_strips_range_operators "1" "2" "3"); reflexivity.
Defined.

(** *** Severity *)

Lemma Qle_bool_false a b : Qle_bool a b = false <-> (b < a)%Q.
Proof.
  split; intros H.
  - apply Qnot_le_lt. intros Hle. apply Qle_bool_iff in Hle. congruence.
  - destruct (Qle_bool a b) eqn:E; [ | reflexivity].
    apply Qle_bool_iff in E. apply Qlt_not_le in H. contradiction.
Qed.

(** C3.  The severity of a raw record is a function of its CVSS v3 base
    score alone: CRITICAL exactly from 9.0 on, HIGH from 7.0 up to 9.0, MEDIUM
    from 4.0 up to 7.0, LOW above 0 up to 4.0, and UNKNOWN when the record has
    no score (or one that is not above 0); so 9.8 is CRITICAL, 7.0 HIGH, 4.0
    MEDIUM and 0.1 LOW. *)
Theorem severity_follows_cvss_buckets :
  (forall raw, deriveSeverity raw = severityOf (Advisory.cvssV3 raw))
  /\ (forall score : Q,
        (severityOf (Some score) = CRITICAL <-> 9 <= score)
        /\ (severityOf (Some score) = HIGH <-> 7 <= score /\ score < 9)
        /\ (severityOf (Some score) = MEDIUM <-> 4 <= score /\ score < 7)
        /\ (severityOf (Some score) = LOW <-> 0 < score /\ score < 4)
        /\ (severityOf (Some score) = UNKNOWN <-> score <= 0))%Q
  /\ severityOf None = UNKNOWN
  /\ severityOf (Some (98 # 10)) = CRITICAL
  /\ severityOf (Some 7%Q) = HIGH
  /\ severityOf (Some 4%Q) = MEDIUM
  /\ severityOf (Some (1 # 10)) = LOW.
Proof.
  split; [reflexivity | ].
  split; [ | repeat split].
  intros score. unfold severityOf.
  destruct (Qle_bool 9 score) eqn:H9;
    [ apply Qle_bool_iff in H9 | apply Qle_bool_false in H9 ].
  { repeat split; intros; try discriminate; try lra. }
  destruct (Qle_bool 7 score) eqn:H7;
    [ apply Qle_bool_iff in H7 | apply Qle_bool_false in H7 ].
  { repeat split; intros; try discriminate; try lra. }
  destruct (Qle_bool 4 score) eqn:H4;
    [ apply Qle_bool_iff in H4 | apply Qle_bool_false in H4 ].
  { repeat split; intros; try discriminate; try lra. }
  destruct (Qle_bool score 0) eqn:H0;
    [ apply Qle_bool_iff in H0 | apply Qle_bool_false in H0 ]; cbn.
  { repeat split; intros; try discriminate; try lra. }
  { repeat split; intros; try discriminate; try lra. }
Qed.


(** *** Aggregation *)

(** What the scan loop has accumulated after a run of dependencies: one
    report, in order, for each dependency with matches, and a counter raised
    once for each of them. *)
Lemma tally_fold matches dependencies t :
  let t' := fold_left (tally matches) dependencies t in
  collected t'
  = collected t
    ++ map (fun d => mkReport d (matches d)) (filter (matched matches) dependencies)
  /\ vulnerable t'
     = vulnerable t
       + Z.of_nat (List.length (filter (matched matches) dependencies)).
Proof.
  revert t. induction dependencies as [ | d rest IH]; intros t; cbn.
  - rewrite app_nil_r. split; [reflexivity | lia].
  - destruct (IH (tally matches t d)) as [Hreports Hcount].
    rewrite Hreports, Hcount. clear IH Hreports Hcount.
    unfold tally, matched. destruct (matches d) as [ | v vs] eqn:Hd; cbn.
    + split; reflexivity.
    + rewrite <- app_assoc. cbn. rewrite Hd. split; [reflexivity | lia].
Qed.

(** C2.  In every result of [scan], [vulnerableDependencies] is the number
    of entries of [reports]; the reports are, in order, those of the scanned
    dependencies that have at least one match, each with its matches, so
    that a dependency without matches has no report. *)
Theorem scan_counts_one_report_per_vulnerable_dependency
    project discovered matches startedAt finishedAt r :
  scan project discovered matches startedAt finishedAt = Returned r ->
  vulnerableDependencies r = Z.of_nat (List.length (reports r))
  /\ Forall (fun report => vulnerabilities report <> []
                           /\ vulnerabilities report = matches (dependency report))
            (reports r)
  /\ (forall d, matches d = [] -> ~ In d (map dependency (reports r)))
  /\ exists parsed,
       discovered = Returned parsed
       /\ map dependency (reports r) = filter (matched matches) (dedupe [] parsed).
Proof.
  unfold scan. destruct discovered as [parsed | fatal]; [ | discriminate].
  intros Hr. injection Hr as Hr. subst r. cbn.
  destruct (tally_fold matches (dedupe [] parsed) emptyTally) as [Hreports Hcount].
  cbn in Hreports, Hcount. rewrite Hreports, Hcount. clear Hreports Hcount.
  set (vulnerable := filter (matched matches) (dedupe [] parsed)).
  assert (Hmatched : Forall (fun d => matches d <> []) vulnerable).
  { apply Forall_forall. intros d Hd. apply filter_In in Hd as [_ Hd].
    unfold matched in Hd. destruct (matches d); [discriminate | discriminate]. }
  assert (Hdeps : map dependency (map (fun d => mkReport d (matches d)) vulnerable)
                  = vulnerable).
  { rewrite map_map. cbn. apply map_id. }
  repeat split.
  - now rewrite length_map.
  - apply Forall_map. cbn. eapply Forall_impl; [ | exact Hmatched].
    intros d Hd. now split.
  - intros d Hnone Hin. rewrite Hdeps in Hin.
    rewrite Forall_forall in Hmatched. now apply (Hmatched d Hin).
  - exists parsed. split; [reflexivity | exact Hdeps].
Qed.

(** A scan of [lodash] (declared twice) and [express] against an upstream
    that knows one advisory, against [lodash]. *)
Lemma scan_counts_one_report_per_vulnerable_dependency_witness :
  exists r,
    scan "/path/to/project"
         (Returned [Samples.lodash; Samples.express; Samples.lodash])
         Samples.lodashOnly 1000 13450 = Returned r
    /\ vulnerableDependencies r = Z.of_nat (List.length (reports r))
    /\ Forall (fun report =>
                 vulnerabilities report <> []
                 /\ vulnerabilities report = Samples.lodashOnly (dependency report))
              (reports r)
    /\ (forall d, Samples.lodashOnly d = [] -> ~ In d (map dependency (reports r)))
    /\ exists parsed,
         Returned [Samples.lodash; Samples.express; Samples.lodash] = Returned parsed
         /\ map dependency (reports r)
            = filter (matched Samples.lodashOnly) (dedupe [] parsed).
Proof.
  eexists. split.
  - reflexivity.
  - apply (scan_counts_one_report_per_vulnerable_dependency "/path/to/project"
             (Returned [Samples.lodash; Samples.express; Samples.lodash])
             Samples.lodashOnly 1000 13450).
    reflexivity.
Defined.

(** The sample scan, evaluated. *)
Example scan_lodash_and_express :
  match scan "/path/to/project"
             (Returned [Samples.lodash; Samples.express; Samples.lodash])
             Samples.lodashOnly 1000 13450 with
  | Returned r =>
      totalDependencies r = 2
      /\ vulnerableDependencies r = 1
      /\ totalVulnerabilities r = 1
      /\ severityCounts r CRITICAL = 1
      /\ map dependency (reports r) = [Samples.lodash]
      /\ scanDuration r = 12450
  | Threw _ => False
  end.
Proof. cbn. repeat split. Qed.

End ScannerFacts.

(* ----------------------------------------------------------------- *)
(** ** The helpers, evaluated on small inputs *)

Module Checks.
Import JS.

(** [diff --name-only] output: ['file1.ts', 'file2.ts', ''] before [filter]. *)
Example split_name_only :
  let names :=
    ("file1.ts" ++ String Git.newline ("file2.ts" ++ String Git.newline ""))%string in
  Git.split Git.newline names = ["file1.ts"; "file2.ts"; ""]
  /\ filter Git.nonEmpty (Git.split Git.newline names) = ["file1.ts"; "file2.ts"]
  /\ Git.split Git.newline "" = [""].
Proof. repeat split. Qed.

Example slice0_by_sign :
  Query.slice0 [1; 2; 3] 2 = [1; 2]
  /\ Query.slice0 [1; 2; 3] 5 = [1; 2; 3]
  /\ Query.slice0 [1; 2; 3] 0 = []
  /\ Query.slice0 [1; 2; 3] (-1) = [1; 2]
  /\ Query.slice0 [1; 2; 3] (-5) = [].
Proof. repeat split. Qed.

(** Equal keys keep their order; larger keys come first. *)
Example sort_is_stable :
  Query.sort (fun a b => Query.Num (snd b - snd a))
             [("a", 1%Q); ("b", 3%Q); ("c", 1%Q); ("d", 3%Q)]
  = [("b", 3%Q); ("d", 3%Q); ("a", 1%Q); ("c", 1%Q)].
Proof. reflexivity. Qed.

Example strings_of_paths :
  Query.stripSlashes "/src/handlers/" = "src/handlers"
  /\ Query.stripSlashes "/" = ""
  /\ Query.endsWith "src/git/git-service.ts" ".ts" = true
  /\ Query.endsWith "ts" ".ts" = false
  /\ Query.includes "src/git/git-service.ts" "git/" = true
  /\ Query.includes "src/git/git-service.ts" "" = true
  /\ Query.includes "src/git/git-service.ts" "handlers" = false
  /\ Query.lastIndexOf "."%char "a.test.ts" = Some 6%nat
  /\ Query.getFileExtension Samples.platform "a.test.ts" = "ts"
  /\ Query.getFileExtension Samples.platform "Makefile" = ""
  /\ Query.getFileExtension Samples.platform "trailing." = "".
Proof. repeat split. Qed.

Example file_path_of_metadata :
  Query.extractFilePath [("path", Query.VString ""); ("file", Query.VString "a.ts")]
  = Some "a.ts"
  /\ Query.extractFilePath
       [("source", Query.VObject [("file_path", Query.VString "b.ts")])]
     = Some "b.ts"
  /\ Query.extractFilePath [("source", Query.VArray []); ("line", Query.VNumber (Query.Num 3))]
     = None.
Proof. repeat split. Qed.

(** A language that is no string makes the language filter throw, and
    [query] reject with the wrapped message. *)
Example query_rejects_on_numeric_language :
  let numbered : Query.SearchResult.t :=
    {| Query.SearchResult.id := "s1";
       Query.SearchResult.content := "";
       Query.SearchResult.score := Query.Num 1;
       Query.SearchResult.metadata :=
         Some [("filePath", Query.VString "a.ts"); ("language", Query.VNumber (Query.Num 7))] |} in
  let client : Query.GraphRAGClient.t :=
    {| Query.GraphRAGClient.retrieve := fun _ _ =>
         Returned {| Query.RetrievalResult.content := "";
                     Query.RetrievalResult.sources := Some [numbered] |};
       Query.GraphRAGClient.search := fun _ _ => Returned [] |} in
  let options : Query.QueryOptions :=
    {| Query.limit := None; Query.language := Some "ts"; Query.fileType := None;
       Query.directory := None; Query.includeSnippets := None |} in
  result (Query.query client Samples.platform "q" options 0 1)
  = Threw (Error "Query failed: r.metadata.language?.toLowerCase is not a function").
Proof. reflexivity. Qed.

Example exit_codes :
  snd (ScanExample.exitFor (Samples.oneFinding Tools.CRITICAL (98 # 10))) = 2
  /\ snd (ScanExample.exitFor Samples.highOnly) = 1
  /\ snd (ScanExample.exitFor Samples.mediumOnly) = 0
  /\ snd (ScanExample.exitFor (Samples.oneFinding Tools.LOW (1 # 10))) = 0
  /\ ScanExample.exitCode Samples.scanFailing Samples.plainReport None "/missing" = 1.
Proof. repeat split. Qed.

Example cve_identifiers :
  Scanner.isCveId "CVE-2019-10744" = true
  /\ Scanner.isCveId "GHSA-jf85-cpcp-j695" = false
  /\ Scanner.isCveId "CVE-2019-107" = false.
Proof. repeat split. Qed.

End Checks.

(* ----------------------------------------------------------------- *)
(** ** What the example script writes *)

Module OutputFacts.
Import JS Tools ScanExample Output.

Lemma exitFor_written r :
  exists written,
    fst (exitFor r) = [written]
    /\ (snd (exitFor r) = 0 \/ snd (exitFor r) = 1 \/ snd (exitFor r) = 2)
    /\ (isComplaint written = true <-> snd (exitFor r) <> 0).
Proof.
  unfold exitFor.
  destruct (0 <? totalVulnerabilities r);
    [destruct (0 <? severityCounts r CRITICAL);
       [ | destruct (0 <? severityCounts r HIGH)] | ];
    eexists; (split; [reflexivity | ]); cbn; (split; [lia | ]);
    split; (discriminate || congruence || reflexivity || lia).
Qed.

(** X1.  The script ends with code 0, 1 or 2, and it writes with
    [console.warn] or [console.error] exactly when the code is not 0.  It
    opens with its three banner lines; after a scan that fulfils it writes
    the formatted report as its fourth line and one verdict after it, and
    after a scan that throws it writes no report. *)
Theorem main_complains_exactly_when_exit_code_is_not_zero
    (scan : string -> Outcome ScanResult) (formatScanResult : ScanResult -> string)
    (argv2 : option string) (fallback : string) :
  let written := fst (main scan formatScanResult argv2 fallback) in
  let code := exitCode scan formatScanResult argv2 fallback in
  (code = 0 \/ code = 1 \/ code = 2)
  /\ (existsb isComplaint written = true <-> code <> 0)
  /\ firstn 3 written = banner (projectPathOf argv2 fallback)
  /\ (forall r,
        scan (projectPathOf argv2 fallback) = Returned r ->
        nth_error written 3 = Some (Log (formatScanResult r))
        /\ List.length written = 5%nat)
  /\ (Effects.rejected (scan (projectPathOf argv2 fallback)) ->
      List.length written = 4%nat
      /\ forall r, ~ In (Log (formatScanResult r)) (skipn 3 written)).
Proof.
  cbn zeta. unfold exitCode, main, Effects.rejected.
  destruct (scan (projectPathOf argv2 fallback)) as [r | e].
  - destruct (exitFor_written r) as (verdict & Hwritten & Hcode & Hcomplaint).
    destruct (exitFor r) as [lines code]. cbn [fst snd] in *. subst lines.
    split; [exact Hcode | ]. split.
    { cbn. now rewrite orb_false_r. }
    split; [reflexivity | ]. split.
    + intros r' [= <-]. split; reflexivity.
    + intros [e He]. discriminate.
  - cbn [fst snd]. split; [lia | ]. split; [cbn; split; [lia | reflexivity] | ].
    split; [reflexivity | ]. split; [discriminate | ].
    intros _. split; [reflexivity | ].
    intros r. cbn. intros [H | []]. discriminate.
Qed.

End OutputFacts.

(* ----------------------------------------------------------------- *)
(** ** More on the git service *)

Module GitCoverage.
Import JS Git Text Effects.
Local Open Scope js_scope.

(** *** [split] and [join] *)

Lemma split_not_empty sep s : split sep s <> [].
Proof.
  destruct s as [ | c rest]; cbn; [discriminate | ].
  destruct (Ascii.eqb c sep); [discriminate | ].
  destruct (split sep rest); discriminate.
Qed.

(** [s.split(sep).join(sep)] is [s] again. *)
Lemma split_join sep s :
  String.concat (String sep EmptyString) (split sep s) = s.
Proof.
  induction s as [ | c rest IH]; cbn; [reflexivity | ].
  destruct (Ascii.eqb_spec c sep) as [Heq | Hne].
  - subst c. pose proof (split_not_empty sep rest) as Hne.
    destruct (split sep rest) as [ | piece pieces]; [contradiction | ].
    cbn [String.concat]. cbn. now rewrite <- IH.
  - destruct (split sep rest) as [ | piece pieces] eqn:Hsplit.
    + now destruct (split_not_empty sep rest).
    + rewrite <- IH. destruct pieces; reflexivity.
Qed.

(** No piece of [s.split(sep)] holds the separator. *)
Lemma split_pieces_free sep s : Forall (fun piece => ~ occurs sep piece) (split sep s).
Proof.
  induction s as [ | c rest IH]; cbn.
  - constructor; [intros [] | constructor].
  - destruct (Ascii.eqb_spec c sep) as [Heq | Hne].
    + constructor; [intros [] | exact IH].
    + destruct (split sep rest) as [ | piece pieces]; cbn.
      * constructor; [ | constructor]. cbn. intros [H | []]. contradiction.
      * inversion IH as [ | ? ? Hpiece Hpieces]; subst.
        constructor; [ | exact Hpieces].
        cbn. intros [H | H]; [contradiction | now apply Hpiece].
Qed.

Lemma nonEmpty_iff s : nonEmpty s = true <-> s <> EmptyString.
Proof.
  unfold nonEmpty. destruct (String.eqb_spec s ""); split; intros H;
    try discriminate; try congruence; reflexivity.
Qed.

(** *** [isGitRepository] and [getRemoteUrl] *)

Lemma isGitRepository_run (git : SimpleGit.t) log :
  exists answer,
    isGitRepository git log = (Returned answer, log)
    /\ (answer = true <-> exists u, SimpleGit.status git = Returned u).
Proof.
  unfold isGitRepository, try_catch, bind, await, ret.
  destruct (SimpleGit.status git) as [u | e].
  - exists true. split; [reflexivity | ]. split; [now exists u | reflexivity].
  - exists false. split; [reflexivity | ].
    split; [discriminate | intros [u Hu]; discriminate].
Qed.

Lemma getRemoteUrl_run (git : SimpleGit.t) log :
  exists answer,
    getRemoteUrl git log = (Returned answer, log)
    /\ (forall url,
          answer = Some url <->
          exists remotes origin,
            SimpleGit.getRemotes git true = Returned remotes
            /\ find (fun r => (name r =? "origin")%string) remotes = Some origin
            /\ fetch (refs origin) = url
            /\ url <> EmptyString).
Proof.
  unfold getRemoteUrl, try_catch, bind, await, ret.
  destruct (SimpleGit.getRemotes git true) as [remotes | e].
  - destruct (find _ remotes) as [origin | ] eqn:Hfind.
    + destruct (nonEmpty (fetch (refs origin))) eqn:Hfetch.
      * eexists. split; [reflexivity | ]. intros url. split.
        -- intros H. injection H as <-. exists remotes, origin.
           repeat split; try assumption. now apply nonEmpty_iff.
        -- intros [remotes' [origin' [Hr [Hf [Hu _]]]]].
           injection Hr as <-. rewrite Hfind in Hf. injection Hf as <-. now subst.
      * eexists. split; [reflexivity | ]. intros url. split; [discriminate | ].
        intros [remotes' [origin' [Hr [Hf [Hu Hne]]]]].
        injection Hr as <-. rewrite Hfind in Hf. injection Hf as <-. subst url.
        apply nonEmpty_iff in Hne. congruence.
    + eexists. split; [reflexivity | ]. intros url. split; [discriminate | ].
      intros [remotes' [origin' [Hr [Hf _]]]].
      injection Hr as <-. rewrite Hfind in Hf. discriminate.
  - eexists. split; [reflexivity | ]. intros url. split; [discriminate | ].
    intros [remotes' [origin' [Hr _]]]. discriminate.
Qed.

(** X2.  The two probes of the service, [isGitRepository] and [getRemoteUrl],
    never throw and, unlike the other accessors, write nothing to the log,
    also when git fails.  [isGitRepository] answers [true] exactly when
    [git status] fulfils.  [getRemoteUrl] gives a URL only when the remotes
    could be listed, and then the fetch URL of the first remote named
    [origin], which is never the empty string; a failing listing, a missing
    [origin] and an empty fetch URL all give [null]. *)
Theorem repository_probes_answer_without_logging (git : SimpleGit.t) log :
  (exists answer,
     isGitRepository git log = (Returned answer, log)
     /\ (answer = true <-> exists u, SimpleGit.status git = Returned u))
  /\ (exists answer,
        getRemoteUrl git log = (Returned answer, log)
        /\ (forall url,
              answer = Some url <->
              exists remotes origin,
                SimpleGit.getRemotes git true = Returned remotes
                /\ find (fun r => (name r =? "origin")%string) remotes = Some origin
                /\ fetch (refs origin) = url
                /\ url <> EmptyString)).
Proof. split; [apply isGitRepository_run | apply getRemoteUrl_run]. Qed.


(** *** What the accessors return and log *)

(** X3.  Every commit the two history accessors return has an empty [files]
    list, and there is at most one commit per entry of git's log: exactly one
    when the log call fulfils, none when it rejects. *)
Theorem history_commits_carry_no_files (git : SimpleGit.t) filePath limit log :
  (exists commits log',
     getFileHistory git filePath limit log = (Returned commits, log')
     /\ Forall (fun c => CommitInfo.files c = []) commits
     /\ match SimpleGit.log git (fileHistoryOptions filePath limit) with
        | Returned history =>
            map CommitInfo.hash commits = map hash (all history) /\ log' = log
        | Threw _ => commits = []
        end)
  /\ (exists commits log',
        getRecentCommits git limit log = (Returned commits, log')
        /\ Forall (fun c => CommitInfo.files c = []) commits
        /\ match SimpleGit.log git (recentOptions limit) with
           | Returned history =>
               map CommitInfo.hash commits = map hash (all history) /\ log' = log
           | Threw _ => commits = []
           end).
Proof.
  split.
  - unfold getFileHistory, try_catch, bind, await, ret, logger.
    destruct (SimpleGit.log git (fileHistoryOptions filePath limit)) as [history | e].
    + eexists. eexists. split; [reflexivity | ]. split.
      * apply Forall_map. now apply Forall_forall.
      * split; [ | reflexivity]. rewrite map_map. reflexivity.
    + eexists. eexists. split; [reflexivity | ]. split; [constructor | reflexivity].
  - unfold getRecentCommits, try_catch, bind, await, ret, logger.
    destruct (SimpleGit.log git (recentOptions limit)) as [history | e].
    + eexists. eexists. split; [reflexivity | ]. split.
      * apply Forall_map. now apply Forall_forall.
      * split; [ | reflexivity]. rewrite map_map. reflexivity.
    + eexists. eexists. split; [reflexivity | ]. split; [constructor | reflexivity].
Qed.

Lemma not_rejected_returned {A} (a : A) : ~ rejected (Returned a).
Proof. intros [e He]. discriminate. Qed.

Lemma rejected_threw {A} (e : Exn) : rejected (@Threw A e).
Proof. now exists e. Qed.

(** X4.  The accessors that log do so once per failing call and never
    otherwise: a call that went well leaves the log as it was, a git call
    that rejected adds exactly one record, at level [error]. *)
Theorem git_accessors_log_one_error_per_failure (git : SimpleGit.t) :
  (forall filePath limit,
      logsOnFailure (getFileHistory git filePath limit)
        (rejected (SimpleGit.log git (fileHistoryOptions filePath limit)))
        "Failed to get file history")
  /\ (forall limit,
        logsOnFailure (getRecentCommits git limit)
          (rejected (SimpleGit.log git (recentOptions limit)))
          "Failed to get recent commits")
  /\ (forall filePath commit1 commit2,
        logsOnFailure (getFileDiff git filePath commit1 commit2)
          (rejected (SimpleGit.diff git (fileDiffArgs filePath commit1 commit2)))
          "Failed to get file diff")
  /\ (forall args,
        logsOnFailure (raw git args) (rejected (SimpleGit.raw git args))
          "Failed to execute raw git command")
  /\ (forall h,
        logsOnFailure (getCommitDetails git h)
          (rejected (SimpleGit.log git (commitOptions h))
           \/ (exists history,
                 SimpleGit.log git (commitOptions h) = Returned history
                 /\ all history <> []
                 /\ rejected (SimpleGit.diff git (commitDiffArgs h))))
          "Failed to get commit details").
Proof.
  repeat split.
  - intros filePath limit log.
    unfold getFileHistory, try_catch, bind, await, ret, logger.
    destruct (SimpleGit.log git _) as [history | e]; eexists; eexists;
      (split; [reflexivity | ]).
    + left. split; [apply not_rejected_returned | reflexivity].
    + right. split; [apply rejected_threw | reflexivity].
  - intros limit log.
    unfold getRecentCommits, try_catch, bind, await, ret, logger.
    destruct (SimpleGit.log git _) as [history | e]; eexists; eexists;
      (split; [reflexivity | ]).
    + left. split; [apply not_rejected_returned | reflexivity].
    + right. split; [apply rejected_threw | reflexivity].
  - intros filePath commit1 commit2 log.
    unfold getFileDiff, try_catch, bind, await, ret, logger.
    destruct (SimpleGit.diff git _) as [text | e]; eexists; eexists;
      (split; [reflexivity | ]).
    + left. split; [apply not_rejected_returned | reflexivity].
    + right. split; [apply rejected_threw | reflexivity].
  - intros args log.
    unfold raw, try_catch, bind, await, ret, logger.
    destruct (SimpleGit.raw git args) as [text | e]; eexists; eexists;
      (split; [reflexivity | ]).
    + left. split; [apply not_rejected_returned | reflexivity].
    + right. split; [apply rejected_threw | reflexivity].
  - intros h log.
    unfold getCommitDetails, try_catch, bind, await, ret, logger.
    destruct (SimpleGit.log git (commitOptions h)) as [history | e].
    + destruct (all history) as [ | entry rest] eqn:Hall.
      * eexists. eexists. split; [reflexivity | ]. left. split; [ | reflexivity].
        intros [[e He] | [history' [Hh [Hne _]]]]; [discriminate | ].
        injection Hh as <-. now apply Hne.
      * destruct (SimpleGit.diff git (commitDiffArgs h)) as [names | e].
        -- eexists. eexists. split; [reflexivity | ]. left. split; [ | reflexivity].
           intros [[e He] | [history' [_ [_ [e He]]]]]; discriminate.
        -- eexists. eexists. split; [reflexivity | ]. right. split; [ | reflexivity].
           right. exists history. repeat split; [congruence | apply rejected_threw].
    + eexists. eexists. split; [reflexivity | ]. right. split; [ | reflexivity].
      left. apply rejected_threw.
Qed.

End GitCoverage.

(* ----------------------------------------------------------------- *)
(** ** More on the query handler: scores *)

Module ScoreFacts.
Import JS Query Criteria.

(** [clamp01] gives a number from 0 to 1 for every number that is not
    [NaN], and keeps the order. *)
Lemma clamp01_Num x :
  x <> NaN -> exists n, clamp01 x = Num n /\ (0 <= n <= 1)%Q.
Proof.
  intros Hx. unfold clamp01.
  destruct x as [q | | | ]; cbn [Math_max Math_min]; [ | contradiction | | ];
    (eexists; split; [reflexivity | ]); split;
    first [ lra | apply Q.le_max_l
          | apply Q.max_lub; [lra | first [apply Q.le_min_l | lra]] ].
Qed.

Lemma clamp01_NaN : clamp01 NaN = NaN.
Proof. reflexivity. Qed.

Lemma clamp01_grows x y :
  atMost x y ->
  exists a b, clamp01 x = Num a /\ clamp01 y = Num b /\ (a <= b)%Q.
Proof.
  unfold clamp01.
  destruct x as [p | | | ], y as [q | | | ]; cbn [atMost Math_max Math_min];
    try tauto; intros H;
    do 2 eexists; (split; [reflexivity | ]); (split; [reflexivity | ]);
    first [ apply Qle_refl | apply Q.le_max_l
          | apply Q.max_le_compat_l;
            first [now apply Q.min_le_compat_l | apply Q.le_min_l] ].
Qed.

(** The sigmoid of the handler lies strictly between 0 and 1. *)
Lemma sigmoid_bounds e : (0 < e)%Q -> (0 < 1 / (1 + e) /\ 1 / (1 + e) < 1)%Q.
Proof.
  intros He. split.
  - apply Qlt_shift_div_l; lra.
  - apply Qlt_shift_div_r; lra.
Qed.

Lemma sigmoid_antitone e1 e2 :
  (0 < e2)%Q -> (e2 <= e1)%Q -> (1 / (1 + e1) <= 1 / (1 + e2))%Q.
Proof.
  intros H2 Hle.
  apply Qle_shift_div_l; [lra | ].
  assert (H : (1 / (1 + e1) * (1 + e1) == 1)%Q) by (field; lra).
  assert (Hpos : (0 < 1 / (1 + e1))%Q) by (apply Qlt_shift_div_l; lra).
  assert (Hmul : (1 / (1 + e1) * (1 + e2) <= 1 / (1 + e1) * (1 + e1))%Q).
  { apply Qmult_le_l; [exact Hpos | lra]. }
  lra.
Qed.

Lemma hundredths_le (a b : Z) :
  (a <= b)%Z -> (inject_Z a / 100 <= inject_Z b / 100)%Q.
Proof.
  intros H. apply Qmult_le_compat_r.
  - now rewrite <- Zle_Qle.
  - apply Qinv_le_0_compat. lra.
Qed.

(** The stand-in exponential of the samples is positive. *)
Lemma series_positive : positiveExp Samples.platform.
Proof.
  intros x. cbn [Math_exp Samples.platform]. unfold Samples.series.
  assert (Hsq : (0 <= x * x)%Q) by nra.
  destruct (Qle_bool 0 x) eqn:Hx.
  - apply Qle_bool_iff in Hx.
    assert (Hhalf : (x * x / 2 == x * x * (1 # 2))%Q) by (field).
    rewrite Hhalf. lra.
  - assert (Hhalf : (x * x / 2 == x * x * (1 # 2))%Q) by (field).
    apply Qlt_shift_div_l; rewrite Hhalf.
    + assert (Hneg : (x < 0)%Q).
      { apply Qnot_le_lt. intros Hle. apply Qle_bool_iff in Hle. congruence. }
      lra.
    + lra.
Qed.

(** X6.  [calculateConfidence] gives a percentage with two decimals: a whole
    number of hundredths between 0 and 100, for every score that is not
    [NaN], as long as [Math.exp] is positive. *)
Theorem calculateConfidence_is_a_percentage (P : Platform) (score : Number) :
  positiveExp P -> score <> NaN ->
  exists hundredths : Z,
    calculateConfidence P score = Num (inject_Z hundredths / 100)
    /\ (0 <= hundredths <= 10000)%Z
    /\ (0 <= inject_Z hundredths / 100 <= 100)%Q.
Proof.
  intros Hexp Hscore. unfold calculateConfidence.
  destruct (clamp01_Num score Hscore) as (n & -> & _).
  set (e := Math_exp P _).
  assert (He : (0 < e)%Q) by apply Hexp.
  destruct (sigmoid_bounds e He) as [Hlo Hhi].
  set (c := (1 / (1 + e))%Q) in *.
  assert (Hk : (0 <= Math_round (c * 10000) <= 10000)%Z).
  { unfold Math_round. split.
    - apply (Qfloor_resp_le 0). nra.
    - apply (Qfloor_resp_le _ (10000 + (1 # 2))). nra. }
  exists (Math_round (c * 10000)). split; [reflexivity | ]. split; [exact Hk | ].
  destruct Hk as [Hk0 Hk1]. split.
  - apply Qle_shift_div_l; [lra | ].
    apply Qle_trans with (inject_Z 0); [compute; discriminate | now rewrite <- Zle_Qle].
  - apply Qle_shift_div_r; [lra | ].
    apply Qle_trans with (inject_Z 10000); [now rewrite <- Zle_Qle | ].
    compute. discriminate.
Qed.

(** With the stand-in exponential of the samples. *)
Lemma calculateConfidence_is_a_percentage_witness :
  exists hundredths : Z,
    calculateConfidence Samples.platform (Num (9 # 10)) = Num (inject_Z hundredths / 100)
    /\ (0 <= hundredths <= 10000)%Z
    /\ (0 <= inject_Z hundredths / 100 <= 100)%Q.
Proof.
  apply (calculateConfidence_is_a_percentage Samples.platform (Num (9 # 10))).
  - apply series_positive.
  - discriminate.
Defined.


Lemma Qle_bool_neg x : Qle_bool 0 x = false -> (x < 0)%Q.
Proof.
  intros H. apply Qnot_le_lt. intros Hle. apply Qle_bool_iff in Hle. congruence.
Qed.

(** The stand-in exponential of the samples grows with its argument. *)
Lemma series_grows : growingExp Samples.platform.
Proof.
  intros x y Hxy. cbn [Math_exp Samples.platform]. unfold Samples.series.
  assert (Hx2 : (x * x / 2 == x * x * (1 # 2))%Q) by field.
  assert (Hy2 : (y * y / 2 == y * y * (1 # 2))%Q) by field.
  destruct (Qle_bool 0 x) eqn:Hx; destruct (Qle_bool 0 y) eqn:Hy;
    try apply Qle_bool_iff in Hx; try apply Qle_bool_iff in Hy;
    try apply Qle_bool_neg in Hx; try apply Qle_bool_neg in Hy;
    rewrite Hx2, Hy2.
  - nra.
  - lra.
  - apply Qle_shift_div_r; nra.
  - apply Qle_shift_div_r; [nra | ].
    assert (Hd : (0 < 1 - y + y * y * (1 # 2))%Q) by nra.
    assert (Hinv : (1 / (1 - y + y * y * (1 # 2)) * (1 - y + y * y * (1 # 2)) == 1)%Q)
      by (field; lra).
    assert (Hpos : (0 < 1 / (1 - y + y * y * (1 # 2)))%Q)
      by (apply Qlt_shift_div_l; lra).
    assert (Hle : (1 - y + y * y * (1 # 2) <= 1 - x + x * x * (1 # 2))%Q) by nra.
    assert (Hmul : (1 / (1 - y + y * y * (1 # 2)) * (1 - y + y * y * (1 # 2))
                    <= 1 / (1 - y + y * y * (1 # 2)) * (1 - x + x * x * (1 # 2)))%Q).
    { apply Qmult_le_l; assumption. }
    lra.
Qed.

(** X7.  [calculateConfidence] never ranks a lower score above a higher one: the
    confidence grows (weakly) with the score, as long as [Math.exp] is
    positive and grows with its argument. *)
Theorem calculateConfidence_grows_with_score (P : Platform) (score1 score2 : Number) :
  positiveExp P -> growingExp P ->
  atMost score1 score2 ->
  atMost (calculateConfidence P score1) (calculateConfidence P score2).
Proof.
  intros Hpos Hgrows Hle. unfold calculateConfidence.
  destruct (clamp01_grows score1 score2 Hle) as (a & b & -> & -> & Hab).
  cbn [atMost]. apply hundredths_le. unfold Math_round. apply Qfloor_resp_le.
  apply Qplus_le_l. apply Qmult_le_compat_r; [ | lra].
  apply sigmoid_antitone; [apply Hpos | ].
  apply Hgrows. lra.
Qed.

(** Two of the sample scores. *)
Lemma calculateConfidence_grows_with_score_witness :
  atMost (calculateConfidence Samples.platform (Num (7 # 10)))
         (calculateConfidence Samples.platform (Num (9 # 10))).
Proof.
  apply (calculateConfidence_grows_with_score Samples.platform
           (Num (7 # 10)) (Num (9 # 10))).
  - apply series_positive.
  - apply series_grows.
  - cbn. lra.
Defined.

(** *** [calculateRelevance] *)

Lemma atMost_refl_Num q : atMost (Num q) (Num q).
Proof. cbn. apply Qle_refl. Qed.

(** Under [rounds], a rational is never rounded to [NaN]. *)
Lemma binary64_number P x : rounds P -> binary64 P x <> NaN.
Proof.
  intros (Hmono & _) Hnan. specialize (Hmono x x (Qle_refl x)).
  rewrite Hnan in Hmono. exact Hmono.
Qed.

(** The literals of [calculateRelevance] denote numbers from 1 to 2. *)
Lemma literal_between P d :
  rounds P -> (1 <= d <= 2)%Q ->
  exists c, literal P d = Num c /\ (1 <= c <= 2)%Q.
Proof.
  intros (Hmono & _ & (_ & H1) & (H2 & _) & _) [Hlo Hhi]. unfold literal.
  pose proof (Hmono 1%Q d Hlo) as Hlow. pose proof (Hmono d 2%Q Hhi) as Hhigh.
  pose proof (QueryFacts.atMost_trans _ _ _ H1 Hlow) as Hone.
  pose proof (QueryFacts.atMost_trans _ _ _ Hhigh H2) as Htwo.
  destruct (binary64 P d) as [c | | | ]; cbn in Hone, Htwo; try tauto.
  exists c. now repeat split.
Qed.

(** What the three boosts keep, the relevance is the cut of. *)
Lemma calculateRelevance_through (kept : Number -> Prop) P score metadata :
  (forall r d, (1 <= d <= 2)%Q -> kept r -> kept (times P r (literal P d))) ->
  kept score ->
  exists r, calculateRelevance P score metadata = clamp01 r /\ kept r.
Proof.
  intros Hstep Hscore. unfold calculateRelevance.
  eexists. split; [reflexivity | ].
  assert (H1 : kept (if truthy (get "language" metadata)
                     then times P score (literal P (11 # 10)) else score)).
  { destruct (truthy _); [apply Hstep; [split; lra | exact Hscore] | exact Hscore]. }
  set (r1 := if truthy _ then _ else _) in *.
  assert (H2 : kept match get "type" metadata with
                    | VString t =>
                        if ((t =? "function") || (t =? "class"))%string
                        then times P r1 (literal P (115 # 100)) else r1
                    | _ => r1
                    end).
  { destruct (get "type" metadata); try exact H1.
    destruct (_ || _)%bool; [apply Hstep; [split; lra | exact H1] | exact H1]. }
  set (r2 := match get "type" metadata with VString _ => _ | _ => r1 end) in *.
  destruct (get "tags" metadata) as [ | | | | | items | ]; try exact H2.
  destruct items; [exact H2 | apply Hstep; [split; lra | exact H2]].
Qed.

Lemma times_NaN P y : times P NaN y = NaN.
Proof. reflexivity. Qed.

Lemma times_number P r d :
  rounds P -> (1 <= d <= 2)%Q -> r <> NaN -> times P r (literal P d) <> NaN.
Proof.
  intros Hrounds Hd Hr. destruct (literal_between P d Hrounds Hd) as (c & -> & Hc & _).
  destruct r as [q | | | ]; cbn; [ | contradiction | | ].
  - now apply binary64_number.
  - destruct (Qcompare_spec c 0) as [H | H | H]; [lra | lra | discriminate].
  - destruct (Qcompare_spec c 0) as [H | H | H]; [lra | lra | discriminate].
Qed.

(** A boost of a score that is not negative takes nothing away. *)
Lemma times_boosts P r d :
  rounds P -> (1 <= d <= 2)%Q -> boostable P r ->
  atMost r (times P r (literal P d)) /\ boostable P (times P r (literal P d)).
Proof.
  intros Hrounds Hd Hr. destruct (literal_between P d Hrounds Hd) as (c & -> & Hc & _).
  destruct Hrounds as (Hmono & _ & _ & _ & Hexact).
  destruct r as [q | | | ]; cbn in Hr; try tauto.
  - destruct Hr as [Hq [_ Hup]]. cbn [times].
    assert (Hgrow : (q <= q * c)%Q) by nra.
    pose proof (QueryFacts.atMost_trans _ _ _ Hup (Hmono _ _ Hgrow)) as Hle.
    destruct (binary64 P (q * c)) as [p | | | ] eqn:Hp; cbn in Hle; try tauto.
    split; [exact Hle | ]. cbn. split; [lra | ]. now apply (Hexact (q * c)%Q).
  - cbn. destruct (Qcompare_spec c 0) as [H | H | H]; [lra | lra | ]. now split.
Qed.

Lemma clamp01_keeps_order x y :
  atMost x y -> atMost (clamp01 x) (clamp01 y).
Proof.
  intros H. destruct (clamp01_grows x y H) as (a & b & -> & -> & Hab). exact Hab.
Qed.

(** The relevance of a score that is not [NaN] is a finite number. *)
Lemma calculateRelevance_finite P score metadata :
  rounds P -> score <> NaN ->
  exists r, calculateRelevance P score metadata = Num r /\ (0 <= r <= 1)%Q.
Proof.
  intros Hrounds Hscore.
  destruct (calculateRelevance_through (fun r => r <> NaN) P score metadata)
    as (r & -> & Hr); [ | exact Hscore | now apply clamp01_Num].
  intros r d Hd Hr. now apply times_number.
Qed.

(** X8.  [calculateRelevance] gives [NaN] for the score [NaN], and a number
    from 0 to 1 for every other score; and the boosts for metadata never
    take anything away: for a score that is a binary64 number and not
    negative, the relevance is at least the score (cut at 1).  Rounding to
    binary64 is taken to keep the order, to leave 0, 1 and 2 as they are,
    and to leave the numbers it gives as they are. *)
Theorem calculateRelevance_is_bounded_and_boosted
    (P : Platform) (score : Number) (metadata : Metadata) :
  rounds P ->
  (score = NaN -> calculateRelevance P score metadata = NaN)
  /\ (score <> NaN ->
      exists r, calculateRelevance P score metadata = Num r /\ (0 <= r <= 1)%Q)
  /\ (forall q, score = Num q -> (0 <= q)%Q -> exact P q ->
                atMost (clamp01 score) (calculateRelevance P score metadata)).
Proof.
  intros Hrounds. split; [ | split].
  - intros ->.
    destruct (calculateRelevance_through (fun r => r = NaN) P NaN metadata)
      as (r & -> & ->); [ | reflexivity | reflexivity].
    intros r d _ ->. reflexivity.
  - intros Hscore. now apply calculateRelevance_finite.
  - intros q -> Hq Hexact.
    destruct (calculateRelevance_through
                (fun r => atMost (Num q) r /\ boostable P r) P (Num q) metadata)
      as (r & -> & Hle & _).
    + intros r d Hd [Hle Hr]. destruct (times_boosts P r d Hrounds Hd Hr) as [Hup Hnext].
      split; [ | exact Hnext]. eapply QueryFacts.atMost_trans; eassumption.
    + split; [apply atMost_refl_Num | now split].
    + now apply clamp01_keeps_order.
Qed.

(** The platform of the samples rounds nothing. *)
Lemma samples_round : rounds Samples.platform.
Proof.
  unfold rounds, exact. cbn [binary64 Samples.platform atMost].
  split; [intros x y H; exact H | ].
  repeat split; try apply Qle_refl.
  all: injection H as <-; apply Qle_refl.
Qed.

(** The score 0.5 with a language and two tags. *)
Lemma calculateRelevance_is_bounded_and_boosted_witness :
  (Num (1 # 2) = NaN ->
   calculateRelevance Samples.platform (Num (1 # 2))
     [("language", VString "ts"); ("tags", VArray [VString "a"; VString "b"])] = NaN)
  /\ (Num (1 # 2) <> NaN ->
      exists r,
        calculateRelevance Samples.platform (Num (1 # 2))
          [("language", VString "ts"); ("tags", VArray [VString "a"; VString "b"])]
        = Num r /\ (0 <= r <= 1)%Q)
  /\ (forall q, Num (1 # 2) = Num q -> (0 <= q)%Q -> exact Samples.platform q ->
                atMost (clamp01 (Num (1 # 2)))
                       (calculateRelevance Samples.platform (Num (1 # 2))
                          [("language", VString "ts");
                           ("tags", VArray [VString "a"; VString "b"])])).
Proof.
  apply (calculateRelevance_is_bounded_and_boosted Samples.platform (Num (1 # 2))
           [("language", VString "ts"); ("tags", VArray [VString "a"; VString "b"])]).
  exact samples_round.
Defined.

End ScoreFacts.

(* ----------------------------------------------------------------- *)
(** ** More on the query handler: from sources to results *)

Module PipelineFacts.
Import JS Query Criteria.
Local Open Scope js_scope.

(** *** [extractFilePath] *)

Lemma firstString_found fields metadata :
  match firstString fields metadata with
  | Some value =>
      value <> EmptyString
      /\ exists field, In field fields /\ get field metadata = VString value
  | None =>
      forall field value,
        In field fields -> get field metadata = VString value -> value = EmptyString
  end.
Proof.
  induction fields as [ | field rest IH]; cbn.
  - intros field value [].
  - destruct (get field metadata) as [ | | b | q | s | items | nested ] eqn:Hget;
      try (destruct (firstString rest metadata) as [value | ];
           [ destruct IH as [Hne [f [Hin Hf]]]; split; [exact Hne | ];
             exists f; split; [now right | exact Hf]
           | intros f value [<- | Hin] Hf; [congruence | now apply (IH f)] ]).
    destruct s as [ | c s']; cbn.
    + destruct (firstString rest metadata) as [value | ].
      * destruct IH as [Hne [f [Hin Hf]]]. split; [exact Hne | ].
        exists f. split; [now right | exact Hf].
      * intros f value [<- | Hin] Hf; [congruence | now apply (IH f)].
    + split; [discriminate | ]. exists field. split; [now left | exact Hget].
Qed.

(** The path [extractFilePath] returns, and when it returns none. *)
Lemma extractFilePath_found (metadata : Metadata) :
  match extractFilePath metadata with
  | Some path =>
      path <> EmptyString
      /\ exists field,
           In field pathFields
           /\ (get field metadata = VString path
               \/ exists nested,
                    get "source" metadata = VObject nested
                    /\ get field nested = VString path)
  | None =>
      forall field value,
        In field pathFields -> get field metadata = VString value ->
        value = EmptyString
  end.
Proof.
  unfold extractFilePath.
  pose proof (firstString_found pathFields metadata) as Htop.
  destruct (firstString pathFields metadata) as [value | ].
  - destruct Htop as [Hne [field [Hin Hget]]]. split; [exact Hne | ].
    exists field. split; [exact Hin | now left].
  - destruct (get "source" metadata) as [ | | b | q | s | items | nested ] eqn:Hsource;
      try exact Htop.
    pose proof (firstString_found pathFields nested) as Hnested.
    destruct (firstString pathFields nested) as [value | ]; [ | exact Htop].
    destruct Hnested as [Hne [field [Hin Hget]]]. split; [exact Hne | ].
    exists field. split; [exact Hin | ]. right. now exists nested.
Qed.

(** X9.  [extractFilePath] never gives the empty string: a path it returns is a
    non-empty string held by one of the five path fields, of the metadata or
    of its nested [source] object; and it gives [null] only when none of the
    five fields of the metadata holds a non-empty string. *)
Theorem extractFilePath_is_never_empty (metadata : Metadata) :
  match extractFilePath metadata with
  | Some path =>
      path <> EmptyString
      /\ exists field,
           In field pathFields
           /\ (get field metadata = VString path
               \/ exists nested,
                    get "source" metadata = VObject nested
                    /\ get field nested = VString path)
  | None =>
      forall field value,
        In field pathFields -> get field metadata = VString value ->
        value = EmptyString
  end.
Proof. apply extractFilePath_found. Qed.

(** *** [formatResults] *)

Lemma formatSource_path P source snippets item :
  formatSource P source snippets = Some item ->
  extractFilePath (orDefault (SearchResult.metadata source) []) = Some (filePath item)
  /\ id item = SearchResult.id source
  /\ context item = SearchResult.content source.
Proof.
  unfold formatSource.
  destruct (extractFilePath _) as [path | ]; [ | discriminate].
  intros H. injection H as <-. cbn. now repeat split.
Qed.

Lemma formatSource_none P source snippets :
  formatSource P source snippets = None <->
  extractFilePath (orDefault (SearchResult.metadata source) []) = None.
Proof.
  unfold formatSource. destruct (extractFilePath _); split; intros H;
    try discriminate; reflexivity.
Qed.

(** What [formatResults] returns and logs. *)
Lemma formatResults_run P sources options snippets log :
  formatResults P sources options snippets log
  = (Returned (formatted P sources snippets),
     log ++ map (fun _ => mkLog Ldebug "Skipping source with no file path")
                (skipped sources)).
Proof.
  revert log. induction sources as [ | source rest IH]; intros log; cbn.
  - now rewrite app_nil_r.
  - destruct (formatSource P source snippets) as [item | ] eqn:Hitem.
    + apply formatSource_path in Hitem as [Hpath _]. rewrite Hpath.
      unfold bind, ret. rewrite IH. reflexivity.
    + apply formatSource_none in Hitem. rewrite Hitem.
      unfold bind, logger. rewrite IH. cbn. now rewrite <- app_assoc.
Qed.

Lemma formatted_length P sources snippets :
  (List.length (formatted P sources snippets) + List.length (skipped sources)
   = List.length sources)%nat.
Proof.
  unfold formatted, skipped. induction sources as [ | source rest IH]; cbn;
    [reflexivity | ].
  destruct (formatSource P source snippets) as [item | ] eqn:Hitem.
  - apply formatSource_path in Hitem as [Hpath _]. rewrite Hpath. cbn. lia.
  - apply formatSource_none in Hitem. rewrite Hitem. cbn. lia.
Qed.

Lemma formatted_In P sources snippets item :
  In item (formatted P sources snippets) <->
  exists source, In source sources /\ formatSource P source snippets = Some item.
Proof.
  unfold formatted. rewrite in_flat_map. split.
  - intros [source [Hin Hitem]]. exists source. split; [exact Hin | ].
    destruct (formatSource P source snippets) as [item' | ]; [ | destruct Hitem].
    destruct Hitem as [<- | []]. reflexivity.
  - intros [source [Hin Hitem]]. exists source. split; [exact Hin | ].
    rewrite Hitem. now left.
Qed.

(** X10.  [formatResults] never throws.  It returns one item for each source that
    has a file path, in the order of the sources, each under its source's id
    and with a file path that is not empty; every other source is skipped
    with one record at level [debug], so that returned items and skipped
    sources add up to the sources. *)
Theorem formatResults_keeps_sources_with_a_path
    (P : Platform) sources options snippets log :
  exists items skips,
    formatResults P sources options snippets log
    = (Returned items,
       log ++ map (fun _ => mkLog Ldebug "Skipping source with no file path") skips)
    /\ skips = skipped sources
    /\ (List.length items + List.length skips = List.length sources)%nat
    /\ Forall (fun item => filePath item <> EmptyString) items
    /\ (forall item,
          In item items <->
          exists source,
            In source sources /\ formatSource P source snippets = Some item)
    /\ map id items
       = map SearchResult.id
             (filter (fun source =>
                        match extractFilePath
                                (orDefault (SearchResult.metadata source) []) with
                        | Some _ => true
                        | None => false
                        end) sources).
Proof.
  exists (formatted P sources snippets), (skipped sources).
  split; [apply formatResults_run | ]. split; [reflexivity | ].
  split; [apply formatted_length | ]. split; [ | split].
  - apply Forall_forall. intros item Hin.
    apply formatted_In in Hin as [source [_ Hitem]].
    apply formatSource_path in Hitem as [Hpath _].
    pose proof (extractFilePath_found
                  (orDefault (SearchResult.metadata source) [])) as Hne.
    rewrite Hpath in Hne. apply Hne.
  - intros item. apply formatted_In.
  - unfold formatted. induction sources as [ | source rest IH]; cbn; [reflexivity | ].
    destruct (formatSource P source snippets) as [item | ] eqn:Hitem.
    + apply formatSource_path in Hitem as [Hpath [Hid _]]. rewrite Hpath. cbn.
      now rewrite Hid, IH.
    + apply formatSource_none in Hitem. rewrite Hitem. exact IH.
Qed.


(** *** [applyFilters] *)

Lemma filterThrowing_run {A} (test : A -> Outcome bool) l :
  match filterThrowing test l with
  | Returned kept =>
      kept = filter (fun x => match test x with
                              | Returned keep => keep
                              | Threw _ => false
                              end) l
      /\ Forall (fun x => exists keep, test x = Returned keep) l
  | Threw e => Exists (fun x => test x = Threw e) l
  end.
Proof.
  induction l as [ | x rest IH]; cbn.
  - split; [reflexivity | constructor].
  - destruct (test x) as [keep | e] eqn:Hx.
    + destruct (filterThrowing test rest) as [kept | e].
      * destruct IH as [Hkept Hall]. split.
        -- destruct keep; now rewrite Hkept.
        -- constructor; [now exists keep | exact Hall].
      * now apply Exists_cons_tl.
    + now apply Exists_cons_hd.
Qed.

Lemma filter_twice {A} (p q : A -> bool) l :
  filter q (filter p l) = filter (fun x => p x && q x) l.
Proof.
  induction l as [ | x rest IH]; cbn; [reflexivity | ].
  destruct (p x); cbn; [destruct (q x) | ]; now rewrite IH.
Qed.

Lemma filter_all {A} (l : list A) : filter (fun _ => true) l = l.
Proof.
  induction l as [ | x rest IH]; cbn; [reflexivity | now rewrite IH].
Qed.

Lemma matchesLanguage_threw P targetLang r e :
  matchesLanguage P targetLang r = Threw e ->
  ~ languageTyped r
  /\ e = Error "r.metadata.language?.toLowerCase is not a function".
Proof.
  unfold matchesLanguage, languageIs, languageTyped.
  destruct (ItemMetadata.language (metadata r)); cbn; intros H;
    try discriminate;
    try (destruct (_ =? _)%string; discriminate);
    (injection H as <-; split; [intros [] | reflexivity]).
Qed.

Lemma matchesLanguage_typed P targetLang r :
  languageTyped r -> exists keep, matchesLanguage P targetLang r = Returned keep.
Proof.
  unfold matchesLanguage, languageIs, languageTyped.
  destruct (ItemMetadata.language (metadata r)); cbn; intros H;
    try contradiction; try (eexists; reflexivity).
  destruct (_ =? _)%string; eexists; reflexivity.
Qed.

(** What [applyFilters] returns, and when it throws. *)
Lemma applyFilters_run P results options :
  match applyFilters P results options with
  | Returned kept => kept = filter (passes P options) results
  | Threw e =>
      given (language options) <> None
      /\ Exists (fun r => ~ languageTyped r) results
      /\ e = Error "r.metadata.language?.toLowerCase is not a function"
  end.
Proof.
  unfold applyFilters, passes.
  destruct (given (language options)) as [l | ].
  - pose proof (filterThrowing_run (matchesLanguage P (toLowerCase P l)) results) as Hrun.
    destruct (filterThrowing _ results) as [kept | e].
    + destruct Hrun as [-> _].
      destruct (given (fileType options)) as [t | ];
        destruct (given (directory options)) as [d | ];
        rewrite ?filter_twice; apply filter_ext; intros r; unfold languageOk;
        destruct (matchesLanguage P (toLowerCase P l) r) as [[ | ] | ];
        cbn; rewrite ?andb_true_r; reflexivity.
    + split; [discriminate | ].
      apply Exists_exists in Hrun as [r [Hin Hr]].
      apply matchesLanguage_threw in Hr as [Hr ->].
      split; [ | reflexivity]. apply Exists_exists. now exists r.
  - destruct (given (fileType options)) as [t | ];
      destruct (given (directory options)) as [d | ];
      rewrite ?filter_twice;
      try (apply filter_ext; intros r; cbn; rewrite ?andb_true_r; reflexivity).
    symmetry. apply filter_all.
Qed.

(** X11.  [applyFilters] only removes items: what it returns is the input
    filtered by the conjunction of the filters asked for, in the input's
    order, and the input itself when no filter is asked for.  It throws only
    under a language filter, on an item whose recorded language is neither a
    string nor missing; without a language filter, or when every recorded
    language is a string or missing, it returns. *)
Theorem applyFilters_filters_by_all_criteria
    (P : Platform) (results : list QueryResultItem) (options : QueryOptions) :
  match applyFilters P results options with
  | Returned kept => kept = filter (passes P options) results
  | Threw e =>
      given (language options) <> None
      /\ Exists (fun r => ~ languageTyped r) results
      /\ e = Error "r.metadata.language?.toLowerCase is not a function"
  end
  /\ (Forall languageTyped results ->
      applyFilters P results options = Returned (filter (passes P options) results))
  /\ (given (language options) = None ->
      given (fileType options) = None ->
      given (directory options) = None ->
      applyFilters P results options = Returned results).
Proof.
  pose proof (applyFilters_run P results options) as Hrun.
  split; [exact Hrun | ]. split.
  - intros Htyped. destruct (applyFilters P results options) as [kept | e];
      [now rewrite Hrun | ].
    destruct Hrun as [_ [Hex _]]. apply Exists_exists in Hex as [r [Hin Hr]].
    rewrite Forall_forall in Htyped. now destruct (Hr (Htyped r Hin)).
  - intros Hl Ht Hd. destruct (applyFilters P results options) as [kept | e].
    + rewrite Hrun. unfold passes. rewrite Hl, Ht, Hd. f_equal. apply filter_all.
    + now destruct Hrun as [Hne _].
Qed.


(** *** [query] *)

Lemma insertSorted_In {A} (compare : A -> A -> Number) x y l :
  In y (insertSorted compare x l) <-> y = x \/ In y l.
Proof.
  induction l as [ | z rest IH]; cbn.
  - split; intros [H | H]; auto.
  - destruct (notPositive (compare x z)); cbn.
    + split; intros [H | H]; auto.
    + rewrite IH. split; intros H; decompose [or] H; auto.
Qed.

Lemma sort_In {A} (compare : A -> A -> Number) y l :
  In y (sort compare l) <-> In y l.
Proof.
  induction l as [ | x rest IH]; cbn; [reflexivity | ].
  rewrite insertSorted_In, IH. split; intros [H | H]; auto.
Qed.

Lemma firstn_subset {A} n (l : list A) y : In y (firstn n l) -> In y l.
Proof.
  revert l. induction n as [ | n IH]; intros [ | x rest]; cbn; try tauto.
  intros [H | H]; [now left | right; now apply IH].
Qed.

Lemma slice0_In {A} (l : list A) end_ y : In y (slice0 l end_) -> In y l.
Proof.
  unfold slice0. apply firstn_subset.
Qed.

(** The steps of a fulfilled [query], composed. *)
Lemma query_pipeline client P question options startTime finishTime log resp log' :
  query client P question options startTime finishTime log = (Returned resp, log') ->
  exists retrieval,
    GraphRAGClient.retrieve client (buildEnhancedQuery question options) "hybrid"
    = Returned retrieval
    /\ QueryResponse.results resp
       = slice0 (sort byConfidence
                   (filter (passes P options)
                      (formatted P (orDefault (RetrievalResult.sources retrieval) [])
                         (orDefault (includeSnippets options) true))))
                (orDefault (limit options) 20)
    /\ QueryResponse.totalResults resp
       = Z.of_nat (List.length
                     (filter (passes P options)
                        (formatted P (orDefault (RetrievalResult.sources retrieval) [])
                           (orDefault (includeSnippets options) true))))
    /\ QueryResponse.maxConfidence resp
       = maxOf (map confidence (QueryResponse.results resp))
    /\ QueryResponse.query resp = question
    /\ QueryResponse.executionTime resp = finishTime - startTime.
Proof.
  unfold query, try_catch, bind, await, call, logger, ret, throw.
  destruct (GraphRAGClient.retrieve client _ _) as [retrieval | e]; [ | discriminate].
  rewrite formatResults_run.
  pose proof (applyFilters_run P
                (formatted P (orDefault (RetrievalResult.sources retrieval) [])
                   (orDefault (includeSnippets options) true)) options) as Hrun.
  destruct (applyFilters P _ options) as [filtered | e]; [ | discriminate].
  intros Hret. injection Hret as Hresp _. subst resp filtered. cbn.
  exists retrieval. repeat split.
Qed.

(** The items built from sources whose scores are numbers have finite
    confidences. *)
Lemma formatted_confidence P sources snippets :
  scored sources ->
  Forall (fun item => isFinite (confidence item) = true) (formatted P sources snippets).
Proof.
  intros Hscored. apply Forall_forall. intros item Hin.
  apply formatted_In in Hin as [source [Hsource Hitem]].
  unfold formatSource in Hitem. destruct (extractFilePath _); [ | discriminate].
  injection Hitem as <-. cbn. apply QueryFacts.calculateConfidence_finite.
  unfold scored in Hscored. rewrite Forall_forall in Hscored. now apply Hscored.
Qed.




(** *** [maxConfidence] *)

Lemma fold_max_upper rest v :
  (v <= fold_left Qmax rest v)%Q
  /\ Forall (fun x => (x <= fold_left Qmax rest v)%Q) rest.
Proof.
  revert v. induction rest as [ | x rest IH]; intros v; cbn.
  - split; [lra | constructor].
  - destruct (IH (Qmax v x)) as [Hacc Hrest]. split.
    + eapply Qle_trans; [apply Q.le_max_l | exact Hacc].
    + constructor; [ | exact Hrest].
      eapply Qle_trans; [apply Q.le_max_r | exact Hacc].
Qed.

Lemma fold_max_of_largest rest v v' :
  (v' == v)%Q -> Forall (fun x => (x <= v)%Q) rest ->
  (fold_left Qmax rest v' == v)%Q.
Proof.
  revert v'. induction rest as [ | x rest IH]; intros v' Heq Hall; cbn.
  - exact Heq.
  - inversion Hall as [ | ? ? Hx Hrest]; subst. apply IH; [ | exact Hrest].
    rewrite Q.max_l; [exact Heq | lra].
Qed.

(** [Math.max] over finite numbers is the maximum of the rationals. *)
Lemma fold_max_Num rest v :
  fold_left Math_max (map Num rest) (Num v) = Num (fold_left Qmax rest v).
Proof.
  revert v. induction rest as [ | x rest IH]; intros v; cbn; [reflexivity | apply IH].
Qed.

Lemma finite_numbers values :
  Forall (fun v => isFinite v = true) values ->
  exists rationals, values = map Num rationals.
Proof.
  induction 1 as [ | v rest Hv _ [rationals ->]]; [now exists [] | ].
  destruct (QueryFacts.isFinite_Num v Hv) as [q ->]. now exists (q :: rationals).
Qed.

(** [Math.max] is [NaN] as soon as one of its arguments is. *)
Lemma fold_max_NaN rest : fold_left Math_max rest NaN = NaN.
Proof. induction rest as [ | x rest IH]; cbn; [reflexivity | exact IH]. Qed.

Lemma fold_max_with_NaN rest v :
  In NaN rest -> fold_left Math_max rest v = NaN.
Proof.
  revert v. induction rest as [ | x rest IH]; intros v; cbn; [tauto | ].
  intros [-> | Hin]; [ | now apply IH].
  replace (Math_max v NaN) with NaN by (now destruct v). apply fold_max_NaN.
Qed.

Lemma maxOf_with_NaN values : In NaN values -> maxOf values = NaN.
Proof.
  destruct values as [ | v rest]; cbn; [tauto | ].
  intros [-> | Hin]; [apply fold_max_NaN | now apply fold_max_with_NaN].
Qed.

(** X13.  The [maxConfidence] of a fulfilled [query] is 0 when no result is
    returned, and [NaN] as soon as a returned result has the confidence
    [NaN].  When no retrieved source has the score [NaN], it is the
    confidence of the first result, and no result has a greater one. *)
Theorem maxConfidence_is_the_first_confidence
    client P question options startTime finishTime log resp log' :
  query client P question options startTime finishTime log = (Returned resp, log') ->
  (QueryResponse.results resp = [] -> QueryResponse.maxConfidence resp = Num 0)
  /\ (Exists (fun r => confidence r = NaN) (QueryResponse.results resp) ->
      QueryResponse.maxConfidence resp = NaN)
  /\ ((forall retrieval,
         GraphRAGClient.retrieve client (buildEnhancedQuery question options) "hybrid"
         = Returned retrieval ->
         scored (orDefault (RetrievalResult.sources retrieval) [])) ->
      (forall first rest,
          QueryResponse.results resp = first :: rest ->
          atMost (QueryResponse.maxConfidence resp) (confidence first)
          /\ atMost (confidence first) (QueryResponse.maxConfidence resp))
      /\ Forall (fun r => atMost (confidence r) (QueryResponse.maxConfidence resp))
                (QueryResponse.results resp)).
Proof.
  intros Hquery.
  destruct (query_pipeline _ _ _ _ _ _ _ _ _ Hquery)
    as [retrieval [Hretrieve [Hresults [_ [Hmax _]]]]].
  rewrite Hmax. split; [intros ->; reflexivity | ]. split.
  { intros Hnan. apply maxOf_with_NaN. apply Exists_exists in Hnan as [r [Hin Hr]].
    rewrite <- Hr. now apply in_map. }
  intros Hscored. specialize (Hscored retrieval Hretrieve).
  assert (Hfinite : Forall (fun item => isFinite (confidence item) = true)
                           (QueryResponse.results resp)).
  { rewrite Hresults. unfold slice0. apply QueryFacts.firstn_Forall.
    apply QueryFacts.sort_Forall. apply QueryFacts.filter_Forall.
    now apply formatted_confidence. }
  assert (Hsorted : StronglySorted ranked (QueryResponse.results resp)).
  { rewrite Hresults. unfold slice0. apply QueryFacts.firstn_sorted.
    apply (QueryFacts.sort_sorted QueryResultItem confidence byConfidence);
      [reflexivity | ].
    apply QueryFacts.filter_Forall. now apply formatted_confidence. }
  assert (Hnumbers : exists rationals,
             map confidence (QueryResponse.results resp) = map Num rationals).
  { apply finite_numbers. now apply Forall_map. }
  destruct Hnumbers as [rationals Hrationals].
  assert (Hranked : StronglySorted (fun a b => (b <= a)%Q) rationals).
  { clear - Hsorted Hrationals. revert rationals Hrationals.
    induction Hsorted as [ | r rest Hrest IH Hr]; intros [ | q qs]; cbn;
      try discriminate; [constructor | ].
    intros [= Hq Hqs]. constructor; [now apply IH | ].
    apply Forall_forall. intros x Hx.
    assert (Hin : In (Num x) (map confidence rest)) by (rewrite Hqs; now apply in_map).
    apply in_map_iff in Hin as [item [Hitem Hin]].
    rewrite Forall_forall in Hr. specialize (Hr item Hin).
    unfold ranked, notBelow in Hr. now rewrite Hitem, Hq in Hr. }
  split.
  - intros first rest Hfirst. rewrite Hfirst in *. cbn [map] in *.
    destruct rationals as [ | q qs]; [discriminate | ].
    injection Hrationals as Hq Hqs. cbn [maxOf].
    rewrite Hq, Hqs, (fold_max_Num qs q).
    inversion Hranked as [ | ? ? _ Hall]; subst.
    pose proof (fold_max_of_largest qs q q (Qeq_refl q) Hall) as Heq.
    cbn. split; lra.
  - apply Forall_forall. intros r Hr.
    assert (Hin : In (confidence r) (map confidence (QueryResponse.results resp)))
      by now apply in_map.
    rewrite Hrationals in *. apply in_map_iff in Hin as [x [Hx Hin]]. rewrite <- Hx.
    destruct rationals as [ | q qs]; [destruct Hin | ].
    cbn [map maxOf]. rewrite (fold_max_Num qs q).
    destruct (fold_max_upper qs q) as [Hq Hqs]. cbn.
    destruct Hin as [<- | Hin]; [exact Hq | ].
    rewrite Forall_forall in Hqs. now apply Hqs.
Qed.

(** [query] on the three sample sources with a limit of two. *)
Lemma maxConfidence_is_the_first_confidence_witness :
  exists resp log',
    query Samples.client Samples.platform "where is a defined"
          (Samples.limitedTo 2) 1000 1012 [] = (Returned resp, log')
    /\ (QueryResponse.results resp = [] -> QueryResponse.maxConfidence resp = Num 0)
    /\ (Exists (fun r => confidence r = NaN) (QueryResponse.results resp) ->
        QueryResponse.maxConfidence resp = NaN)
    /\ (forall first rest,
          QueryResponse.results resp = first :: rest ->
          atMost (QueryResponse.maxConfidence resp) (confidence first)
          /\ atMost (confidence first) (QueryResponse.maxConfidence resp))
    /\ Forall (fun r => atMost (confidence r) (QueryResponse.maxConfidence resp))
              (QueryResponse.results resp).
Proof.
  destruct (query Samples.client Samples.platform "where is a defined"
                  (Samples.limitedTo 2) 1000 1012 []) as [[resp | e] log'] eqn:Hquery;
    [ | vm_compute in Hquery; discriminate].
  exists resp, log'. split; [reflexivity | ].
  destruct (maxConfidence_is_the_first_confidence _ _ _ _ _ _ _ _ _ Hquery)
    as (Hnone & Hnan & Hnumbers).
  split; [exact Hnone | ]. split; [exact Hnan | ].
  apply Hnumbers. intros retrieval [= <-]. exact QueryFacts.threeSources_scored.
Defined.

(** A score that is [NaN] gives the confidence [NaN]; the comparator of the
    sort then answers [NaN], the results stay in the order of the sources,
    which is not one by confidence, and [maxConfidence] is [NaN]. *)
Example query_with_a_score_that_is_NaN :
  match result (query (Samples2.answering Samples2.unscoredSources) Samples.platform
                      "where is a defined" (Samples.limitedTo 5) 1000 1012) with
  | Returned resp =>
      map confidence (QueryResponse.results resp)
      = [Num (5000 # 100); NaN; Num (9286 # 100)]
      /\ QueryResponse.maxConfidence resp = NaN
  | Threw _ => False
  end.
Proof. vm_compute. split; reflexivity. Qed.

(** *** Failures *)

(** X14.  [query] throws only [Error]s of its own: whatever made it fail, the
    caller gets an [Error] whose message is [Query failed: ] followed by the
    cause's message ([Unknown error] for a thrown value that is no
    [Error]), and the last record of the log is the failure, at level
    [error].  The cause is the rejection of the retrieval, or the
    [TypeError] of the language filter. *)
Theorem query_wraps_every_failure
    client P question options startTime finishTime log e log' :
  query client P question options startTime finishTime log = (Threw e, log') ->
  exists cause earlier,
    e = Error ("Query failed: " ++ messageOf cause)
    /\ log' = earlier ++ [mkLog Lerror "Query failed"]
    /\ (GraphRAGClient.retrieve client (buildEnhancedQuery question options) "hybrid"
        = Threw cause
        \/ (given (language options) <> None
            /\ cause = Error "r.metadata.language?.toLowerCase is not a function")).
Proof.
  unfold query, try_catch, bind, await, call, logger, ret, throw.
  destruct (GraphRAGClient.retrieve client _ _) as [retrieval | cause].
  - rewrite formatResults_run.
    pose proof (applyFilters_run P
                  (formatted P (orDefault (RetrievalResult.sources retrieval) [])
                     (orDefault (includeSnippets options) true)) options) as Hrun.
    destruct (applyFilters P _ options) as [filtered | cause]; [discriminate | ].
    destruct Hrun as [Hgiven [_ Hcause]].
    intros H. injection H as <- <-.
    eexists. eexists. split; [reflexivity | ]. split; [reflexivity | ].
    right. now split.
  - intros H. injection H as <- <-.
    eexists. eexists. split; [reflexivity | ]. split; [reflexivity | ]. now left.
Qed.

(** A query against a service that cannot be reached. *)
Lemma query_wraps_every_failure_witness :
  exists cause earlier,
    Error "Query failed: connect ECONNREFUSED"
    = Error ("Query failed: " ++ messageOf cause)
    /\ [mkLog Linfo "Processing natural language query";
        mkLog Lerror "Query failed"]
       = earlier ++ [mkLog Lerror "Query failed"]
    /\ (GraphRAGClient.retrieve Samples2.unreachable
          (buildEnhancedQuery "where is a defined" (Samples.limitedTo 2)) "hybrid"
        = Threw cause
        \/ (given (language (Samples.limitedTo 2)) <> None
            /\ cause = Error "r.metadata.language?.toLowerCase is not a function")).
Proof.
  apply (query_wraps_every_failure Samples2.unreachable Samples.platform
           "where is a defined" (Samples.limitedTo 2) 1000 1012 []).
  reflexivity.
Defined.

End PipelineFacts.

(* ----------------------------------------------------------------- *)
(** ** More on the query handler: semantic search and strings *)

Module SearchFacts.
Import JS Query Criteria Text.
Local Open Scope js_scope.

(** The steps of a fulfilled [semanticSearch], composed. *)
Lemma semanticSearch_pipeline client P term options log resp log' :
  semanticSearch client P term options log = (Returned resp, log') ->
  exists found,
    GraphRAGClient.search client
      ("Find code that is semantically similar to or implements: " ++ term)%string
      {| SearchOptions.limit := orDefault (limit options) 15 * 2;
         SearchOptions.domain := "code" |}
    = Returned found
    /\ SemanticSearchResult.results resp
       = slice0 (sort byRelevance (filter (passes P options) (formatted P found true)))
                (orDefault (limit options) 15)
    /\ SemanticSearchResult.totalResults resp
       = Z.of_nat (List.length (SemanticSearchResult.results resp))
    /\ SemanticSearchResult.term resp = term.
Proof.
  unfold semanticSearch, try_catch, bind, await, call, logger, ret, throw.
  destruct (GraphRAGClient.search client _ _) as [found | e]; [ | discriminate].
  rewrite PipelineFacts.formatResults_run.
  pose proof (PipelineFacts.applyFilters_run P (formatted P found true) options) as Hrun.
  destruct (applyFilters P _ options) as [filtered | e]; [ | discriminate].
  intros Hret. injection Hret as Hresp _. subst resp filtered. cbn.
  exists found. repeat split.
Qed.

(** The items built from sources whose scores are numbers have finite
    relevances. *)
Lemma formatted_relevance P sources snippets :
  rounds P -> scored sources ->
  Forall (fun item => isFinite (relevance item) = true) (formatted P sources snippets).
Proof.
  intros Hrounds Hscored. apply Forall_forall. intros item Hin.
  apply PipelineFacts.formatted_In in Hin as [source [Hsource Hitem]].
  unfold formatSource in Hitem. destruct (extractFilePath _); [ | discriminate].
  injection Hitem as <-. cbn [relevance].
  unfold scored in Hscored. rewrite Forall_forall in Hscored.
  destruct (ScoreFacts.calculateRelevance_finite P (SearchResult.score source)
              (orDefault (SearchResult.metadata source) []) Hrounds
              (Hscored source Hsource)) as (r & -> & _).
  reflexivity.
Qed.

(** X15.  A fulfilled [semanticSearch] asks the service for twice its limit
    (15 when none is given) and returns only found sources that have a file
    path and pass the filters, each with a code snippet.  Its [totalResults]
    is the number of results it returns, so with a limit that is not
    negative it never exceeds the limit.  When no found source has the score
    [NaN], the results are those sources sorted by relevance, largest first,
    and cut at the limit; the relevances are the binary64 numbers the code
    computes, rounding being taken to keep the order, to leave 0, 1 and 2 as
    they are, and to leave the numbers it gives as they are. *)
Theorem semanticSearch_ranks_by_relevance
    client P term options log resp log' :
  semanticSearch client P term options log = (Returned resp, log') ->
  exists found,
    GraphRAGClient.search client
      ("Find code that is semantically similar to or implements: " ++ term)%string
      {| SearchOptions.limit := orDefault (limit options) 15 * 2;
         SearchOptions.domain := "code" |}
    = Returned found
    /\ (forall r, In r (SemanticSearchResult.results resp) ->
                  In r (filter (passes P options) (formatted P found true)))
    /\ SemanticSearchResult.totalResults resp
       = Z.of_nat (List.length (SemanticSearchResult.results resp))
    /\ (0 <= orDefault (limit options) 15 ->
        SemanticSearchResult.totalResults resp <= orDefault (limit options) 15)
    /\ Forall (fun r => code r <> None) (SemanticSearchResult.results resp)
    /\ (rounds P -> scored found ->
        SemanticSearchResult.results resp
        = slice0 (sort byRelevance (filter (passes P options) (formatted P found true)))
                 (orDefault (limit options) 15)
        /\ StronglySorted (notBelow relevance) (SemanticSearchResult.results resp)).
Proof.
  intros Hsearch.
  destruct (semanticSearch_pipeline _ _ _ _ _ _ _ Hsearch)
    as [found [Hfound [Hresults [Htotal _]]]].
  exists found. split; [exact Hfound | ].
  assert (Hmember : forall r, In r (SemanticSearchResult.results resp) ->
                              In r (filter (passes P options) (formatted P found true))).
  { intros r Hin. rewrite Hresults in Hin.
    now apply PipelineFacts.slice0_In, PipelineFacts.sort_In in Hin. }
  split; [exact Hmember | ]. split; [exact Htotal | ]. split; [ | split].
  - intros Hlimit. rewrite Htotal, Hresults. now apply QueryFacts.slice0_length_limit.
  - apply Forall_forall. intros r Hin. apply Hmember, filter_In in Hin as [Hin _].
    apply PipelineFacts.formatted_In in Hin as [source [_ Hitem]].
    unfold formatSource in Hitem.
    destruct (extractFilePath _); [ | discriminate].
    injection Hitem as <-. cbn. discriminate.
  - intros Hrounds Hscored. split; [exact Hresults | ].
    rewrite Hresults. unfold slice0. apply QueryFacts.firstn_sorted.
    apply (QueryFacts.sort_sorted QueryResultItem relevance byRelevance);
      [reflexivity | ].
    apply QueryFacts.filter_Forall. now apply formatted_relevance.
Qed.

(** A search over the three sample sources with a limit of two. *)
Lemma semanticSearch_ranks_by_relevance_witness :
  exists resp log' found,
    semanticSearch Samples.client Samples.platform "assignment"
                   (Samples.limitedTo 2) [] = (Returned resp, log')
    /\ GraphRAGClient.search Samples.client
         ("Find code that is semantically similar to or implements: "
          ++ "assignment")%string
         {| SearchOptions.limit := orDefault (limit (Samples.limitedTo 2)) 15 * 2;
            SearchOptions.domain := "code" |}
       = Returned found
    /\ (forall r, In r (SemanticSearchResult.results resp) ->
                  In r (filter (passes Samples.platform (Samples.limitedTo 2))
                               (formatted Samples.platform found true)))
    /\ SemanticSearchResult.totalResults resp
       = Z.of_nat (List.length (SemanticSearchResult.results resp))
    /\ (0 <= orDefault (limit (Samples.limitedTo 2)) 15 ->
        SemanticSearchResult.totalResults resp
        <= orDefault (limit (Samples.limitedTo 2)) 15)
    /\ Forall (fun r => code r <> None) (SemanticSearchResult.results resp)
    /\ SemanticSearchResult.results resp
       = slice0 (sort byRelevance
                   (filter (passes Samples.platform (Samples.limitedTo 2))
                           (formatted Samples.platform found true)))
                (orDefault (limit (Samples.limitedTo 2)) 15)
    /\ StronglySorted (notBelow relevance) (SemanticSearchResult.results resp).
Proof.
  destruct (semanticSearch Samples.client Samples.platform "assignment"
              (Samples.limitedTo 2) []) as [[resp | e] log'] eqn:Hsearch;
    [ | vm_compute in Hsearch; discriminate].
  exists resp, log'.
  destruct (semanticSearch_ranks_by_relevance _ _ _ _ _ _ _ Hsearch)
    as (found & Hfound & Hmember & Htotal & Hlimit & Hcode & Hsorted).
  exists found. split; [reflexivity | ]. split; [exact Hfound | ].
  split; [exact Hmember | ]. split; [exact Htotal | ]. split; [exact Hlimit | ].
  split; [exact Hcode | ].
  apply Hsorted; [exact ScoreFacts.samples_round | ].
  injection Hfound as <-. exact QueryFacts.threeSources_scored.
Defined.

(** The sample search, evaluated. *)
Example semanticSearch_two_of_three :
  match result (semanticSearch Samples.client Samples.platform "assignment"
                               (Samples.limitedTo 2)) with
  | Returned resp =>
      map id (SemanticSearchResult.results resp) = ["s2"; "s3"]
      /\ SemanticSearchResult.totalResults resp = 2
  | Threw _ => False
  end.
Proof. vm_compute. repeat split. Qed.

(** *** [getFileExtension] *)

Lemma lastIndexOf_none c s : ~ occurs c s -> lastIndexOf c s = None.
Proof.
  induction s as [ | a rest IH]; cbn; [reflexivity | ].
  intros H. rewrite IH by tauto.
  destruct (Ascii.eqb_spec a c); [tauto | reflexivity].
Qed.

Lemma lastIndexOf_last c pre suf :
  ~ occurs c suf ->
  lastIndexOf c (pre ++ String c suf) = Some (String.length pre).
Proof.
  intros Hsuf. induction pre as [ | a pre IH]; cbn.
  - rewrite (lastIndexOf_none c suf Hsuf). now rewrite Ascii.eqb_refl.
  - now rewrite IH.
Qed.

Lemma substring_all s : substring 0 (String.length s) s = s.
Proof.
  induction s as [ | a rest IH]; cbn; [reflexivity | now rewrite IH].
Qed.

Lemma substring_after pre c suf :
  substring (S (String.length pre))
            (String.length (pre ++ String c suf) - S (String.length pre))
            (pre ++ String c suf) = suf.
Proof.
  induction pre as [ | a pre IH]; cbn.
  - rewrite Nat.sub_0_r. apply substring_all.
  - exact IH.
Qed.

Lemma length_append a b :
  String.length (a ++ b) = (String.length a + String.length b)%nat.
Proof.
  induction a as [ | c a IH]; cbn; [reflexivity | now rewrite IH].
Qed.

(** X16.  [getFileExtension] reads what follows the last dot of a path, in lower
    case: a path without a dot and a path that ends in its last dot have the
    empty extension. *)
Theorem getFileExtension_reads_after_the_last_dot (P : Platform) :
  (forall path, ~ occurs "."%char path -> getFileExtension P path = "")
  /\ (forall stem, getFileExtension P (stem ++ ".") = "")
  /\ (forall stem extension,
        ~ occurs "."%char extension -> extension <> EmptyString ->
        getFileExtension P (stem ++ "." ++ extension) = toLowerCase P extension).
Proof.
  unfold getFileExtension. repeat split.
  - intros path Hpath. now rewrite lastIndexOf_none.
  - intros stem. rewrite (lastIndexOf_last "." stem ""); [ | intros []].
    assert (Hlen : (String.length (stem ++ ".") - 1 = String.length stem)%nat)
      by (rewrite length_append; cbn; lia).
    now rewrite Hlen, Nat.eqb_refl.
  - intros stem extension Hfree Hne.
    change (stem ++ "." ++ extension)%string with (stem ++ String "." extension)%string.
    rewrite (lastIndexOf_last "." stem extension Hfree).
    rewrite substring_after.
    destruct (Nat.eqb_spec (String.length stem)
                (String.length (stem ++ String "." extension) - 1)) as [Heq | _];
      [ | reflexivity].
    rewrite length_append in Heq. cbn in Heq.
    destruct extension; [contradiction | cbn in Heq; lia].
Qed.

(** *** [buildEnhancedQuery] *)

Lemma append_empty s : (s ++ "")%string = s.
Proof.
  induction s as [ | a s IH]; cbn; [reflexivity | now rewrite IH].
Qed.

(** X17.  [buildEnhancedQuery] only adds to the question: the question comes
    first, unchanged, and with no language, file type or directory asked for
    nothing follows it. *)
Theorem buildEnhancedQuery_extends_the_question question (options : QueryOptions) :
  (exists hints, buildEnhancedQuery question options = (question ++ hints)%string)
  /\ (given (language options) = None ->
      given (fileType options) = None ->
      given (directory options) = None ->
      buildEnhancedQuery question options = question).
Proof.
  unfold buildEnhancedQuery. split.
  - destruct (given (language options)), (given (fileType options)),
      (given (directory options));
      first [ exists ""; cbn; now rewrite append_empty
            | eexists; cbn [app String.concat]; reflexivity ].
  - intros -> -> ->. reflexivity.
Qed.

(** *** Binary64 *)

(** The rounding of the samples is that of the kernel's binary64 numbers on
    the products [calculateRelevance] forms: each pair is a score and one of
    the literals 1.1, 1.15 and 1.05. *)
Example nearest_is_binary64 :
  forallb (fun pair : PrimFloat.float * PrimFloat.float =>
             match Samples2.ofFloat (fst pair), Samples2.ofFloat (snd pair) with
             | Num x, Num y =>
                 Samples2.sameNumber (Samples2.nearest (x * y))
                                     (Samples2.ofFloat (fst pair * snd pair)%float)
             | _, _ => false
             end)
          [ (0x1.999999999999ap-2, 0x1.199999999999ap+0);
            (0x1.999999999999ap-2, 0x1.2666666666666p+0);
            (0x1.999999999999ap-2, 0x1.0cccccccccccdp+0);
            (0x1.d70a3d70a3d71p-2, 0x1.199999999999ap+0);
            (0x1.d70a3d70a3d71p-2, 0x1.2666666666666p+0);
            (0x1.d70a3d70a3d71p-2, 0x1.0cccccccccccdp+0);
            (0x1.ccccccccccccdp-1, 0x1.199999999999ap+0);
            (0x1.fffffffffffffp+1023, 0x1.199999999999ap+0);
            (0x0.0000000000001p-1022, 0x1.0cccccccccccdp+0) ]%float
  = true
  /\ map Samples2.nearest [11 # 10; 115 # 100; 105 # 100; 4 # 10; 46 # 100]
     = map Samples2.ofFloat
           [0x1.199999999999ap+0; 0x1.2666666666666p+0; 0x1.0cccccccccccdp+0;
            0x1.999999999999ap-2; 0x1.d70a3d70a3d71p-2]%float.
Proof. vm_compute. split; reflexivity. Qed.

(** The relevance is compared as the code computes it: 0.4 boosted by 1.15
    is 0.45999999999999996 and ranks below 0.46, so a search cut at one
    result returns the second source. *)
Example semanticSearch_follows_binary64 :
  map (fun source =>
         calculateRelevance Samples2.ieee (SearchResult.score source)
           (orDefault (SearchResult.metadata source) []))
      Samples2.closeSources
  = [Num (8286623314361712 # 18014398509481984);
     Num (8286623314361713 # 18014398509481984)]
  /\ match result (semanticSearch (Samples2.answering Samples2.closeSources)
                     Samples2.ieee "assignment" (Samples.limitedTo 1)) with
     | Returned resp => map id (SemanticSearchResult.results resp) = ["s2"]
     | Threw _ => False
     end.
Proof. vm_compute. split; reflexivity. Qed.

End SearchFacts.

(* ----------------------------------------------------------------- *)
(** ** The handlers over git's history *)

Module EpisodicFacts.
Import JS Text Episodic.
Local Open Scope js_scope.

(** *** Lines *)

Lemma lines_joinLines text : joinLines (lines text) = text.
Proof. apply GitCoverage.split_join. Qed.

Lemma skipn_subset {A} n (l : list A) y : In y (skipn n l) -> In y l.
Proof.
  revert l. induction n as [ | n IH]; intros [ | x rest]; cbn; try tauto.
  intros H. right. now apply IH.
Qed.

Lemma slice_In {A} (l : list A) start end_ y : In y (slice l start end_) -> In y l.
Proof.
  unfold slice. intros H.
  apply PipelineFacts.firstn_subset in H. now apply skipn_subset in H.
Qed.

Lemma slice_length {A} (l : list A) start end_ :
  0 <= start -> 0 <= end_ ->
  Z.of_nat (List.length (slice l start end_)) <= Z.max (end_ - start) 0.
Proof.
  intros Hstart Hend. unfold slice. rewrite length_firstn, length_skipn.
  destruct (Z.ltb_spec start 0); [lia | ].
  destruct (Z.ltb_spec end_ 0); lia.
Qed.

Lemma slice_all {A} (l : list A) end_ :
  Z.of_nat (List.length l) <= end_ -> slice l 0 end_ = l.
Proof.
  intros Hend. unfold slice. cbn [Z.ltb Z.compare].
  destruct (Z.ltb_spec end_ 0); [lia | ].
  rewrite (Z.min_l 0) by lia. rewrite (Z.min_r end_) by lia.
  rewrite Z.sub_0_r, Nat2Z.id. cbn. apply firstn_all.
Qed.

(** X18.  The snippet the handlers cut out of a file holds only lines of
    the file; for a start line of 1 or more and an end line that is not
    negative it has at most [endLine - startLine + 1] lines; and it is the
    whole file when the range runs from line 1 to the last line or beyond. *)
Theorem snippet_is_a_range_of_the_file (fileContent : string) (startLine endLine : Z) :
  (forall line,
      In line (slice (lines fileContent) (startLine - 1) endLine) ->
      In line (lines fileContent))
  /\ (1 <= startLine -> 0 <= endLine ->
      Z.of_nat (List.length (slice (lines fileContent) (startLine - 1) endLine))
      <= Z.max (endLine - startLine + 1) 0)
  /\ (Z.of_nat (List.length (lines fileContent)) <= endLine ->
      snippet fileContent 1 endLine = fileContent).
Proof.
  repeat split.
  - intros line. apply slice_In.
  - intros Hstart Hend. etransitivity; [apply slice_length; lia | lia].
  - intros Hend. unfold snippet. cbn [Z.sub Z.add Z.opp Z.pos_sub].
    rewrite slice_all by exact Hend. apply lines_joinLines.
Qed.

(** *** [filterRelevantCommits] *)




(** *** [extractRelevantDiff] *)

Lemma split_free sep piece : ~ occurs sep piece -> Git.split sep piece = [piece].
Proof.
  induction piece as [ | c rest IH]; cbn; [reflexivity | ].
  intros H. destruct (Ascii.eqb_spec c sep) as [Heq | Hne]; [tauto | ].
  rewrite IH by tauto. reflexivity.
Qed.

Lemma split_app_free sep piece rest :
  ~ occurs sep piece ->
  Git.split sep (piece ++ String sep rest) = piece :: Git.split sep rest.
Proof.
  induction piece as [ | c piece IH]; cbn.
  - now rewrite Ascii.eqb_refl.
  - intros H. destruct (Ascii.eqb_spec c sep) as [Heq | Hne]; [tauto | ].
    rewrite IH by tauto. reflexivity.
Qed.

(** [pieces.join(sep).split(sep)] gives the pieces back, when there is one
    at least and none holds the separator. *)
Lemma joinLines_lines pieces :
  pieces <> [] -> Forall (fun piece => ~ occurs Git.newline piece) pieces ->
  lines (joinLines pieces) = pieces.
Proof.
  unfold lines, joinLines. intros Hne Hall.
  induction Hall as [ | piece rest Hpiece Hrest IH]; [contradiction | ].
  destruct rest as [ | next rest].
  - cbn. now apply split_free.
  - change (String.concat (String Git.newline "") (piece :: next :: rest))
      with (piece ++ String Git.newline
              (String.concat (String Git.newline "") (next :: rest)))%string.
    rewrite split_app_free by exact Hpiece. f_equal. apply IH. discriminate.
Qed.

Lemma relevantLines_sound symbol inSection diffLines :
  Forall (fun line => In line diffLines /\ relevantLine symbol line)
         (relevantLines symbol inSection diffLines).
Proof.
  revert inSection. induction diffLines as [ | line rest IH]; intros inSection; cbn;
    [constructor | ].
  assert (Hrest : forall b, Forall (fun l => (line = l \/ In l rest) /\ relevantLine symbol l)
                                   (relevantLines symbol b rest)).
  { intros b. eapply Forall_impl; [ | apply IH]. cbn. intros l [Hin Hl]. tauto. }
  unfold relevantLine.
  destruct (Query.startsWith line "@@") eqn:Hhunk;
    [constructor; [tauto | apply Hrest] | ].
  destruct (Query.includes line symbol) eqn:Hsym;
    [constructor; [tauto | apply Hrest] | ].
  destruct (inSection && _) eqn:Hchange.
  - constructor; [ | apply Hrest].
    apply andb_true_iff in Hchange as [_ Hchange].
    apply orb_true_iff in Hchange. tauto.
  - destruct (Query.startsWith line "diff --git"); apply Hrest.
Qed.

Lemma relevantLines_complete symbol inSection diffLines line :
  In line diffLines ->
  Query.startsWith line "@@" = true \/ Query.includes line symbol = true ->
  In line (relevantLines symbol inSection diffLines).
Proof.
  revert inSection. induction diffLines as [ | first rest IH]; intros inSection; cbn;
    [tauto | ].
  intros [<- | Hin] Hline.
  - destruct (Query.startsWith first "@@"); [now left | ].
    destruct (Query.includes first symbol); [now left | ].
    destruct Hline; discriminate.
  - destruct (Query.startsWith first "@@"); [right; now apply IH | ].
    destruct (Query.includes first symbol); [right; now apply IH | ].
    destruct (inSection && _); [right; now apply IH | ].
    destruct (Query.startsWith first "diff --git"); now apply IH.
Qed.

Lemma relevantLines_length symbol inSection diffLines :
  (List.length (relevantLines symbol inSection diffLines) <= List.length diffLines)%nat.
Proof.
  revert inSection. induction diffLines as [ | line rest IH]; intros inSection; cbn;
    [lia | ].
  destruct (Query.startsWith line "@@"); [cbn; specialize (IH false); lia | ].
  destruct (Query.includes line symbol); [cbn; specialize (IH true); lia | ].
  destruct (inSection && _); [cbn; specialize (IH inSection); lia | ].
  destruct (Query.startsWith line "diff --git");
    [specialize (IH false) | specialize (IH inSection)]; lia.
Qed.

(** X20.  [extractRelevantDiff] returns at most 50 lines, each a line of the diff
    that is a hunk header, mentions the symbol, or is an added or removed
    line; of a diff of at most 50 lines it keeps every hunk header and every
    line that mentions the symbol. *)
Theorem extractRelevantDiff_keeps_at_most_50_relevant_lines (diff symbol : string) :
  (List.length (lines (extractRelevantDiff diff symbol)) <= 50)%nat
  /\ (extractRelevantDiff diff symbol <> EmptyString ->
      Forall (fun line => In line (lines diff) /\ relevantLine symbol line)
             (lines (extractRelevantDiff diff symbol)))
  /\ ((List.length (lines diff) <= 50)%nat ->
      forall line,
        In line (lines diff) ->
        Query.startsWith line "@@" = true \/ Query.includes line symbol = true ->
        In line (lines (extractRelevantDiff diff symbol))).
Proof.
  unfold extractRelevantDiff.
  set (kept := slice (relevantLines symbol false (lines diff)) 0 50).
  assert (Hkept : Forall (fun line => In line (lines diff) /\ relevantLine symbol line)
                         kept).
  { apply Forall_forall. intros line Hin. apply slice_In in Hin.
    pose proof (relevantLines_sound symbol false (lines diff)) as Hsound.
    rewrite Forall_forall in Hsound. now apply Hsound. }
  assert (Hfree : Forall (fun piece => ~ occurs Git.newline piece) kept).
  { eapply Forall_impl; [ | exact Hkept]. cbn. intros line [Hin _].
    pose proof (GitCoverage.split_pieces_free Git.newline diff) as Hsplit.
    rewrite Forall_forall in Hsplit. now apply Hsplit. }
  assert (Hlen : (List.length kept <= 50)%nat).
  { pose proof (slice_length (relevantLines symbol false (lines diff)) 0 50) as H.
    subst kept. lia. }
  split; [ | split].
  - destruct kept as [ | line rest] eqn:Hk; [cbn; lia | ].
    rewrite joinLines_lines; [exact Hlen | discriminate | exact Hfree].
  - intros Hne. destruct kept as [ | line rest] eqn:Hk; [now destruct Hne | ].
    rewrite joinLines_lines; [exact Hkept | discriminate | exact Hfree].
  - intros Hshort line Hin Hline.
    assert (Hall : kept = relevantLines symbol false (lines diff)).
    { subst kept. apply slice_all.
      pose proof (relevantLines_length symbol false (lines diff)). lia. }
    assert (Hmem : In line kept).
    { rewrite Hall. now apply relevantLines_complete. }
    destruct kept as [ | first rest] eqn:Hk; [destruct Hmem | ].
    rewrite joinLines_lines; [exact Hmem | discriminate | exact Hfree].
Qed.


(** *** Blame *)

Lemma StronglySorted_snoc {A} (R : A -> A -> Prop) l y :
  StronglySorted R l -> Forall (fun x => R x y) l -> StronglySorted R (l ++ [y]).
Proof.
  induction 1 as [ | x l Hl IH Hx]; intros Hy; cbn.
  - repeat constructor.
  - inversion Hy as [ | ? ? Hxy Hrest]; subst. constructor.
    + now apply IH.
    + apply Forall_app. split; [exact Hx | now repeat constructor].
Qed.

Lemma isHexDigit_not_space c : isHexDigit c = true -> Ascii.eqb c " " = false.
Proof.
  destruct (Ascii.eqb_spec c " ") as [-> | Hne]; [discriminate | reflexivity].
Qed.

(** The word taken from a commit line opens with the digits of the line. *)
Lemma hexPrefix_firstWord n line :
  hexPrefix n line = true -> hexPrefix n (firstWord line) = true.
Proof.
  unfold firstWord. revert line.
  induction n as [ | n IH]; intros line; [reflexivity | ].
  destruct line as [ | c rest]; cbn [hexPrefix]; [discriminate | ].
  intros H. apply andb_true_iff in H as [Hc Hrest].
  cbn [Git.split]. rewrite (isHexDigit_not_space c Hc).
  specialize (IH rest Hrest).
  destruct (Git.split " " rest) as [ | piece pieces]; cbn [hd hexPrefix] in *.
  - destruct n; [now rewrite Hc | discriminate].
  - now rewrite Hc, IH.
Qed.

Lemma commitWord_hex output word : commitWord output word -> hexPrefix 40 word = true.
Proof. intros (line & _ & Hline & ->). now apply hexPrefix_firstWord. Qed.

Lemma blameEntry_later output n m entry :
  n <= m -> blameEntry output n entry -> blameEntry output m entry.
Proof. unfold blameEntry. intros Hle (Hline & Hrest). split; [lia | exact Hrest]. Qed.

Lemma orText_not_empty text fallback :
  fallback <> EmptyString -> orText text fallback <> EmptyString.
Proof.
  intros Hf. unfold orText, Git.nonEmpty. destruct text as [s | ]; [ | exact Hf].
  destruct (String.eqb_spec s "") as [-> | Hne]; cbn; [exact Hf | exact Hne].
Qed.

Lemma prefix_cons a piece c text :
  String.prefix (String a piece) (String c text)
  = if Ascii.eqb a c then String.prefix piece text else false.
Proof.
  cbn [String.prefix].
  destruct (ascii_dec a c) as [Heq | Hne], (Ascii.eqb_spec a c); congruence.
Qed.

Lemma prefix_append piece rest : String.prefix piece (piece ++ rest) = true.
Proof.
  induction piece as [ | c piece IH]; [now destruct rest | ].
  cbn [append]. rewrite prefix_cons, Ascii.eqb_refl. exact IH.
Qed.

(** One turn of the loop keeps the invariant, and counts the line when it
    carries code. *)
Lemma blameStep_invariant E clock output state line :
  In line (lines output) ->
  blameInvariant output state ->
  blameInvariant output (blameStep E clock state line)
  /\ lineNumber (blameStep E clock state line)
     = lineNumber state
       + Z.of_nat (List.length (filter (fun l => Query.startsWith l tab) [line])).
Proof.
  intros Hin (Hnum & Hsorted & Hentries & Hcurrent).
  unfold blameStep.
  destruct (isCommitLine line) eqn:Hcommit.
  { assert (Htab : Query.startsWith line tab = false).
    { destruct line as [ | c rest]; [reflexivity | ].
      cbn in Hcommit. apply andb_true_iff in Hcommit as [Hc _].
      unfold Query.startsWith, tab. rewrite prefix_cons.
      destruct (Ascii.eqb_spec "009"%char c) as [<- | Hne];
        [discriminate | reflexivity]. }
    cbn [filter]. rewrite Htab. cbn. split; [ | lia].
    repeat split; try assumption. cbn. intros hash [= <-].
    exists line. now repeat split. }
  assert (Hkeep : forall current,
             PartialBlame.commit current = PartialBlame.commit (currentBlame state) ->
             forall prefix, Query.startsWith line prefix = true ->
             Query.startsWith prefix tab = false -> prefix <> EmptyString ->
             blameInvariant output
               (mkBlameState (blameInfo state) current (lineNumber state))
             /\ lineNumber state
                = lineNumber state
                  + Z.of_nat (List.length
                                (filter (fun l => Query.startsWith l tab) [line]))).
  { intros current Hsame prefix Hprefix Hnot Hne.
    assert (Htab : Query.startsWith line tab = false).
    { unfold Query.startsWith, tab in *.
      destruct prefix as [ | a prefix]; [now destruct Hne | ].
      destruct line as [ | c rest]; [discriminate | ].
      rewrite prefix_cons in *.
      destruct (Ascii.eqb_spec a c) as [<- | ]; [ | discriminate].
      revert Hnot. destruct (Ascii.eqb "009"%char a); [now destruct prefix | reflexivity]. }
    cbn [filter]. rewrite Htab. cbn. split; [ | lia].
    repeat split; try assumption. cbn. now rewrite Hsame. }
  destruct (Query.startsWith line "author ") eqn:H1;
    [eapply Hkeep; [reflexivity | exact H1 | reflexivity | discriminate] | ].
  destruct (Query.startsWith line "author-mail ") eqn:H2;
    [eapply Hkeep; [reflexivity | exact H2 | reflexivity | discriminate] | ].
  destruct (Query.startsWith line "author-time ") eqn:H3;
    [eapply Hkeep; [reflexivity | exact H3 | reflexivity | discriminate] | ].
  destruct (Query.startsWith line "summary ") eqn:H4;
    [eapply Hkeep; [reflexivity | exact H4 | reflexivity | discriminate] | ].
  cbn [filter].
  destruct (Query.startsWith line tab) eqn:Htab; cbn [List.length Z.of_nat];
    [ | split; [now repeat split | lia] ].
  assert (Hlater : Forall (blameEntry output (lineNumber state + 1)) (blameInfo state)).
  { eapply Forall_impl; [ | exact Hentries]. intros entry.
    apply blameEntry_later. lia. }
  destruct (PartialBlame.commit (currentBlame state)) as [hash | ] eqn:Hhash;
    [ | cbn; split; [ | lia]; repeat split; cbn; try assumption; try lia;
        intros h Hh; congruence ].
  destruct (Git.nonEmpty hash) eqn:Hne;
    [ | cbn; split; [ | lia]; repeat split; cbn; try assumption; try lia;
        intros h Hh; apply Hcurrent; congruence ].
  cbn. split; [ | lia]. repeat split; cbn.
  - lia.
  - rewrite map_app. cbn. apply StronglySorted_snoc; [exact Hsorted | ].
    apply Forall_map. eapply Forall_impl; [ | exact Hentries].
    intros entry (Hline & _). cbn. lia.
  - apply Forall_app. split; [exact Hlater | ].
    constructor; [ | constructor]. repeat split; cbn.
    + lia.
    + lia.
    + now apply Hcurrent.
    + apply orText_not_empty. discriminate.
  - discriminate.
Qed.

Lemma blame_fold E clock output rest state :
  incl rest (lines output) ->
  blameInvariant output state ->
  let final := fold_left (blameStep E clock) rest state in
  blameInvariant output final
  /\ lineNumber final
     = lineNumber state
       + Z.of_nat (List.length (filter (fun l => Query.startsWith l tab) rest)).
Proof.
  revert state. induction rest as [ | line rest IH]; intros state Hincl Hinv; cbn.
  - split; [exact Hinv | lia].
  - destruct (blameStep_invariant E clock output state line) as [Hstep Hcount];
      [apply Hincl; now left | exact Hinv | ].
    destruct (IH (blameStep E clock state line)) as [Hfinal Hnumber];
      [intros l Hl; apply Hincl; now right | exact Hstep | ].
    split; [exact Hfinal | ].
    cbn zeta in Hnumber. rewrite Hnumber, Hcount. cbn [filter].
    destruct (Query.startsWith line tab); cbn [List.length]; lia.
Qed.

Lemma parseBlameOutput_invariant E clock output :
  StronglySorted Z.lt (map BlameInfo.line (parseBlameOutput E clock output))
  /\ Forall (blameEntry output (codeLines output)) (parseBlameOutput E clock output).
Proof.
  unfold parseBlameOutput, codeLines.
  destruct (blame_fold E clock output (lines output)
              (mkBlameState [] PartialBlame.empty 0))
    as [(_ & Hsorted & Hentries & _) Hnumber].
  - intros l Hl. exact Hl.
  - repeat split; cbn; try lia; try constructor. discriminate.
  - cbn zeta in *. split; [exact Hsorted | ].
    rewrite Hnumber in Hentries. exact Hentries.
Qed.

(** X21.  The blame read from git's output is numbered by the code lines of that
    output: the line numbers grow strictly, and lie between 1 and the number
    of lines of the output that carry code, so they count from the start of
    the blamed range, not of the file.  Every entry names a commit taken
    from a line that opens with 40 hexadecimal digits, and has an author. *)
Theorem parseBlameOutput_numbers_code_lines_from_one
    (E : Platform) (clock : Z -> Instant) (output : string) :
  let blame := parseBlameOutput E clock output in
  StronglySorted Z.lt (map BlameInfo.line blame)
  /\ Forall (fun entry =>
               1 <= BlameInfo.line entry <= codeLines output
               /\ commitWord output (BlameInfo.commit entry)
               /\ hexPrefix 40 (BlameInfo.commit entry) = true
               /\ BlameInfo.author entry <> EmptyString)
            blame.
Proof.
  cbn zeta. destruct (parseBlameOutput_invariant E clock output) as [Hsorted Hentries].
  split; [exact Hsorted | ].
  eapply Forall_impl; [ | exact Hentries].
  intros entry (Hline & Hword & Hauthor). repeat split; try tauto.
  now apply commitWord_hex with (output := output).
Qed.

(** X22.  [getBlameInfo] never throws.  When git's blame rejects it logs one
    warning and gives no entries; otherwise it gives the blame parsed from
    git's output and logs nothing; either way the line numbers of its
    entries grow strictly from 1 or more. *)
Theorem getBlameInfo_gives_ordered_entries_or_none
    (E : Platform) (clock : Z -> Instant) (git : Git.SimpleGit.t)
    (filePath : string) (startLine endLine : Z) (log : list LogRecord) :
  exists blame log',
    getBlameInfo E clock git filePath startLine endLine log = (Returned blame, log')
    /\ StronglySorted Z.lt (map BlameInfo.line blame)
    /\ Forall (fun entry => 1 <= BlameInfo.line entry) blame
    /\ (forall output,
          Git.SimpleGit.raw git (blameArgs E filePath startLine endLine)
          = Returned output ->
          blame = parseBlameOutput E clock output /\ log' = log)
    /\ (Effects.rejected
          (Git.SimpleGit.raw git (blameArgs E filePath startLine endLine)) ->
        blame = []
        /\ log' = log ++ [mkLog Lwarn "Failed to get blame info, returning empty"]).
Proof.
  unfold getBlameInfo, try_catch, bind, await, ret, logger, Effects.rejected.
  destruct (Git.SimpleGit.raw git _) as [output | e].
  - destruct (parseBlameOutput_invariant E clock output) as [Hsorted Hentries].
    do 2 eexists. split; [reflexivity | ]. split; [exact Hsorted | ]. split.
    { eapply Forall_impl; [ | exact Hentries].
      intros entry ((Hline & _) & _). exact Hline. }
    split.
    + intros output' [= <-]. split; reflexivity.
    + intros [e He]. discriminate.
  - do 2 eexists. split; [reflexivity | ]. repeat split; try constructor;
      try discriminate.
Qed.

(** *** Blame: reading the blocks of git's output *)

Lemma hexPrefix_append n hash rest :
  hexPrefix n hash = true -> hexPrefix n (hash ++ rest) = true.
Proof.
  revert hash. induction n as [ | n IH]; intros hash; [reflexivity | ].
  destruct hash as [ | c hash]; cbn; [discriminate | ].
  intros H. apply andb_true_iff in H as [Hc Hrest]. now rewrite Hc, IH.
Qed.

Lemma firstWord_append hash rest :
  ~ occurs " "%char hash -> firstWord (hash ++ String " " rest) = hash.
Proof. intros Hfree. unfold firstWord. now rewrite split_app_free. Qed.

Lemma from_append piece rest : from (String.length piece) (piece ++ rest) = rest.
Proof.
  unfold from. induction piece as [ | c piece IH]; cbn.
  - rewrite Nat.sub_0_r. apply SearchFacts.substring_all.
  - exact IH.
Qed.

Lemma stripAngles_append a b :
  stripAngles (a ++ b) = (stripAngles a ++ stripAngles b)%string.
Proof.
  induction a as [ | c a IH]; cbn; [reflexivity | ].
  destruct (Ascii.eqb c "<" || Ascii.eqb c ">")%bool; cbn; now rewrite IH.
Qed.

Lemma orText_or_empty text : orText (Some text) "" = text.
Proof.
  unfold orText, Git.nonEmpty.
  destruct (String.eqb_spec text "") as [-> | Hne]; reflexivity.
Qed.

Lemma startsWith_tab code : Query.startsWith (tab ++ code) tab = true.
Proof. unfold Query.startsWith. apply prefix_append. Qed.

Lemma hexPrefix_not_empty n hash :
  hexPrefix (S n) hash = true -> Git.nonEmpty hash = true.
Proof. destruct hash; [discriminate | reflexivity]. Qed.

(** The loop passes over the lines it does not react to. *)
Lemma blameStep_ignored E clock state line :
  ignoredLine line = true -> blameStep E clock state line = state.
Proof.
  unfold ignoredLine, blameStep. intros H. apply negb_true_iff in H.
  repeat (apply orb_false_iff in H; destruct H as [H ?]).
  repeat match goal with Heq : _ = false |- _ => rewrite Heq; clear Heq end.
  reflexivity.
Qed.

Lemma blame_fold_ignored E clock state others :
  Forall (fun line => ignoredLine line = true) others ->
  fold_left (blameStep E clock) others state = state.
Proof.
  intros Hall. revert state.
  induction Hall as [ | line rest Hline _ IH]; intros state; cbn; [reflexivity | ].
  rewrite blameStep_ignored by exact Hline. apply IH.
Qed.

(** A text that opens with a prefix is the prefix followed by a rest. *)
Lemma prefix_split piece text :
  String.prefix piece text = true -> exists rest, text = (piece ++ rest)%string.
Proof.
  revert text. induction piece as [ | c piece IH]; intros text.
  - intros _. now exists text.
  - destruct text as [ | a text]; [discriminate | ]. rewrite prefix_cons.
    destruct (Ascii.eqb_spec c a) as [<- | ]; [ | discriminate].
    intros H. destruct (IH text H) as [rest ->]. now exists rest.
Qed.

(** The turns of the loop on the lines of a block. *)
Lemma blameStep_commit E clock state hash position :
  hexPrefix 40 hash = true -> ~ occurs " "%char hash ->
  blameStep E clock state (hash ++ " " ++ position)
  = mkBlameState (blameInfo state)
      (PartialBlame.make (Some hash)
         (PartialBlame.author (currentBlame state))
         (PartialBlame.authorEmail (currentBlame state))
         (PartialBlame.date (currentBlame state))
         (PartialBlame.message (currentBlame state)))
      (lineNumber state).
Proof.
  intros Hhex Hspace. unfold blameStep.
  change (hash ++ " " ++ position)%string with (hash ++ String " " position)%string.
  unfold isCommitLine. rewrite (hexPrefix_append 40 _ _ Hhex).
  now rewrite (firstWord_append _ _ Hspace).
Qed.

(** On a header line the loop sets the field the line opens with, if any. *)
Lemma blameStep_header E clock entries current number header :
  headerLine header ->
  blameStep E clock (mkBlameState entries current number) header
  = mkBlameState entries
      (PartialBlame.make (PartialBlame.commit current)
         (orElse (headerField "author " [header]) (PartialBlame.author current))
         (orElse (option_map stripAngles (headerField "author-mail " [header]))
                 (PartialBlame.authorEmail current))
         (orElse (option_map (fun text => dateOfSeconds (parseInt E text))
                             (headerField "author-time " [header]))
                 (PartialBlame.date current))
         (orElse (headerField "summary " [header]) (PartialBlame.message current)))
      number.
Proof.
  intros [Hcommit Htab]. unfold blameStep. rewrite Hcommit. cbn [headerField].
  cbn [currentBlame blameInfo lineNumber String.length].
  destruct (Query.startsWith header "author ") eqn:H1.
  { destruct (prefix_split _ _ H1) as [rest ->]. destruct current. reflexivity. }
  destruct (Query.startsWith header "author-mail ") eqn:H2.
  { destruct (prefix_split _ _ H2) as [rest ->]. destruct current. reflexivity. }
  destruct (Query.startsWith header "author-time ") eqn:H3.
  { destruct (prefix_split _ _ H3) as [rest ->]. destruct current. reflexivity. }
  destruct (Query.startsWith header "summary ") eqn:H4.
  { destruct (prefix_split _ _ H4) as [rest ->]. destruct current. reflexivity. }
  rewrite Htab. destruct current. reflexivity.
Qed.

Lemma headerField_cons prefix header rest :
  headerField prefix (header :: rest)
  = orElse (headerField prefix rest) (headerField prefix [header]).
Proof. cbn. destruct (headerField prefix rest); reflexivity. Qed.

Lemma orElse_assoc {A} (a b c : option A) : orElse a (orElse b c) = orElse (orElse a b) c.
Proof. now destruct a. Qed.

Lemma orElse_map {A B} (f : A -> B) (a b : option A) :
  option_map f (orElse a b) = orElse (option_map f a) (option_map f b).
Proof. now destruct a. Qed.

Lemma orElse_None {A} (a : option A) : orElse a None = a.
Proof. now destruct a. Qed.

(** The loop over the header lines of a block: each field is that of the
    last header line that sets it, or as it was. *)
Lemma blame_fold_headers E clock entries number headers current :
  Forall headerLine headers ->
  fold_left (blameStep E clock) headers (mkBlameState entries current number)
  = mkBlameState entries
      (PartialBlame.make (PartialBlame.commit current)
         (orElse (headerField "author " headers) (PartialBlame.author current))
         (orElse (option_map stripAngles (headerField "author-mail " headers))
                 (PartialBlame.authorEmail current))
         (orElse (option_map (fun text => dateOfSeconds (parseInt E text))
                             (headerField "author-time " headers))
                 (PartialBlame.date current))
         (orElse (headerField "summary " headers) (PartialBlame.message current)))
      number.
Proof.
  intros Hall. revert current.
  induction Hall as [ | header rest Hheader _ IH]; intros current.
  - destruct current. reflexivity.
  - cbn [fold_left]. rewrite (blameStep_header _ _ _ _ _ _ Hheader), IH.
    cbn [PartialBlame.commit PartialBlame.author PartialBlame.authorEmail
         PartialBlame.date PartialBlame.message].
    rewrite !(headerField_cons _ header rest), !orElse_map, !orElse_assoc.
    reflexivity.
Qed.

Lemma blameStep_code E clock entries hash author mail date message number code :
  Git.nonEmpty hash = true ->
  blameStep E clock
    (mkBlameState entries (PartialBlame.make (Some hash) author mail date message)
       number)
    (tab ++ code)
  = mkBlameState
      (entries
       ++ [BlameInfo.make (number + 1) hash (orText author "Unknown") (orText mail "")
             (orDefault date (clock (number + 1))) (orText message "")])
      PartialBlame.empty (number + 1).
Proof.
  intros Hhash. unfold blameStep.
  change (isCommitLine (tab ++ code)) with false.
  change (Query.startsWith (tab ++ code) "author ") with false.
  change (Query.startsWith (tab ++ code) "author-mail ") with false.
  change (Query.startsWith (tab ++ code) "author-time ") with false.
  change (Query.startsWith (tab ++ code) "summary ") with false.
  cbv iota. rewrite startsWith_tab.
  cbn [currentBlame blameInfo lineNumber PartialBlame.commit PartialBlame.author
       PartialBlame.authorEmail PartialBlame.date PartialBlame.message].
  now rewrite Hhash.
Qed.

(** The loop over one block: it pushes the entry of the block under the
    next number, and is ready for the next block. *)
Lemma blame_fold_block E clock entries number block :
  wellFormedBlock block ->
  fold_left (blameStep E clock) (blockLines block)
    (mkBlameState entries PartialBlame.empty number)
  = mkBlameState (entries ++ [blameOf E clock (number + 1) block]) PartialBlame.empty
      (number + 1).
Proof.
  intros (Hhex & Hspace & _ & Hheaders).
  unfold blockLines. cbn [fold_left].
  rewrite (blameStep_commit _ _ _ _ _ Hhex Hspace).
  rewrite fold_left_app, (blame_fold_headers _ _ _ _ _ _ Hheaders). cbn [fold_left].
  cbn [currentBlame blameInfo lineNumber PartialBlame.commit PartialBlame.author
       PartialBlame.authorEmail PartialBlame.date PartialBlame.message
       PartialBlame.empty].
  rewrite blameStep_code by exact (hexPrefix_not_empty _ _ Hhex).
  unfold blameOf. now rewrite !orElse_None.
Qed.

Lemma blame_fold_blocks E clock blocks entries number :
  Forall wellFormedBlock blocks ->
  fold_left (blameStep E clock) (flat_map blockLines blocks)
    (mkBlameState entries PartialBlame.empty number)
  = mkBlameState (entries ++ blamesFrom E clock (number + 1) blocks) PartialBlame.empty
      (number + Z.of_nat (List.length blocks)).
Proof.
  intros Hall. revert entries number.
  induction Hall as [ | block rest Hblock _ IH]; intros entries number.
  - cbn. now rewrite app_nil_r, Z.add_0_r.
  - cbn [flat_map]. rewrite fold_left_app, blame_fold_block by exact Hblock.
    rewrite IH. cbn [blamesFrom List.length]. rewrite <- app_assoc. cbn [app].
    f_equal. lia.
Qed.

(** X23.  [parseBlameOutput] reads back a line-porcelain blame.  For an
    output made of blocks (a commit line that opens with a hash of 40
    hexadecimal digits, header lines in any order and number, a code line
    behind a tab), followed by lines the parser does not react to, such as
    the empty line after git's final line break, it gives one entry for each
    block, in order, numbered 1, 2, 3 and so on, with the hash of the block
    and, from the last header line of each kind, the author ('Unknown' for
    none or an empty one), the mail address without its angle brackets, the
    date of the author time (the time of the clock for none) and the
    summary. *)
Theorem parseBlameOutput_reads_porcelain_blocks
    (E : Platform) (clock : Z -> Instant) (blocks : list Block.t)
    (trailer : list string) :
  Forall wellFormedBlock blocks ->
  Forall (fun line => ignoredLine line = true /\ ~ occurs Git.newline line) trailer ->
  parseBlameOutput E clock (joinLines (flat_map blockLines blocks ++ trailer))
  = blamesFrom E clock 1 blocks.
Proof.
  intros Hall Htrailer. unfold parseBlameOutput.
  assert (Hignored : Forall (fun line => ignoredLine line = true) trailer).
  { eapply Forall_impl; [ | exact Htrailer]. now intros line [H _]. }
  destruct (flat_map blockLines blocks ++ trailer) as [ | line rest] eqn:Hlines.
  - apply app_eq_nil in Hlines as [Hblocks _].
    destruct blocks as [ | block more]; [reflexivity | ].
    cbn [flat_map] in Hblocks. unfold blockLines at 1 in Hblocks. discriminate.
  - rewrite joinLines_lines.
    + rewrite <- Hlines, fold_left_app.
      rewrite (blame_fold_blocks E clock blocks [] 0 Hall).
      now rewrite (blame_fold_ignored _ _ _ _ Hignored).
    + discriminate.
    + rewrite <- Hlines. apply Forall_app. split.
      * apply Forall_flat_map. eapply Forall_impl; [ | exact Hall].
        intros b (_ & _ & Hfree & _). exact Hfree.
      * eapply Forall_impl; [ | exact Htrailer]. now intros l [_ H].
Qed.

(** Two blocks as git prints them, and its final line break. *)
Lemma parseBlameOutput_reads_porcelain_blocks_witness :
  Forall wellFormedBlock [Samples2.firstBlock; Samples2.secondBlock]
  /\ Forall (fun line => ignoredLine line = true /\ ~ occurs Git.newline line)
            Samples2.finalLineBreak
  /\ parseBlameOutput Samples2.runtime Samples2.epoch
       (joinLines (flat_map blockLines [Samples2.firstBlock; Samples2.secondBlock]
                   ++ Samples2.finalLineBreak))
     = blamesFrom Samples2.runtime Samples2.epoch 1
         [Samples2.firstBlock; Samples2.secondBlock].
Proof.
  assert (Hblocks : Forall wellFormedBlock [Samples2.firstBlock; Samples2.secondBlock]).
  { repeat constructor; cbn; intuition discriminate. }
  assert (Htrailer : Forall (fun line => ignoredLine line = true
                                         /\ ~ occurs Git.newline line)
                            Samples2.finalLineBreak).
  { repeat constructor. intros []. }
  split; [exact Hblocks | ]. split; [exact Htrailer | ].
  apply (parseBlameOutput_reads_porcelain_blocks Samples2.runtime Samples2.epoch
           [Samples2.firstBlock; Samples2.secondBlock] Samples2.finalLineBreak
           Hblocks Htrailer).
Defined.

(** The blame read from the two sample blocks. *)
Example blame_of_two_blocks :
  parseBlameOutput Samples2.runtime Samples2.epoch
    (joinLines (flat_map blockLines [Samples2.firstBlock; Samples2.secondBlock]
                ++ Samples2.finalLineBreak))
  = [BlameInfo.make 1 "781d71c0ffee00000000000000000000000000aa" "Ada"
       "ada@example.org" (At 1700000000000) "Add the scanner";
     BlameInfo.make 2 "0123456789abcdef0123456789abcdef01234567" "Grace"
       "grace@example.org" (At 1700000500000) "Export the types"].
Proof. vm_compute. reflexivity. Qed.

(** *** The time line of a symbol *)

Lemma getFileDiff_run git filePath commit log :
  Git.getFileDiff git filePath (Git.CommitInfo.hash commit ++ "^")%string
    (Some (Git.CommitInfo.hash commit)) log
  = (Returned (diffOf git filePath commit), log ++ diffFailures git filePath [commit]).
Proof.
  unfold Git.getFileDiff, try_catch, await, diffOf, diffFailures. cbn [flat_map].
  destruct (Git.SimpleGit.diff git _) as [text | e]; cbn.
  - now rewrite app_nil_r.
  - reflexivity.
Qed.

Lemma diffFailures_cons git filePath commit rest :
  diffFailures git filePath (commit :: rest)
  = diffFailures git filePath [commit] ++ diffFailures git filePath rest.
Proof. unfold diffFailures. cbn [flat_map]. now rewrite app_nil_r. Qed.

Lemma timeline_run git fileHistory filePath symbol log :
  timeline git fileHistory filePath symbol log
  = (Returned (map (fun commit => evolutionStep symbol commit (diffOf git filePath commit))
                   (filter (fun commit =>
                              Query.includes (diffOf git filePath commit) symbol)
                           fileHistory)),
     log ++ diffFailures git filePath fileHistory).
Proof.
  revert log. induction fileHistory as [ | commit rest IH]; intros log.
  - cbn. unfold ret. now rewrite app_nil_r.
  - cbn [timeline]. unfold bind at 1. rewrite getFileDiff_run.
    unfold bind. rewrite IH. unfold ret.
    rewrite (diffFailures_cons git filePath commit rest), app_assoc. cbn [filter].
    destruct (Query.includes (diffOf git filePath commit) symbol); reflexivity.
Qed.

Lemma includes_empty_text symbol :
  symbol <> EmptyString -> Query.includes "" symbol = false.
Proof. destruct symbol; [now intros [] | reflexivity]. Qed.

Lemma extractRelevantDiff_short diff symbol :
  (List.length (lines (extractRelevantDiff diff symbol)) <= 50)%nat.
Proof.
  unfold extractRelevantDiff.
  set (kept := slice (relevantLines symbol false (lines diff)) 0 50).
  assert (Hfree : Forall (fun piece => ~ occurs Git.newline piece) kept).
  { apply Forall_forall. intros line Hin. apply slice_In in Hin.
    pose proof (relevantLines_sound symbol false (lines diff)) as Hsound.
    rewrite Forall_forall in Hsound. destruct (Hsound line Hin) as [Hline _].
    pose proof (GitCoverage.split_pieces_free Git.newline diff) as Hsplit.
    rewrite Forall_forall in Hsplit. now apply Hsplit. }
  assert (Hlen : (List.length kept <= 50)%nat).
  { pose proof (slice_length (relevantLines symbol false (lines diff)) 0 50) as H.
    subst kept. lia. }
  destruct kept as [ | line rest] eqn:Hk; [cbn; lia | ].
  rewrite joinLines_lines; [exact Hlen | discriminate | exact Hfree].
Qed.

(** X24.  The time line of [getCodeEvolution] is built without throwing, with one
    error logged for each commit whose diff could not be had.  It holds, in
    the order of the history, one step for each commit whose diff mentions
    the symbol; the diff of a step has at most 50 lines; and for a symbol
    that is not empty every step comes from a diff that git did give. *)
Theorem timeline_holds_the_commits_that_mention_the_symbol
    (git : Git.SimpleGit.t) (fileHistory : list Git.CommitInfo.t)
    (filePath symbol : string) (log : list LogRecord) :
  exists evolution,
    timeline git fileHistory filePath symbol log
    = (Returned evolution, log ++ diffFailures git filePath fileHistory)
    /\ map EvolutionStep.commit evolution
       = map Git.CommitInfo.hash
           (filter (fun commit => Query.includes (diffOf git filePath commit) symbol)
                   fileHistory)
    /\ Forall (fun step =>
                 (List.length (lines (EvolutionStep.diff step)) <= 50)%nat)
              evolution
    /\ (symbol <> EmptyString ->
        Forall (fun step =>
                  exists commit text,
                    In commit fileHistory
                    /\ Git.SimpleGit.diff git
                         (Git.fileDiffArgs filePath
                            (Git.CommitInfo.hash commit ++ "^")%string
                            (Some (Git.CommitInfo.hash commit)))
                       = Returned text
                    /\ Query.includes text symbol = true
                    /\ step = evolutionStep symbol commit text)
               evolution).
Proof.
  eexists. split; [apply timeline_run | ]. repeat split.
  - rewrite map_map. reflexivity.
  - apply Forall_map. apply Forall_forall. intros commit _. cbn.
    apply extractRelevantDiff_short.
  - intros Hsymbol. apply Forall_map. apply Forall_forall. intros commit Hin.
    apply filter_In in Hin as [Hin Hkeep]. unfold diffOf in *.
    destruct (Git.SimpleGit.diff git _) as [text | e] eqn:Hdiff.
    + exists commit, text. now repeat split.
    + rewrite includes_empty_text in Hkeep by exact Hsymbol. discriminate.
Qed.

(** *** The explanation *)

Lemma includes_here text piece : String.prefix piece text = true -> Query.includes text piece = true.
Proof. intros H. destruct text; cbn [Query.includes]; rewrite H; reflexivity. Qed.

Lemma includes_after before text piece :
  Query.includes text piece = true -> Query.includes (before ++ text) piece = true.
Proof.
  induction before as [ | c before IH]; cbn; [tauto | ].
  intros H. rewrite (IH H). apply orb_true_r.
Qed.

(** A joined text holds each of its pieces. *)
Lemma includes_piece sep pieces piece :
  In piece pieces -> Query.includes (String.concat sep pieces) piece = true.
Proof.
  induction pieces as [ | first rest IH]; [intros [] | ].
  intros [-> | Hin].
  - apply includes_here. cbn. destruct rest.
    + rewrite <- (SearchFacts.append_empty piece) at 2. apply prefix_append.
    + apply prefix_append.
  - cbn. destruct rest as [ | next rest]; [destruct Hin | ].
    apply includes_after, includes_after. now apply IH.
Qed.

Lemma fallback_not_empty E code historicalContext nodes :
  generateFallbackExplanation E code historicalContext nodes <> EmptyString.
Proof. unfold generateFallbackExplanation, joinLines. cbn. discriminate. Qed.

(** X25.  [queryGraphRAGForExplanation] never throws and never gives an empty
    explanation.  When the retrieval fulfils nothing is logged, and content
    that is not empty is the explanation; when it rejects, one warning is
    logged and the explanation is the fallback, which quotes the code and
    the historical context. *)
Theorem queryGraphRAGForExplanation_always_explains
    (E : Platform) (client : Query.GraphRAGClient.t)
    (filePath code historicalContext : string) (nodes : list ASTNode.t)
    (log : list LogRecord) :
  let answer :=
    Query.GraphRAGClient.retrieve client
      (explanationQuery filePath code historicalContext) "hybrid" in
  exists explanation log',
    queryGraphRAGForExplanation E client filePath code historicalContext nodes log
    = (Returned explanation, log')
    /\ explanation <> EmptyString
    /\ (forall result,
          answer = Returned result ->
          log' = log
          /\ (Query.RetrievalResult.content result <> EmptyString ->
              explanation = Query.RetrievalResult.content result))
    /\ (Effects.rejected answer ->
        log' = log ++ [mkLog Lwarn "GraphRAG query failed, using fallback explanation"]
        /\ explanation = generateFallbackExplanation E code historicalContext nodes
        /\ Query.includes explanation code = true
        /\ Query.includes explanation historicalContext = true).
Proof.
  cbn zeta.
  unfold queryGraphRAGForExplanation, try_catch, bind, await, ret, logger,
    Effects.rejected.
  destruct (Query.GraphRAGClient.retrieve client _ _) as [result | e].
  - do 2 eexists. split; [reflexivity | ].
    unfold Git.nonEmpty.
    destruct (String.eqb_spec (Query.RetrievalResult.content result) "") as [Heq | Hne];
      cbn [negb].
    + split; [discriminate | ]. split.
      * intros result' [= <-]. split; [reflexivity | contradiction].
      * intros [e He]. discriminate.
    + split; [exact Hne | ]. split.
      * intros result' [= <-]. split; reflexivity.
      * intros [e He]. discriminate.
  - do 2 eexists. split; [reflexivity | ].
    split; [apply fallback_not_empty | ]. split; [discriminate | ].
    intros _. split; [reflexivity | ]. split; [reflexivity | ].
    unfold generateFallbackExplanation, joinLines.
    split; apply includes_piece; apply in_or_app; right; apply in_or_app; right;
      cbn; tauto.
Qed.

End EpisodicFacts.
